(** * Polling / resume state machine of the X-to-Discord bot

    A shallow embedding of

    - [core/state_manager.py]  (class [StateManager], the SQLite store),
    - [core/pipeline.py]       (class [Pipeline], the polling driver),
    - [core/tweet_fetcher.py]  ([TweetFetcher.get_user_tweets]),
    - [utils/helpers.py]       ([parse_username]),
    - [post_latest_tweet_to_discord.py] ([post_latest_pending]),

    followed by the properties of the specification that concern them.

    Conventions.  Python [int] is [Z]; Python [str] is [string] (the
    models of [str.upper], [str.lower] and [str.strip] act on ASCII, which
    is what account handles, tweet ids and classifier decisions are made
    of).  A SQLite table with a [PRIMARY KEY] is a [gmap] from the key; the
    [pending_posts] and [errors] tables, whose key is an [AUTOINCREMENT]
    row id, are lists in row-id order.  [CURRENT_TIMESTAMP] values are
    seconds since the epoch as [Z] (their text form has a fixed width, so
    SQLite's text ordering is the chronological one).  Logging through
    [self.logger] and [print] is left out of the driver; the calls that go
    to a collaborator, the sleeps and the store accesses are kept. *)

From Stdlib Require Import ZArith Ascii String Lia.
From stdpp Require Import base gmap list strings.

(* ================================================================== *)
(** * Part I — the program                                             *)
(* ================================================================== *)

(** ** Python string helpers *)

Definition is_lower (c : ascii) : bool :=
  let n := nat_of_ascii c in (97 <=? n)%nat && (n <=? 122)%nat.

Definition is_upper (c : ascii) : bool :=
  let n := nat_of_ascii c in (65 <=? n)%nat && (n <=? 90)%nat.

Definition is_digit (c : ascii) : bool :=
  let n := nat_of_ascii c in (48 <=? n)%nat && (n <=? 57)%nat.

(** [" \t\n\r\x0b\x0c"] and the separators [\x1c]..[\x1f], which
    [str.strip] also removes. *)
Definition is_space (c : ascii) : bool :=
  let n := nat_of_ascii c in
  (n =? 32)%nat || ((9 <=? n)%nat && (n <=? 13)%nat)
  || ((28 <=? n)%nat && (n <=? 31)%nat).

Definition upper_char (c : ascii) : ascii :=
  if is_lower c then ascii_of_nat (nat_of_ascii c - 32) else c.

Definition lower_char (c : ascii) : ascii :=
  if is_upper c then ascii_of_nat (nat_of_ascii c + 32) else c.

Fixpoint map_string (f : ascii -> ascii) (s : string) : string :=
  match s with
  | EmptyString => EmptyString
  | String c s' => String (f c) (map_string f s')
  end.

(** [s.upper()] and [s.lower()] *)
Definition upper (s : string) : string := map_string upper_char s.
Definition lower (s : string) : string := map_string lower_char s.

(** [s.lstrip(chars)] for a predicate on characters *)
Fixpoint lstrip_by (p : ascii -> bool) (s : string) : string :=
  match s with
  | EmptyString => EmptyString
  | String c s' => if p c then lstrip_by p s' else s
  end.

Fixpoint rev_string_onto (s acc : string) : string :=
  match s with
  | EmptyString => acc
  | String c s' => rev_string_onto s' (String c acc)
  end.

Definition rev_string (s : string) : string := rev_string_onto s EmptyString.

Definition rstrip_by (p : ascii -> bool) (s : string) : string :=
  rev_string (lstrip_by p (rev_string s)).

(** [s.strip()] *)
Definition strip (s : string) : string := rstrip_by is_space (lstrip_by is_space s).

Fixpoint drop_string (n : nat) (s : string) : string :=
  match n, s with
  | O, _ => s
  | S n', String _ s' => drop_string n' s'
  | S _, EmptyString => EmptyString
  end.

(** The longest prefix of [s] made of characters satisfying [p], of at
    most [n] characters: what a greedy [[...]{1,n}] captures. *)
Fixpoint take_while (p : ascii -> bool) (n : nat) (s : string) : string :=
  match n, s with
  | S n', String c s' => if p c then String c (take_while p n' s') else EmptyString
  | _, _ => EmptyString
  end.

(** [s.split(sep)[0]] for a one-character separator *)
Fixpoint split_head (sep : ascii) (s : string) : string :=
  match s with
  | EmptyString => EmptyString
  | String c s' => if Ascii.eqb c sep then EmptyString else String c (split_head sep s')
  end.

(** [int(s)] on a string: surrounding white space, an optional sign, then
    decimal digits, single underscores allowed between digits.  [None]
    stands for [ValueError]. *)
Definition digit_value (c : ascii) : Z := Z.of_nat (nat_of_ascii c - 48).

Fixpoint int_digits (after_digit : bool) (acc : Z) (s : string) : option Z :=
  match s with
  | EmptyString => if after_digit then Some acc else None
  | String c s' =>
      if is_digit c then int_digits true (10 * acc + digit_value c)%Z s'
      else if Ascii.eqb c "_" then
        if after_digit then int_digits false acc s' else None
      else None
  end.

Definition int (s : string) : option Z :=
  match strip s with
  | String "-" s' => option_map Z.opp (int_digits false 0%Z s')
  | String "+" s' => int_digits false 0%Z s'
  | s' => int_digits false 0%Z s'
  end.

(** ** [utils/helpers.py] *)

(** [[a-zA-Z0-9_]] *)
Definition is_handle_char (c : ascii) : bool :=
  is_lower c || is_upper c || is_digit c || Ascii.eqb c "_".

(** [[^/?]] *)
Definition is_path_char (c : ascii) : bool :=
  negb (Ascii.eqb c "/" || Ascii.eqb c "?").

(** What follows [twitter.com/] or [x.com/] when [s] starts with one of
    them. *)
Definition after_domain (s : string) : option string :=
  if String.prefix "twitter.com/" s then Some (drop_string 12 s)
  else if String.prefix "x.com/" s then Some (drop_string 6 s)
  else None.

(** [re.search] of
    [(?:https?://)?(?:www\.)?(?:twitter\.com|x\.com)/(C+)] for a character
    class [C]: the text from the captured group on, at the leftmost match.
    The optional scheme and [www.] contain no start of a domain name, so
    the leftmost match is the one whose domain name stands leftmost, and
    the group starts right after that domain's slash. *)
Fixpoint search_url (in_class : ascii -> bool) (s : string) : option string :=
  let here :=
    match after_domain s with
    | Some (String c rest) => if in_class c then Some (String c rest) else None
    | _ => None
    end in
  match here with
  | Some r => Some r
  | None =>
      match s with
      | EmptyString => None
      | String _ s' => search_url in_class s'
      end
  end.

(** The two [url_patterns], in order: the captured group of the first
    that matches. *)
Definition search_url_patterns (s : string) : option string :=
  match search_url is_handle_char s with
  | Some r => Some (take_while is_handle_char 15 r)
  | None =>
      match search_url is_path_char s with
      | Some r => Some (take_while is_path_char (String.length r) r)
      | None => None
      end
  end.

Definition parse_username (url_or_username : string) : string :=
  let cleaned_input := lower (strip url_or_username) in
  match search_url_patterns cleaned_input with
  | Some username =>
      split_head "?" (rstrip_by (Ascii.eqb "/") username)
  | None =>
      (* both outcomes of the final [re.match] return the same string *)
      lstrip_by (Ascii.eqb "@") cleaned_input
  end.

(** ** Rows and dictionaries *)

(** The [tweet_data] dictionary with keys [id], [text], [username],
    [created_at] that the driver builds for the store and the notifier. *)
Module TweetData.
Record t := mk { id : string; text : string; username : string; created_at : string }.
End TweetData.

(** A tweet as [TweetFetcher.fetch_new_tweets] formats it. *)
Module Tweet.
Record t := mk {
  id : string; text : string; username : string;
  created_at : string; author_id : string }.
End Tweet.

(** The dictionary [PromptProcessor.analyze_tweet] returns: the
    classifier's JSON object (of which only [decision] is guaranteed)
    with [tweet_id], [username] and [tweet_text] added. *)
Module Analysis.
Record t := mk {
  decision : string;
  reasoning : option string;
  summary : option string;
  created_at : option string;
  tweet_id : string;
  username : string;
  tweet_text : string }.
End Analysis.

(** A row of [pending_posts]. *)
Module PendingPost.
Record t := mk {
  tweet_id : string;
  tweet_text : string;
  username : string;
  created_at : string;
  ai_summary : string;
  ai_decision : string;
  created_timestamp : Z }.
End PendingPost.

(** A row of [accounts], keyed by [username]. *)
Module AccountRow.
Record t := mk { last_tweet_id : string; last_updated : Z }.
End AccountRow.

(** A row of [errors]. *)
Module ErrorRow.
Record t := mk {
  error_type : string;
  error_message : string;
  username : option string;
  timestamp : Z }.
End ErrorRow.

(** A row of [pipeline_state], keyed by [key].  The [value] column holds
    [str(index)] and is read back with [int(...)]; the row keeps the
    integer itself. *)
Module StateRow.
Record t := mk { value : Z; updated_timestamp : Z }.
End StateRow.

(** ** [core/state_manager.py] *)

(** The database file: one field per table that the driver and the
    delivery script touch. *)
Module StateManager.

Record t := mk {
  accounts : gmap string AccountRow.t;
  errors : list ErrorRow.t;
  pending_posts : list PendingPost.t;
  pipeline_state : gmap string StateRow.t }.

(** [_init_database] on a file that does not exist yet *)
Definition _init_database : t :=
  {| accounts := ∅; errors := []; pending_posts := []; pipeline_state := ∅ |}.

Definition get_last_tweet_id (db : t) (username : string) : option string :=
  match accounts db !! username with
  | Some row => Some (AccountRow.last_tweet_id row)
  | None => None
  end.

(** [INSERT OR REPLACE INTO accounts] *)
Definition update_last_tweet_id (now : Z) (username tweet_id : string)
    (db : t) : t :=
  {| accounts := <[username := AccountRow.mk tweet_id now]> (accounts db);
     errors := errors db;
     pending_posts := pending_posts db;
     pipeline_state := pipeline_state db |}.

Definition log_error (now : Z) (error_type error_message : string)
    (username : option string) (db : t) : t :=
  {| accounts := accounts db;
     errors := errors db ++ [ErrorRow.mk error_type error_message username now];
     pending_posts := pending_posts db;
     pipeline_state := pipeline_state db |}.

(** [SELECT COUNT( * ) FROM pending_posts WHERE tweet_id = ?] *)
Definition count_pending (tweet_id : string) (db : t) : nat :=
  length (filter (λ r, PendingPost.tweet_id r = tweet_id) (pending_posts db)).

Definition is_tweet_already_saved (db : t) (tweet_id : string) : bool :=
  (0 <? count_pending tweet_id db)%nat.

Definition save_pending_post (now : Z) (tweet_data : TweetData.t)
    (analysis_result : Analysis.t) (db : t) : bool * t :=
  let tweet_id := TweetData.id tweet_data in
  if is_tweet_already_saved db tweet_id then (false, db)
  else
    (true,
     {| accounts := accounts db;
        errors := errors db;
        pending_posts :=
          pending_posts db ++
          [PendingPost.mk tweet_id
             (TweetData.text tweet_data)
             (TweetData.username tweet_data)
             (TweetData.created_at tweet_data)
             (default "" (Analysis.summary analysis_result))
             (Analysis.decision analysis_result)
             now];
        pipeline_state := pipeline_state db |}).

(** The first row of [ORDER BY created_timestamp DESC]: a row whose
    timestamp no other row exceeds.  SQL leaves the order among equal
    timestamps open; here the row inserted first stands first among
    them, and no statement below depends on that choice. *)
Fixpoint order_by_created_timestamp_desc_limit_1 (rows : list PendingPost.t)
    : option PendingPost.t :=
  match rows with
  | [] => None
  | r :: rest =>
      match order_by_created_timestamp_desc_limit_1 rest with
      | Some r' =>
          if (PendingPost.created_timestamp r <? PendingPost.created_timestamp r')%Z
          then Some r' else Some r
      | None => Some r
      end
  end.

Definition get_latest_pending_post (db : t) : option PendingPost.t :=
  order_by_created_timestamp_desc_limit_1 (pending_posts db).

(** [DELETE FROM pending_posts WHERE tweet_id = ?] *)
Definition delete_pending_post (tweet_id : string) (db : t) : t :=
  {| accounts := accounts db;
     errors := errors db;
     pending_posts := filter (λ r, PendingPost.tweet_id r ≠ tweet_id) (pending_posts db);
     pipeline_state := pipeline_state db |}.

Definition last_processed_account_index_key : string := "last_processed_account_index".

Definition get_last_processed_account_index (db : t) : Z :=
  match pipeline_state db !! last_processed_account_index_key with
  | Some row => StateRow.value row
  | None => 0%Z
  end.

(** [INSERT OR REPLACE INTO pipeline_state] *)
Definition set_last_processed_account_index (now : Z) (index : Z)
    (db : t) : t :=
  {| accounts := accounts db;
     errors := errors db;
     pending_posts := pending_posts db;
     pipeline_state :=
       <[last_processed_account_index_key := StateRow.mk index now]> (pipeline_state db) |}.

Definition reset_pipeline_state (db : t) : t :=
  {| accounts := accounts db;
     errors := errors db;
     pending_posts := pending_posts db;
     pipeline_state := delete last_processed_account_index_key (pipeline_state db) |}.

End StateManager.

(** ** [core/tweet_fetcher.py] *)

(** A tweet object of the API's JSON body; [referenced_tweets] holds
    [(type, id)] pairs when the key is present. *)
Module ApiTweet.
Record t := mk {
  id : string;
  created_at : string;
  text : string;
  referenced_tweets : option (list (string * string)) }.
End ApiTweet.

(** The GET request for [/users/{user_id}/tweets] with its [params]. *)
Module TweetsRequest.
Record t := mk {
  url : string;
  max_results : Z;
  tweet_fields : string;
  expansions : string;
  since_id : option string }.
End TweetsRequest.

(** The response: status, the two rate-limit headers, and the [data] and
    [includes.tweets] arrays of the body. *)
Module TweetsResponse.
Record t := mk {
  status : Z;
  x_rate_limit_reset : option string;
  retry_after : option string;
  data : list ApiTweet.t;
  includes_tweets : list ApiTweet.t }.
End TweetsResponse.

Module TweetFetcher.

Inductive Event :=
| Sleep (seconds : Z)
| Get (request : TweetsRequest.t)
| SetGlobalRateLimit (duration_seconds : Z).

Definition base_url : string := "https://api.twitter.com/2".

(** Python's truth value of an optional string *)
Definition truthy (s : option string) : bool :=
  match s with
  | Some (String _ _) => true
  | _ => false
  end.

(** [_parse_rate_limit_headers]; [current_time] is [int(time.time())].  A
    header that [int] rejects raises inside the [try], and the function
    then returns [None]. *)
Definition _parse_rate_limit_headers (current_time : Z) (response : TweetsResponse.t)
    : option Z :=
  if truthy (TweetsResponse.x_rate_limit_reset response) then
    match int (default ""%string (TweetsResponse.x_rate_limit_reset response)) with
    | Some reset_timestamp => Some (Z.max 0 (reset_timestamp - current_time))
    | None => None
    end
  else if truthy (TweetsResponse.retry_after response) then
    int (default ""%string (TweetsResponse.retry_after response))
  else None.

Section Collaborators.

(** What the outside world answers during one call: whether the global
    rate limit is still running, [int(time.time())], the result of
    [get_user_id] (itself a call to the API), and the API's response to
    the request for tweets ([None]: the request raised).  The pacing of
    [self.rate_limiter.wait_if_needed()] only delays the call. *)
Variable _check_global_rate_limit : bool.
Variable current_time : Z.
Variable get_user_id : string -> option string.
Variable session_get : TweetsRequest.t -> option TweetsResponse.t.

(** [original_tweet_lookup]: later entries replace earlier ones *)
Definition original_tweet_lookup (includes : list ApiTweet.t) : gmap string ApiTweet.t :=
  foldl (fun m tweet => <[ApiTweet.id tweet := tweet]> m) ∅ includes.

(** The inner [for ref in tweet["referenced_tweets"]] loop *)
Definition full_text_of (lookup : gmap string ApiTweet.t) (tweet : ApiTweet.t) : string :=
  match ApiTweet.referenced_tweets tweet with
  | None => ApiTweet.text tweet
  | Some refs =>
      foldl (fun full_text ref =>
               if String.eqb (fst ref) "retweeted" then
                 match lookup !! snd ref with
                 | Some original_tweet => ApiTweet.text original_tweet
                 | None => ApiTweet.text tweet
                 end
               else full_text)
            (ApiTweet.text tweet) refs
  end.

Definition get_user_tweets (username : string) (since_id : option string)
    (max_results : Z) : option (list TweetData.t) * list Event :=
  if _check_global_rate_limit then (None, [Sleep 1200])
  else
    match get_user_id username with
    | None | Some EmptyString => (None, [])
    | Some user_id =>
        let url := (base_url +:+ "/users/" +:+ user_id +:+ "/tweets")%string in
        (* Twitter API requires max_results to be between 5-100 *)
        let max_results :=
          if (max_results <? 5)%Z then 5%Z
          else if (max_results >? 100)%Z then 100%Z
          else max_results in
        let params :=
          TweetsRequest.mk url max_results
            "created_at,text,referenced_tweets" "referenced_tweets.id"
            (if truthy since_id then since_id else None) in
        match session_get params with
        | None => (None, [Get params])
        | Some response =>
            if (TweetsResponse.status response =? 429)%Z then
              match _parse_rate_limit_headers current_time response with
              | Some wait_time =>
                  if (wait_time =? 0)%Z
                  then (None, [Get params; SetGlobalRateLimit 900])
                  else (None, [Get params; SetGlobalRateLimit wait_time])
              | None => (None, [Get params; SetGlobalRateLimit 900])
              end
            else if negb (TweetsResponse.status response =? 200)%Z then
              (None, [Get params])
            else
              let lookup := original_tweet_lookup (TweetsResponse.includes_tweets response) in
              let enriched_tweets :=
                map (fun tweet =>
                       TweetData.mk (ApiTweet.id tweet) (full_text_of lookup tweet)
                         username (ApiTweet.created_at tweet))
                    (TweetsResponse.data response) in
              (Some enriched_tweets, [Get params])
        end
    end.

Definition fetch_new_tweets (username : string) (since_id : option string)
    (max_results : Z) : option (list Tweet.t) * list Event :=
  match get_user_tweets username since_id max_results with
  | (None, events) => (None, events)
  | (Some tweets, events) =>
      (Some (map (fun tweet =>
                    Tweet.mk (TweetData.id tweet) (TweetData.text tweet)
                      (TweetData.username tweet) (TweetData.created_at tweet) "")
                 tweets),
       events)
  end.

End Collaborators.

End TweetFetcher.

(** ** [core/pipeline.py] *)

(** The JSON object of the classifier's answer; [analyze_tweet] returns
    [None] unless it has a [decision]. *)
Module Answer.
Record t := mk {
  decision : string;
  reasoning : option string;
  summary : option string;
  created_at : option string }.
End Answer.

Module Pipeline.

(** The attributes of a [Pipeline] object that the driver reads. *)
Record t := mk {
  ENABLE_INTERNAL_CYCLING : bool;
  max_tweets_per_account : Z }.

(** The class attribute as written, and [MAX_TWEETS_PER_ACCOUNT]'s
    default. *)
Definition defaults : t :=
  {| ENABLE_INTERNAL_CYCLING := false; max_tweets_per_account := 10 |}.

(** What [self.tweet_fetcher.fetch_new_tweets] does on one call: [None]
    (rate limit), a list of tweets, or an exception. *)
Inductive FetchOutcome :=
| FetchNone
| FetchTweets (new_tweets : list Tweet.t)
| FetchRaises (e : string).

(** The driver's calls to the outside, in order. *)
Inductive Event :=
| Fetch (username : string) (since_id : option string) (max_results : Z)
| Analyze (tweet : Tweet.t)
| Sleep (seconds : Z).

(** The store, the number of questions put to the outside so far, and
    the calls made so far (oldest first). *)
Record World := mkWorld {
  state_manager : StateManager.t;
  clock : nat;
  trace : list Event }.

Inductive Result (A : Type) :=
| Ok (a : A)
| Raise (e : string).
Arguments Ok {A} a.
Arguments Raise {A} e.

(** A computation on the world that returns or raises. *)
Definition M (A : Type) : Type := World -> Result A * World.

Definition ret {A} (a : A) : M A := fun w => (Ok a, w).

Definition raise {A} (e : string) : M A := fun w => (Raise e, w).

Definition bind {A B} (m : M A) (k : A -> M B) : M B :=
  fun w =>
    match m w with
    | (Ok a, w') => k a w'
    | (Raise e, w') => (Raise e, w')
    end.

(** [try: m except Exception as e: handler(e)] *)
Definition try_except {A} (m : M A) (handler : string -> M A) : M A :=
  fun w =>
    match m w with
    | (Ok a, w') => (Ok a, w')
    | (Raise e, w') => handler e w'
    end.

Declare Scope pipeline_scope.
Delimit Scope pipeline_scope with pipeline.
Notation "x <- m ;; k" := (bind m (fun x => k))
  (at level 100, m at next level, right associativity) : pipeline_scope.
Notation "m >> k" := (bind m (fun _ => k))
  (at level 100, right associativity) : pipeline_scope.
Local Open Scope pipeline_scope.

(** [for x in xs: state = body(x, state)] *)
Fixpoint for_each {A S} (xs : list A) (body : A -> S -> M S) (state : S) : M S :=
  match xs with
  | [] => ret state
  | x :: xs' => state' <- body x state ;; for_each xs' body state'
  end.

(** [range(n)] *)
Definition range (n : nat) : list Z := map Z.of_nat (seq 0 n).

(** [xs[i]], negative indices counting from the end *)
Definition getitem {A} (xs : list A) (i : Z) : M A :=
  let j := if (i <? 0)%Z then (Z.of_nat (length xs) + i)%Z else i in
  if (j <? 0)%Z then raise "IndexError"
  else match xs !! Z.to_nat j with
       | Some x => ret x
       | None => raise "IndexError"
       end.

(** [a % b]; for [b <> 0] Python's remainder is [Z.modulo] *)
Definition py_mod (a b : Z) : M Z :=
  if (b =? 0)%Z then raise "ZeroDivisionError" else ret (a mod b)%Z.

Definition emit (ev : Event) : M unit :=
  fun w => (Ok tt, mkWorld (state_manager w) (clock w) (trace w ++ [ev])).

(** The number of the next question, counting it. *)
Definition tick : M nat :=
  fun w => (Ok (clock w), mkWorld (state_manager w) (S (clock w)) (trace w)).

Definition sleep (seconds : Z) : M unit := emit (Sleep seconds).

Definition read_store {A} (query : StateManager.t -> A) : M A :=
  fun w => (Ok (query (state_manager w)), w).

Definition decision_is_true (decision : string) : bool :=
  String.eqb (upper decision) "TRUE".

Definition non_empty {A} (xs : list A) : bool :=
  match xs with [] => false | _ :: _ => true end.

Section Collaborators.

(** The outside world; each answer may depend on the number of the
    question, so that the same call can be answered differently twice. *)
Variable get_monitored_accounts : nat -> Result (list string).
Variable tweet_fetcher : nat -> string -> option string -> Z -> FetchOutcome.
(** [PromptProcessor.analyze_tweet] up to the metadata it adds: the
    classifier's answer, or [None] on any failure. *)
Variable prompt_processor : nat -> Tweet.t -> option Answer.t.
Variable CURRENT_TIMESTAMP : nat -> Z.

(** A store operation that writes [CURRENT_TIMESTAMP] *)
Definition write_store {A} (update : Z -> StateManager.t -> A * StateManager.t) : M A :=
  k <- tick ;;
  fun w =>
    let '(a, db) := update (CURRENT_TIMESTAMP k) (state_manager w) in
    (Ok a, mkWorld db (clock w) (trace w)).

Definition set_last_processed_account_index (index : Z) : M unit :=
  write_store (fun now db => (tt, StateManager.set_last_processed_account_index now index db)).

Definition log_error (error_type error_message : string) (username : option string)
    : M unit :=
  write_store (fun now db => (tt, StateManager.log_error now error_type error_message username db)).

Definition update_last_tweet_id (username tweet_id : string) : M unit :=
  write_store (fun now db => (tt, StateManager.update_last_tweet_id now username tweet_id db)).

Definition save_pending_post (tweet_data : TweetData.t) (analysis_result : Analysis.t)
    : M bool :=
  write_store (fun now db => StateManager.save_pending_post now tweet_data analysis_result db).

(** [await self.tweet_fetcher.fetch_new_tweets(...)] *)
Definition fetch_new_tweets (username : string) (since_id : option string)
    (max_results : Z) : M (option (list Tweet.t)) :=
  k <- tick ;;
  emit (Fetch username since_id max_results) >>
  match tweet_fetcher k username since_id max_results with
  | FetchNone => ret None
  | FetchTweets new_tweets => ret (Some new_tweets)
  | FetchRaises e => raise e
  end.

(** [PromptProcessor.analyze_tweet]: the answer with the tweet's
    metadata added *)
Definition analyze_tweet (tweet_data : Tweet.t) : M (option Analysis.t) :=
  k <- tick ;;
  emit (Analyze tweet_data) >>
  match prompt_processor k tweet_data with
  | Some result =>
      ret (Some (Analysis.mk (Answer.decision result) (Answer.reasoning result)
                   (Answer.summary result) (Answer.created_at result)
                   (Tweet.id tweet_data) (Tweet.username tweet_data)
                   (Tweet.text tweet_data)))
  | None => ret None
  end.

(** [PromptProcessor.analyze_tweets_batch] *)
Definition analyze_tweets_batch (tweets : list Tweet.t) : M (list Analysis.t) :=
  for_each tweets
    (fun tweet results =>
       try_except
         (result <- analyze_tweet tweet ;;
          match result with
          | Some result => ret (results ++ [result])
          | None => ret results
          end)
         (fun _ => ret results))
    [].

Definition _load_monitored_accounts : M (list string) :=
  try_except
    (k <- tick ;;
     match get_monitored_accounts k with
     | Ok accounts => ret accounts
     | Raise e => raise e
     end)
    (fun e => log_error "sheets_error" e None >> ret []).

Definition _process_tweets (tweets : list Tweet.t) : M (list Analysis.t) :=
  try_except
    (results <- analyze_tweets_batch tweets ;;
     (* Filter for positive decisions (TRUE responses) *)
     let positive_results :=
       List.filter (fun result => decision_is_true (Analysis.decision result)) results in
     ret positive_results)
    (fun e => log_error "processing_error" e None >> ret []).

Definition _save_processed_content (tweets : list Tweet.t) : M unit :=
  try_except
    (analysis_results <- _process_tweets tweets ;;
     if negb (non_empty analysis_results) then ret tt
     else
       saved_count <-
         for_each analysis_results
           (fun result saved_count =>
              if decision_is_true (Analysis.decision result) then
                let tweet_data :=
                  TweetData.mk (Analysis.tweet_id result) (Analysis.tweet_text result)
                    (Analysis.username result)
                    (default "Unknown"%string (Analysis.created_at result)) in
                saved <- save_pending_post tweet_data result ;;
                if (saved : bool) then ret (saved_count + 1)%Z else ret saved_count
              else ret saved_count)
           0%Z ;;
       ret tt)
    (fun e => log_error "save_content_error" e None).

(** The body of [for i in range(len(accounts))] in [_fetch_new_tweets]
    (lines 144-215); the loop carries [all_tweets] and [any_processed].
    Both [continue] statements end the iteration, and the [for] goes on
    with the next [i]. *)
Definition fetch_account (self : t) (accounts : list string) (start_index : Z)
    (i : Z) (locals : list Tweet.t * bool) : M (list Tweet.t * bool) :=
  let '(all_tweets, any_processed) := locals in
  current_index <- py_mod (start_index + i) (Z.of_nat (length accounts)) ;;
  username_raw <- getitem accounts current_index ;;
  let username := parse_username username_raw in
  try_except
    (last_tweet_id <- read_store (fun db => StateManager.get_last_tweet_id db username) ;;
     new_tweets <- fetch_new_tweets username last_tweet_id (max_tweets_per_account self) ;;
     match new_tweets with
     | None =>
         (* Rate limit hit *)
         (if non_empty all_tweets then _save_processed_content all_tweets else ret tt) >>
         sleep 1200 >>
         ret (all_tweets, any_processed)
     | Some new_tweets =>
         let all_tweets :=
           if non_empty new_tweets then all_tweets ++ new_tweets else all_tweets in
         set_last_processed_account_index current_index >>
         (if ENABLE_INTERNAL_CYCLING self && (i <? Z.of_nat (length accounts) - 1)%Z
          then sleep 900 else ret tt) >>
         ret (all_tweets, true)
     end)
    (fun e =>
       log_error "tweet_fetch_error" e (Some username) >>
       set_last_processed_account_index current_index >>
       ret (all_tweets, any_processed)).

(** The block after the loop (lines 221-228) *)
Definition reset_for_cycling (self : t) (accounts : list string)
    (locals : list Tweet.t * bool) : M unit :=
  let '(all_tweets, any_processed) := locals in
  if ENABLE_INTERNAL_CYCLING self
     && ((Z.of_nat (length all_tweets) >? 0)%Z || any_processed)
  then
    last_processed <- read_store StateManager.get_last_processed_account_index ;;
    if (last_processed >=? Z.of_nat (length accounts) - 1)%Z
    then set_last_processed_account_index (-1)
    else ret tt
  else ret tt.

(** [start_index] of lines 136-137 *)
Definition select_start_index (accounts : list string) : M Z :=
  last_processed_index <- read_store StateManager.get_last_processed_account_index ;;
  py_mod (last_processed_index + 1) (Z.of_nat (length accounts)).

Definition _fetch_new_tweets (self : t) (accounts : list string) : M (list Tweet.t) :=
  start_index <- select_start_index accounts ;;
  (* the log line evaluates accounts[start_index] *)
  _ <- getitem accounts start_index ;;
  locals <- for_each (range (length accounts))
              (fetch_account self accounts start_index) ([], false) ;;
  reset_for_cycling self accounts locals >>
  ret (fst locals).

(** [tweets_by_username], in order of first appearance *)
Fixpoint append_to_group (username : string) (tweet : Tweet.t)
    (groups : list (string * list Tweet.t)) : list (string * list Tweet.t) :=
  match groups with
  | [] => [(username, [tweet])]
  | (u, user_tweets) :: rest =>
      if String.eqb u username then (u, user_tweets ++ [tweet]) :: rest
      else (u, user_tweets) :: append_to_group username tweet rest
  end.

Definition group_by_username (tweets : list Tweet.t) : list (string * list Tweet.t) :=
  foldl (fun groups tweet => append_to_group (Tweet.username tweet) tweet groups) [] tweets.

(** [max(user_tweets, key=lambda t: int(t['id']))]: the first tweet
    with the largest key; a key that [int] rejects raises. *)
Fixpoint max_from (best : Tweet.t) (best_key : Z) (rest : list Tweet.t) : M Tweet.t :=
  match rest with
  | [] => ret best
  | tweet :: rest' =>
      match int (Tweet.id tweet) with
      | None => raise "ValueError"
      | Some key =>
          if (best_key <? key)%Z then max_from tweet key rest'
          else max_from best best_key rest'
      end
  end.

Definition max_by_id (user_tweets : list Tweet.t) : M Tweet.t :=
  match user_tweets with
  | [] => raise "ValueError"
  | tweet :: rest =>
      match int (Tweet.id tweet) with
      | None => raise "ValueError"
      | Some key => max_from tweet key rest
      end
  end.

Definition _update_state (tweets : list Tweet.t) : M unit :=
  try_except
    (let tweets_by_username := group_by_username tweets in
     for_each tweets_by_username
       (fun group _ =>
          latest_tweet <- max_by_id (snd group) ;;
          update_last_tweet_id (fst group) (Tweet.id latest_tweet))
       tt)
    (fun e => log_error "state_update_error" e None).

Definition run (self : t) : M unit :=
  try_except
    (accounts <- _load_monitored_accounts ;;
     if negb (non_empty accounts) then ret tt
     else
       all_new_tweets <- _fetch_new_tweets self accounts ;;
       if negb (non_empty all_new_tweets) then ret tt
       else
         analysis_results <- _process_tweets all_new_tweets ;;
         if negb (non_empty analysis_results) then ret tt
         else
           _save_processed_content all_new_tweets >>
           _update_state all_new_tweets)
    (fun e => log_error "pipeline_error" e None >> raise e).

End Collaborators.

End Pipeline.

(** ** [post_latest_tweet_to_discord.py] *)

Module PostLatest.

(** What the script does to the outside, in order: its log lines, the
    call of the notifier, and the store's [DELETE]. *)
Inductive Event :=
| LogInfo (message : string)
| LogError (message : string)
| SendAlert (tweet_data : TweetData.t) (summary : string)
| DeletePendingPost (tweet_id : string).

Section Collaborators.

(** [DiscordNotifier.send_alert], which returns [True] once the webhook
    accepted the message and [False] after its last failed attempt. *)
Variable send_alert : TweetData.t -> string -> bool.

(** [tweet_data] of lines 78-83 *)
Definition tweet_data_of (latest_post : PendingPost.t) : TweetData.t :=
  TweetData.mk (PendingPost.tweet_id latest_post)
    (PendingPost.tweet_text latest_post)
    (PendingPost.username latest_post)
    (PendingPost.created_at latest_post).

(** The store is the database file as it stands ([_init_database] only
    creates tables that are missing).  Returns the script's result, the
    store it leaves and what it did. *)
Definition post_latest_pending (state_manager : StateManager.t)
    : bool * StateManager.t * list Event :=
  let started := [LogInfo "Starting standalone posting script"] in
  match StateManager.get_latest_pending_post state_manager with
  | None =>
      (true, state_manager,
       started ++ [LogInfo "No pending posts found in database"])
  | Some latest_post =>
      let found :=
        LogInfo ("Found pending post: " +:+ PendingPost.tweet_id latest_post
                 +:+ " from @" +:+ PendingPost.username latest_post) in
      let tweet_data := tweet_data_of latest_post in
      let summary := PendingPost.ai_summary latest_post in
      let sent :=
        started ++ [found; LogInfo "Sending post to Discord...";
                    SendAlert tweet_data summary] in
      if send_alert tweet_data summary then
        (true,
         StateManager.delete_pending_post (PendingPost.tweet_id latest_post) state_manager,
         sent ++ [DeletePendingPost (PendingPost.tweet_id latest_post);
                  LogInfo ("Successfully posted and removed tweet "
                           +:+ PendingPost.tweet_id latest_post +:+ " from database")])
      else
        (false, state_manager,
         sent ++ [LogError ("Failed to post tweet "
                            +:+ PendingPost.tweet_id latest_post +:+ " to Discord")])
  end.

End Collaborators.

End PostLatest.


(** ** [utils/helpers.py]: [format_discord_message] *)

(** ["\n"] *)
Definition newline : string := String (ascii_of_nat 10) EmptyString.

(** [created_at and created_at.lower() not in ['unknown', 'none', '']] *)
Definition shows_posted (created_at : string) : bool :=
  match created_at with
  | EmptyString => false
  | _ =>
      negb (String.eqb (lower created_at) "unknown"
            || String.eqb (lower created_at) "none"
            || String.eqb (lower created_at) "")
  end.

(** [format_discord_message] for a [tweet_data] that has its four keys, as
    both callers build it.  Characters outside ASCII are held as their
    UTF-8 bytes, as in the source file; [len] and the slice [[:200]] count
    characters, so that the model is exact for ASCII tweet text. *)
Definition format_discord_message (tweet_data : TweetData.t) (summary : string) : string :=
  let username := TweetData.username tweet_data in
  let tweet_id := TweetData.id tweet_data in
  let tweet_text := TweetData.text tweet_data in
  let created_at := TweetData.created_at tweet_data in
  (* Create tweet URL *)
  let tweet_url := ("https://twitter.com/" +:+ username +:+ "/status/" +:+ tweet_id)%string in
  (* Format message *)
  let message :=
    ("ðŸš¨ **New Alert from @" +:+ username +:+ "**" +:+ newline +:+ newline)%string in
  let message :=
    (message +:+
     ("**Tweet:** " +:+ String.substring 0 200 tweet_text
      +:+ (if (200 <? String.length tweet_text)%nat then "..." else "")
      +:+ newline +:+ newline))%string in
  let message :=
    (message +:+ ("**AI Summary:** " +:+ summary +:+ newline +:+ newline))%string in
  let message := (message +:+ ("**Link:** " +:+ tweet_url +:+ newline))%string in
  (* Only show Posted field if it has a valid value *)
  if shows_posted created_at then (message +:+ ("**Posted:** " +:+ created_at))%string
  else message.

(** ** [core/discord_notifier.py] *)

Module DiscordNotifier.

Record t := mk {
  webhook_url : string;
  max_retries : Z;
  (** seconds; the source holds a float that is only handed to [sleep] *)
  retry_delay : Z }.

(** [DiscordNotifier(webhook_url)] *)
Definition __init__ (webhook_url : string) : t := mk webhook_url 3 1200.

(** What a call does to the outside: the POSTs to the webhook with their
    [content], and the sleeps. *)
Inductive Event :=
| Post (webhook_url : string) (content : string)
| Sleep (seconds : Z).

Section Collaborators.

(** The webhook's answer to the POST of attempt [attempt]: the status
    of the response, [None] when the request raised. *)
Variable session_post : Z -> string -> string -> option Z.

(** [_send_message]: [True] exactly on status 204; an exception is
    caught and gives [False]. *)
Definition _send_message (self : t) (attempt : Z) (message : string) : bool :=
  match session_post attempt (webhook_url self) message with
  | Some status => (status =? 204)%Z
  | None => false
  end.

(** The [for attempt in range(self.max_retries)] loop of [send_alert],
    over the attempts still to make. *)
Fixpoint send_attempts (self : t) (message : string) (attempts : list Z)
    : bool * list Event :=
  match attempts with
  | [] => (false, [])
  | attempt :: attempts' =>
      let post := Post (webhook_url self) message in
      if _send_message self attempt message then (true, [post])
      else
        (* Wait before retry (except on last attempt) *)
        let wait :=
          if (attempt <? max_retries self - 1)%Z then [Sleep (retry_delay self)] else [] in
        let '(success, events) := send_attempts self message attempts' in
        (success, post :: wait ++ events)
  end.

Definition send_alert (self : t) (tweet_data : TweetData.t) (summary : string)
    : bool * list Event :=
  let message := format_discord_message tweet_data summary in
  send_attempts self message (Pipeline.range (Z.to_nat (max_retries self))).

End Collaborators.

End DiscordNotifier.

(** ** [post_latest_tweet_to_discord.py]: the script as a whole *)

Module PostLatestScript.

Section Collaborators.

(** The webhook, and what [Config()] and [StateManager(config.db_path)]
    give: the webhook URL of the environment, or the exception they
    raise (a required variable that is not set, ...). *)
Variable session_post : Z -> string -> string -> option Z.
Variable config : Pipeline.Result string.

(** [post_latest_pending] with the notifier it builds; the [except]
    branch is the one a failing set-up takes. *)
Definition post_latest_pending (state_manager : StateManager.t)
    : bool * StateManager.t * list PostLatest.Event :=
  match config with
  | Pipeline.Raise e =>
      (false, state_manager,
       [PostLatest.LogInfo "Starting standalone posting script";
        PostLatest.LogError ("Error in posting script: " +:+ e)])
  | Pipeline.Ok discord_webhook_url =>
      let discord_notifier := DiscordNotifier.__init__ discord_webhook_url in
      PostLatest.post_latest_pending
        (fun tweet_data summary =>
           fst (DiscordNotifier.send_alert session_post discord_notifier tweet_data summary))
        state_manager
  end.

(** [main]: the exit code of the process, the store it leaves and what
    the script logged and did. *)
Definition main (state_manager : StateManager.t)
    : Z * StateManager.t * list PostLatest.Event :=
  let '(success, state_manager', events) := post_latest_pending state_manager in
  ((if success : bool then 0 else 1)%Z, state_manager', events).

End Collaborators.

End PostLatestScript.

(** ** [core/sheets_manager.py] *)

Module SheetsManager.

(** The body of [for value in all_values[1:]], on the list built so far *)
Definition add_account (accounts : list string) (value : string) : list string :=
  match value, strip value with
  | String _ _, String _ _ =>
      let clean_username := parse_username (strip value) in
      match clean_username with
      | String _ _ => accounts ++ [clean_username]
      | EmptyString => accounts
      end
  | _, _ => accounts
  end.

(** [get_monitored_accounts].  [column] is what the sheet gives: the
    exception raised on the way to the first worksheet or by
    [col_values(1)], no worksheet ([None]), or the values of column A. *)
Definition get_monitored_accounts (column : Pipeline.Result (option (list string)))
    : Pipeline.Result (list string) :=
  match column with
  | Pipeline.Raise e => Pipeline.Raise e
  | Pipeline.Ok None => Pipeline.Raise "No worksheets found in the Google Sheet"
  | Pipeline.Ok (Some all_values) =>
      (* Filter out empty values and header row *)
      Pipeline.Ok (foldl add_account [] (drop 1 all_values))
  end.

End SheetsManager.

(** ** [core/tweet_fetcher.py]: user ids and the global rate limit *)

(** The response to [GET /users/by/username/{username}]: status, the two
    rate-limit headers, and [data.get('data', {}).get('id')]. *)
Module UserResponse.
Record t := mk {
  status : Z;
  x_rate_limit_reset : option string;
  retry_after : option string;
  id : option string }.
End UserResponse.

Module TweetFetcherState.

Inductive Event :=
| Sleep (seconds : Z)
| Get (url : string)
| SetGlobalRateLimit (duration_seconds : Z).

Section Clock.

(** The readings of [time.time()], with their order and the addition of
    a number of seconds. *)
Variable Time : Type.
Variable time_lt : Time -> Time -> bool.
Variable time_add : Time -> Z -> Time.

(** The two attributes of the fetcher that change *)
Record t := mk {
  _user_id_cache : gmap string string;
  _rate_limit_until : Time }.

(** [_check_global_rate_limit], at clock reading [current_time] *)
Definition _check_global_rate_limit (current_time : Time) (self : t) : bool :=
  time_lt current_time (_rate_limit_until self).

(** [_set_global_rate_limit], at clock reading [now] *)
Definition _set_global_rate_limit (now : Time) (duration_seconds : Z) (self : t) : t :=
  mk (_user_id_cache self) (time_add now duration_seconds).

(** What the outside answers during one call of [get_user_id]: the
    clock when the rate limit is checked, [int(time.time())] when the
    headers are parsed, the clock when the rate limit is set, and the
    API's response ([None]: the request raised). *)
Variable time_checked : Time.
Variable current_time : Z.
Variable time_set : Time.
Variable session_get : string -> option UserResponse.t.

Definition get_user_id (self : t) (username : string) : option string * t * list Event :=
  (* Check cache first *)
  match _user_id_cache self !! username with
  | Some user_id => (Some user_id, self, [])
  | None =>
      (* Check global rate limit *)
      if _check_global_rate_limit time_checked self then (None, self, [Sleep 1200])
      else
        let url := (TweetFetcher.base_url +:+ "/users/by/username/" +:+ username)%string in
        match session_get url with
        | None => (None, self, [Get url])
        | Some response =>
            if (UserResponse.status response =? 200)%Z then
              let user_id := UserResponse.id response in
              if TweetFetcher.truthy user_id then
                (* Cache the user ID *)
                (user_id,
                 mk (<[username := default ""%string user_id]> (_user_id_cache self))
                    (_rate_limit_until self),
                 [Get url])
              else (user_id, self, [Get url])
            else if (UserResponse.status response =? 404)%Z then (None, self, [Get url])
            else if (UserResponse.status response =? 429)%Z then
              let headers :=
                TweetsResponse.mk (UserResponse.status response)
                  (UserResponse.x_rate_limit_reset response)
                  (UserResponse.retry_after response) [] [] in
              let duration_seconds :=
                match TweetFetcher._parse_rate_limit_headers current_time headers with
                | Some wait_time => if (wait_time =? 0)%Z then 900%Z else wait_time
                | None => 900%Z
                end in
              (None, _set_global_rate_limit time_set duration_seconds self,
               [Get url; SetGlobalRateLimit duration_seconds])
            else (None, self, [Get url])
        end
  end.

End Clock.

Arguments mk {Time} _ _.
Arguments _user_id_cache {Time} _.
Arguments _rate_limit_until {Time} _.
Arguments _check_global_rate_limit {Time} _ _ _.
Arguments _set_global_rate_limit {Time} _ _ _ _.
Arguments get_user_id {Time} _ _ _ _ _ _ _ _.

End TweetFetcherState.

(** ** [main.py]: [run_pipeline] *)

Module Main.

Import Pipeline.
Local Open Scope pipeline_scope.

Section Collaborators.

(** The collaborators of the driver, and the answer of
    [pipeline.tweet_fetcher._check_global_rate_limit()] to question
    [k]. *)
Variable get_monitored_accounts : nat -> Result (list string).
Variable tweet_fetcher : nat -> string -> option string -> Z -> FetchOutcome.
Variable prompt_processor : nat -> Tweet.t -> option Answer.t.
Variable CURRENT_TIMESTAMP : nat -> Z.
Variable _check_global_rate_limit : nat -> bool.

(** The body of [while True] *)
Definition run_pipeline_round (pipeline : Pipeline.t) : M unit :=
  try_except
    (k <- tick ;;
     (* Check if we're under a global rate limit *)
     if _check_global_rate_limit k then sleep 1200 (* continue *)
     else
       (* Then: Run the pipeline (scraping) *)
       run get_monitored_accounts tweet_fetcher prompt_processor CURRENT_TIMESTAMP pipeline >>
       (* Wait 20 minutes before next pipeline run *)
       sleep 1200)
    (fun e => sleep 1200).

(** The first [rounds] rounds of the loop, which has no exit *)
Fixpoint run_pipeline (rounds : nat) (pipeline : Pipeline.t) : M unit :=
  match rounds with
  | O => ret tt
  | S rounds' => run_pipeline_round pipeline >> run_pipeline rounds' pipeline
  end.

End Collaborators.

End Main.
(** ** Concrete inputs used by the examples below *)

(** Two accepted tweets, saved one after the other into a new store. *)
Definition first_saved : TweetData.t := TweetData.mk "1001" "first" "alice" "2025-01-01T10:00:00Z".
Definition second_saved : TweetData.t := TweetData.mk "1002" "second" "bob" "2025-01-01T11:00:00Z".
Definition accepted (tweet_data : TweetData.t) : Analysis.t :=
  Analysis.mk "TRUE" None None None (TweetData.id tweet_data)
    (TweetData.username tweet_data) (TweetData.text tweet_data).
Definition two_pending : StateManager.t :=
  (StateManager.save_pending_post 200 second_saved (accepted second_saved)
     (StateManager.save_pending_post 100 first_saved (accepted first_saved)
        StateManager._init_database).2).2.


(** ** Observations on a run of the driver *)

(** The accounts the driver asked the fetcher for, in order. *)
Definition fetched_usernames (trace : list Pipeline.Event) : list string :=
  omap (λ ev, match ev with Pipeline.Fetch username _ _ => Some username | _ => None end)
       trace.
Arguments fetched_usernames : simpl never.

(** The resume index the store holds after a computation. *)
Definition resume_index (w : Pipeline.World) : Z :=
  StateManager.get_last_processed_account_index (Pipeline.state_manager w).

(** [post m w Q]: running [m] from [w] ends in a result and a world that
    satisfy [Q]. *)
Definition post {A} (m : Pipeline.M A) (w : Pipeline.World)
    (Q : Pipeline.Result A → Pipeline.World → Prop) : Prop :=
  Q (m w).1 (m w).2.

(** [returns m w Q]: running [m] from [w] returns, without raising, a
    value and a world that satisfy [Q]. *)
Definition returns {A} (m : Pipeline.M A) (w : Pipeline.World)
    (Q : A → Pipeline.World → Prop) : Prop :=
  post m w (λ r w', match r with Pipeline.Ok a => Q a w' | Pipeline.Raise _ => False end).

(** [quiet w w']: between [w] and [w'] the fetcher was not called and
    neither the resume index nor any account's cursor was written. *)
Definition quiet (w w' : Pipeline.World) : Prop :=
  fetched_usernames (Pipeline.trace w') = fetched_usernames (Pipeline.trace w) ∧
  StateManager.pipeline_state (Pipeline.state_manager w')
    = StateManager.pipeline_state (Pipeline.state_manager w) ∧
  StateManager.accounts (Pipeline.state_manager w')
    = StateManager.accounts (Pipeline.state_manager w).

(** ** Concrete worlds and collaborators *)

(** A store in which no resume index was ever written, and one that
    holds [-1]. *)
Definition never_set : Pipeline.World :=
  Pipeline.mkWorld StateManager._init_database 0 [].
Definition at_minus_one : Pipeline.World :=
  Pipeline.mkWorld
    (StateManager.set_last_processed_account_index 0 (-1) StateManager._init_database) 0 [].

Definition tweet_of (id username : string) : Tweet.t :=
  Tweet.mk id ("tweet " +:+ id) username "2025-01-01T10:00:00Z" "".

(** A fetcher that has two tweets for [a], is rate limited on [b] and
    has nothing new for anybody else. *)
Definition fetcher_b_rate_limited (k : nat) (username : string) (since_id : option string)
    (max_results : Z) : Pipeline.FetchOutcome :=
  if String.eqb username "a" then Pipeline.FetchTweets [tweet_of "11" "a"; tweet_of "12" "a"]
  else if String.eqb username "b" then Pipeline.FetchNone
  else Pipeline.FetchTweets [].

(** A fetcher that is rate limited on [a] and has one tweet for anybody
    else. *)
Definition fetcher_a_rate_limited (k : nat) (username : string) (since_id : option string)
    (max_results : Z) : Pipeline.FetchOutcome :=
  if String.eqb username "a" then Pipeline.FetchNone
  else Pipeline.FetchTweets [tweet_of "21" username].

(** A fetcher that never fails and never has anything new. *)
Definition fetcher_no_news (k : nat) (username : string) (since_id : option string)
    (max_results : Z) : Pipeline.FetchOutcome :=
  Pipeline.FetchTweets [].

(** A classifier that answers every tweet with the same decision. *)
Definition classifier_says (decision : string) (k : nat) (tweet : Tweet.t)
    : option Answer.t :=
  Some (Answer.mk decision None None None).

(** A clock that advances by a second per question. *)
Definition one_second_per_question (k : nat) : Z := Z.of_nat k.

Definition sheet (accounts : list string) (k : nat) : Pipeline.Result (list string) :=
  Pipeline.Ok accounts.

(** The driver with cycling switched on. *)
Definition cycling : Pipeline.t :=
  {| Pipeline.ENABLE_INTERNAL_CYCLING := true; Pipeline.max_tweets_per_account := 10 |}.

Definition abc : list string := ["a"; "b"; "c"]%string.
Definition ab : list string := ["a"; "b"]%string.

(** ** A concrete API *)

(** An API in which every handle has the user id [42] and every request
    is answered with status 200 and no tweets. *)
Definition user_42 (username : string) : option string := Some "42"%string.
Definition empty_timeline (request : TweetsRequest.t) : option TweetsResponse.t :=
  Some (TweetsResponse.mk 200 None None [] []).

(** ** What a computation keeps *)

(** [keeps R m]: whatever [m] returns or raises, the world it leaves is
    related by [R] to the world it started from. *)
Definition keeps {A} (R : Pipeline.World → Pipeline.World → Prop) (m : Pipeline.M A) : Prop :=
  ∀ w, R w (m w).2.

(** The tweet ids of the pending queue. *)
Definition pending_ids (db : StateManager.t) : list string :=
  PendingPost.tweet_id <$> StateManager.pending_posts db.

(** [grows w w']: from [w] to [w'] the pending queue, the error table and
    the trace were only appended to, and pending tweet ids that were
    distinct still are. *)
Definition grows (w w' : Pipeline.World) : Prop :=
  StateManager.pending_posts (Pipeline.state_manager w)
    `prefix_of` StateManager.pending_posts (Pipeline.state_manager w') ∧
  StateManager.errors (Pipeline.state_manager w)
    `prefix_of` StateManager.errors (Pipeline.state_manager w') ∧
  Pipeline.trace w `prefix_of` Pipeline.trace w' ∧
  (NoDup (pending_ids (Pipeline.state_manager w)) →
   NoDup (pending_ids (Pipeline.state_manager w'))).

(** [same_cursors w w']: no account's cursor differs between [w] and
    [w']. *)
Definition same_cursors (w w' : Pipeline.World) : Prop :=
  StateManager.accounts (Pipeline.state_manager w')
  = StateManager.accounts (Pipeline.state_manager w).

(** ** More concrete inputs *)

Definition third_saved : TweetData.t :=
  TweetData.mk "1003" "third" "carol" "2025-01-01T12:00:00Z".

(** A store with one cursor. *)
Definition one_cursor : StateManager.t :=
  StateManager.update_last_tweet_id 50 "alice" "900" StateManager._init_database.

(** A store with the first tweet pending. *)
Definition one_pending : StateManager.t :=
  (StateManager.save_pending_post 100 first_saved (accepted first_saved)
     StateManager._init_database).2.

(** A sheet that cannot be read. *)
Definition sheet_unreachable (k : nat) : Pipeline.Result (list string) :=
  Pipeline.Raise "APIError".

(** Three fetched tweets of two accounts, and a list with an id that is
    no number. *)
Definition three_tweets : list Tweet.t :=
  [tweet_of "11" "a"; tweet_of "21" "b"; tweet_of "12" "a"].
Definition bad_id_tweets : list Tweet.t :=
  [tweet_of "11" "a"; tweet_of "x1" "b"].

(** A fetcher whose every call raises. *)
Definition fetcher_down (k : nat) (username : string) (since_id : option string)
    (max_results : Z) : Pipeline.FetchOutcome :=
  Pipeline.FetchRaises "ConnectionError".

(** The calls of the fetcher in a trace, with their arguments. *)
Definition fetch_calls (trace : list Pipeline.Event) : list (string * option string * Z) :=
  omap (λ ev, match ev with
              | Pipeline.Fetch username since_id max_results =>
                  Some (username, since_id, max_results)
              | _ => None
              end)
       trace.
Arguments fetch_calls : simpl never.


(** A 429 response whose reset header lies 700 seconds after time 1000
    and whose [retry-after] says 30. *)
Definition too_many_requests : TweetsResponse.t :=
  TweetsResponse.mk 429 (Some "1700"%string) (Some "30"%string) [] [].

(** A timeline with a retweet of tweet 9 and a tweet of the user's own;
    the original of the retweet is included. *)
Definition timeline : TweetsResponse.t :=
  TweetsResponse.mk 200 None None
    [ApiTweet.mk "12" "2024-01-02" "RT @o: cut sh" (Some [("retweeted", "9")]%string);
     ApiTweet.mk "11" "2024-01-01" "own words" None]
    [ApiTweet.mk "9" "2023-12-31" "cut short no more" None].

(** Whether every character of a string satisfies [p]. *)
Fixpoint string_forall (p : ascii → bool) (s : string) : bool :=
  match s with
  | EmptyString => true
  | String c s' => p c && string_forall p s'
  end.




(** What [m] attempts to post leave behind when they are separated by
    waits: a post, then a pause and a post for every further attempt. *)
Fixpoint attempts_trace (post pause : DiscordNotifier.Event) (m : nat)
    : list DiscordNotifier.Event :=
  match m with
  | O => []
  | S m' =>
      post :: match m' with
              | O => []
              | S _ => pause :: attempts_trace post pause m'
              end
  end.

(** A fetcher that has looked up nobody and is under no rate limit, with
    the clock in whole seconds, and an API that answers every lookup
    with 429 and no rate-limit header. *)
Definition fresh_fetcher : TweetFetcherState.t Z := TweetFetcherState.mk ∅ 0%Z.
Definition lookup_limited (url : string) : option UserResponse.t :=
  Some (UserResponse.mk 429 None None None).

(** The sleeps in a trace of the driver, with their seconds. *)
Definition sleeps (trace : list Pipeline.Event) : list Z :=
  omap (λ ev, match ev with Pipeline.Sleep seconds => Some seconds | _ => None end) trace.
(* ================================================================== *)
(** * Part II — properties                                             *)
(* ================================================================== *)


(** ** The pending queue *)

Section PendingQueue.

Implicit Types (db : StateManager.t) (r : PendingPost.t) (rows : list PendingPost.t).

Lemma is_tweet_already_saved_false db tweet_id :
  StateManager.is_tweet_already_saved db tweet_id = false ↔
  StateManager.count_pending tweet_id db = 0.
Proof.
  unfold StateManager.is_tweet_already_saved.
  rewrite Nat.ltb_ge. lia.
Qed.

Lemma is_tweet_already_saved_true db tweet_id :
  StateManager.is_tweet_already_saved db tweet_id = true ↔
  ∃ r, r ∈ StateManager.pending_posts db ∧ PendingPost.tweet_id r = tweet_id.
Proof.
  unfold StateManager.is_tweet_already_saved, StateManager.count_pending.
  rewrite Nat.ltb_lt. split.
  - intros Hlen.
    destruct (filter _ (StateManager.pending_posts db)) as [|r l] eqn:Hf;
      [simpl in Hlen; lia|].
    assert (Hin : r ∈ filter (λ r, PendingPost.tweet_id r = tweet_id)
                        (StateManager.pending_posts db))
      by (rewrite Hf; left).
    apply list_elem_of_filter in Hin. exists r. tauto.
  - intros (r & Hin & Hid).
    assert (Hin' : r ∈ filter (λ r, PendingPost.tweet_id r = tweet_id)
                         (StateManager.pending_posts db))
      by (apply list_elem_of_filter; tauto).
    destruct (filter _ (StateManager.pending_posts db)); [inversion Hin'|simpl; lia].
Qed.

(** A saved tweet id is not saved again, whatever comes with it. *)
Lemma save_pending_post_again db now tweet_data analysis_result :
  StateManager.is_tweet_already_saved db (TweetData.id tweet_data) = true →
  StateManager.save_pending_post now tweet_data analysis_result db = (false, db).
Proof. intros H. unfold StateManager.save_pending_post. now rewrite H. Qed.

Lemma count_pending_after_save db now tweet_data analysis_result :
  StateManager.is_tweet_already_saved db (TweetData.id tweet_data) = false →
  StateManager.count_pending (TweetData.id tweet_data)
    (StateManager.save_pending_post now tweet_data analysis_result db).2 = 1.
Proof.
  intros H. unfold StateManager.save_pending_post. rewrite H. simpl.
  apply is_tweet_already_saved_false in H.
  unfold StateManager.count_pending in *. simpl.
  rewrite filter_app, length_app, H. simpl.
  rewrite filter_cons_True by reflexivity. reflexivity.
Qed.

(** The first row in descending timestamp order is a row of the table
    that no row exceeds, and there is one unless the table is empty. *)
Lemma order_by_desc_limit_1_spec rows :
  match StateManager.order_by_created_timestamp_desc_limit_1 rows with
  | None => rows = []
  | Some r =>
      r ∈ rows ∧
      ∀ r', r' ∈ rows →
            (PendingPost.created_timestamp r' ≤ PendingPost.created_timestamp r)%Z
  end.
Proof.
  induction rows as [|r0 rows IH]; simpl; [reflexivity|].
  destruct (StateManager.order_by_created_timestamp_desc_limit_1 rows) as [r1|].
  - destruct IH as [Hin Hmax].
    destruct (Z.ltb_spec (PendingPost.created_timestamp r0)
                         (PendingPost.created_timestamp r1)) as [Hlt|Hge].
    + split; [now right|].
      intros r' Hr'. apply elem_of_cons in Hr' as [->|Hr']; [lia|now apply Hmax].
    + split; [now left|].
      intros r' Hr'. apply elem_of_cons in Hr' as [->|Hr']; [lia|].
      specialize (Hmax r' Hr'). lia.
  - subst rows. split; [now left|].
    intros r' Hr'. apply elem_of_cons in Hr' as [->|Hr']; [lia|inversion Hr'].
Qed.

(** Saving keeps the tweet ids of the queue distinct, so a store that
    only [save_pending_post] has filled holds no id twice. *)
Lemma save_pending_post_keeps_ids_distinct db now tweet_data analysis_result :
  NoDup (PendingPost.tweet_id <$> StateManager.pending_posts db) →
  NoDup (PendingPost.tweet_id <$>
           StateManager.pending_posts
             (StateManager.save_pending_post now tweet_data analysis_result db).2).
Proof.
  intros Hdistinct. unfold StateManager.save_pending_post.
  destruct (StateManager.is_tweet_already_saved db (TweetData.id tweet_data)) eqn:Hsaved;
    [exact Hdistinct|].
  simpl. rewrite fmap_app. apply NoDup_app. split; [exact Hdistinct|].
  split; [|apply NoDup_singleton].
  intros tweet_id Hin Hnew. apply list_elem_of_singleton in Hnew as ->.
  apply list_elem_of_fmap in Hin as (r & Hid & Hr).
  assert (Htrue : StateManager.is_tweet_already_saved db (TweetData.id tweet_data) = true)
    by (apply is_tweet_already_saved_true; eauto).
  congruence.
Qed.

Lemma delete_pending_post_removes db tweet_id r :
  r ∈ StateManager.pending_posts (StateManager.delete_pending_post tweet_id db) ↔
  r ∈ StateManager.pending_posts db ∧ PendingPost.tweet_id r ≠ tweet_id.
Proof.
  unfold StateManager.delete_pending_post. simpl.
  rewrite list_elem_of_filter. tauto.
Qed.

End PendingQueue.

(** C6.  Saving a tweet id that is not in [pending_posts] returns [True];
    saving the same id again (with any content, at any time) returns
    [False] and leaves the store as it was, with exactly one row of that
    id. *)
Theorem save_pending_post_idempotent
    (db : StateManager.t) (now now' : Z) (tweet_data tweet_data' : TweetData.t)
    (analysis_result analysis_result' : Analysis.t) :
  TweetData.id tweet_data' = TweetData.id tweet_data →
  StateManager.is_tweet_already_saved db (TweetData.id tweet_data) = false →
  let first := StateManager.save_pending_post now tweet_data analysis_result db in
  let second := StateManager.save_pending_post now' tweet_data' analysis_result' first.2 in
  first.1 = true ∧ second.1 = false ∧ second.2 = first.2 ∧
  StateManager.count_pending (TweetData.id tweet_data) second.2 = 1.
Proof.
  intros Hid Hnew first second.
  assert (Hcount : StateManager.count_pending (TweetData.id tweet_data) first.2 = 1)
    by now apply count_pending_after_save.
  assert (Hsaved : StateManager.is_tweet_already_saved first.2 (TweetData.id tweet_data') = true).
  { rewrite Hid. unfold StateManager.is_tweet_already_saved. rewrite Hcount. reflexivity. }
  assert (Hsecond : second = (false, first.2))
    by now apply save_pending_post_again.
  rewrite Hsecond. simpl. repeat split; try assumption.
  subst first. unfold StateManager.save_pending_post. now rewrite Hnew.
Qed.

Lemma save_pending_post_idempotent_witness :
  let first :=
    StateManager.save_pending_post 100 first_saved (accepted first_saved)
      StateManager._init_database in
  let second :=
    StateManager.save_pending_post 200 first_saved (accepted first_saved) first.2 in
  first.1 = true ∧ second.1 = false ∧ second.2 = first.2 ∧
  StateManager.count_pending "1001" second.2 = 1.
Proof.
  apply (save_pending_post_idempotent StateManager._init_database 100 200
           first_saved first_saved (accepted first_saved) (accepted first_saved));
    reflexivity.
Defined.

(** C2, as stated, fails: with two pending rows saved at times 100 and
    200, [get_latest_pending_post] returns the one saved at 200, and the
    script sends that one, while the row saved first stays in the queue. *)
Lemma get_latest_pending_post_is_not_oldest :
  (∃ older newer,
      StateManager.pending_posts two_pending = [older; newer] ∧
      PendingPost.tweet_id older = "1001"%string ∧
      PendingPost.tweet_id newer = "1002"%string ∧
      (PendingPost.created_timestamp older < PendingPost.created_timestamp newer)%Z ∧
      StateManager.get_latest_pending_post two_pending = Some newer) ∧
  PostLatest.SendAlert second_saved "" ∈
    (PostLatest.post_latest_pending (λ _ _, true) two_pending).2 ∧
  PendingPost.tweet_id <$>
    StateManager.pending_posts (PostLatest.post_latest_pending (λ _ _, true) two_pending).1.2
  = ["1001"%string].
Proof.
  split; [|split].
  - eexists _, _. repeat split; reflexivity.
  - vm_compute. do 3 right. left.
  - reflexivity.
Qed.

(** ** The delivery script *)

Section DeliverySweep.

Variable send_alert : TweetData.t → string → bool.
Implicit Types (db : StateManager.t) (r : PendingPost.t).

Lemma count_pending_after_delete db tweet_id :
  StateManager.count_pending tweet_id (StateManager.delete_pending_post tweet_id db) = 0.
Proof.
  unfold StateManager.count_pending, StateManager.delete_pending_post. simpl.
  induction (StateManager.pending_posts db) as [|r rows IH]; [reflexivity|].
  destruct (decide (PendingPost.tweet_id r = tweet_id)) as [Heq|Hne].
  - rewrite (filter_cons_False (λ r, PendingPost.tweet_id r ≠ tweet_id)) by tauto.
    exact IH.
  - rewrite (filter_cons_True (λ r, PendingPost.tweet_id r ≠ tweet_id)) by assumption.
    rewrite filter_cons_False by assumption. exact IH.
Qed.

Lemma get_latest_pending_post_None db :
  StateManager.get_latest_pending_post db = None ↔ StateManager.pending_posts db = [].
Proof.
  unfold StateManager.get_latest_pending_post. split.
  - intros H. pose proof (order_by_desc_limit_1_spec (StateManager.pending_posts db)) as S.
    now rewrite H in S.
  - now intros ->.
Qed.

(** The three ways the script can end. *)
Lemma post_latest_pending_empty db :
  StateManager.pending_posts db = [] →
  PostLatest.post_latest_pending send_alert db =
    (true, db, [PostLatest.LogInfo "Starting standalone posting script";
                PostLatest.LogInfo "No pending posts found in database"]).
Proof.
  intros H. apply get_latest_pending_post_None in H.
  unfold PostLatest.post_latest_pending. now rewrite H.
Qed.

Lemma post_latest_pending_events db latest_post :
  StateManager.get_latest_pending_post db = Some latest_post →
  ∃ after,
    (PostLatest.post_latest_pending send_alert db).2 =
      [PostLatest.LogInfo "Starting standalone posting script";
       PostLatest.LogInfo ("Found pending post: " +:+ PendingPost.tweet_id latest_post
                           +:+ " from @" +:+ PendingPost.username latest_post);
       PostLatest.LogInfo "Sending post to Discord..."]
      ++ PostLatest.SendAlert (PostLatest.tweet_data_of latest_post)
           (PendingPost.ai_summary latest_post) :: after ∧
    (∀ tweet_data summary, PostLatest.SendAlert tweet_data summary ∉ after) ∧
    (∀ tweet_id, PostLatest.DeletePendingPost tweet_id ∈ after →
       tweet_id = PendingPost.tweet_id latest_post ∧
       send_alert (PostLatest.tweet_data_of latest_post)
         (PendingPost.ai_summary latest_post) = true).
Proof.
  intros H. unfold PostLatest.post_latest_pending. rewrite H.
  destruct (send_alert _ _) eqn:Hsend; simpl; eexists; (split; [reflexivity|]); split.
  - intros td s Hin. repeat (apply elem_of_cons in Hin as [Hin|Hin]; [discriminate|]).
    inversion Hin.
  - intros id Hin. apply elem_of_cons in Hin as [Hin|Hin]; [now inversion Hin|].
    apply elem_of_cons in Hin as [Hin|Hin]; [discriminate|inversion Hin].
  - intros td s Hin. repeat (apply elem_of_cons in Hin as [Hin|Hin]; [discriminate|]).
    inversion Hin.
  - intros id Hin. apply elem_of_cons in Hin as [Hin|Hin]; [discriminate|inversion Hin].
Qed.

End DeliverySweep.

(** C2, amended.  [get_latest_pending_post] returns a pending row with
    the latest [created_timestamp] (the newest, not the oldest), or
    nothing when the queue is empty; the script sends exactly that row to
    the notifier, once, and a [DELETE] follows only that call, only for
    that row's tweet id and only when the notifier returned [True]. *)
Theorem post_latest_pending_takes_newest
    (send_alert : TweetData.t → string → bool) (db : StateManager.t) :
  match StateManager.get_latest_pending_post db with
  | None => StateManager.pending_posts db = []
  | Some latest_post =>
      latest_post ∈ StateManager.pending_posts db ∧
      (∀ r, r ∈ StateManager.pending_posts db →
            (PendingPost.created_timestamp r ≤ PendingPost.created_timestamp latest_post)%Z) ∧
      ∃ before after,
        (PostLatest.post_latest_pending send_alert db).2 =
          before ++ PostLatest.SendAlert (PostLatest.tweet_data_of latest_post)
                      (PendingPost.ai_summary latest_post) :: after ∧
        (∀ tweet_id, PostLatest.DeletePendingPost tweet_id ∉ before) ∧
        (∀ tweet_data summary, PostLatest.SendAlert tweet_data summary ∉ before ++ after) ∧
        (∀ tweet_id, PostLatest.DeletePendingPost tweet_id ∈ after →
           tweet_id = PendingPost.tweet_id latest_post ∧
           send_alert (PostLatest.tweet_data_of latest_post)
             (PendingPost.ai_summary latest_post) = true)
  end.
Proof.
  pose proof (order_by_desc_limit_1_spec (StateManager.pending_posts db)) as Hspec.
  destruct (StateManager.get_latest_pending_post db) as [latest_post|] eqn:Hlatest;
    unfold StateManager.get_latest_pending_post in Hlatest; rewrite Hlatest in Hspec;
    [|exact Hspec].
  destruct Hspec as [Hin Hmax]. split; [exact Hin|]. split; [exact Hmax|].
  destruct (post_latest_pending_events send_alert db latest_post Hlatest)
    as (after & Hevents & Hsingle & Hdelete).
  eexists _, after. split; [exact Hevents|]. split; [|split; [|exact Hdelete]].
  - intros id Hin'. repeat (apply elem_of_cons in Hin' as [Hin'|Hin']; [discriminate|]).
    inversion Hin'.
  - intros td s Hin'. apply elem_of_app in Hin' as [Hin'|Hin']; [|now apply (Hsingle td s)].
    repeat (apply elem_of_cons in Hin' as [Hin'|Hin']; [discriminate|]).
    inversion Hin'.
Qed.

(** C8.  On an empty queue the script reports that there is nothing to
    post, leaves the store as it is and does not call the notifier.  When
    the notifier fails the store is left as it is.  When it succeeds the
    row's tweet id is deleted, after the call: no row of that id remains,
    the other rows stay, and the next [get_latest_pending_post] returns
    another tweet. *)
Theorem post_latest_pending_removes_only_after_success
    (send_alert : TweetData.t → string → bool) (db : StateManager.t) :
  let outcome := PostLatest.post_latest_pending send_alert db in
  (StateManager.pending_posts db = [] →
     outcome = (true, db, [PostLatest.LogInfo "Starting standalone posting script";
                           PostLatest.LogInfo "No pending posts found in database"])) ∧
  (∀ latest_post,
     StateManager.get_latest_pending_post db = Some latest_post →
     let delivered :=
       send_alert (PostLatest.tweet_data_of latest_post) (PendingPost.ai_summary latest_post) in
     let tweet_id := PendingPost.tweet_id latest_post in
     (delivered = false →
        outcome.1.1 = false ∧ outcome.1.2 = db ∧
        ∀ id, PostLatest.DeletePendingPost id ∉ outcome.2) ∧
     (delivered = true →
        outcome.1.1 = true ∧
        outcome.1.2 = StateManager.delete_pending_post tweet_id db ∧
        StateManager.count_pending tweet_id outcome.1.2 = 0 ∧
        (∀ r, r ∈ StateManager.pending_posts outcome.1.2 ↔
              r ∈ StateManager.pending_posts db ∧ PendingPost.tweet_id r ≠ tweet_id) ∧
        (∀ r, StateManager.get_latest_pending_post outcome.1.2 = Some r →
              PendingPost.tweet_id r ≠ tweet_id) ∧
        ∃ before after,
          outcome.2 = before ++ PostLatest.SendAlert (PostLatest.tweet_data_of latest_post)
                                  (PendingPost.ai_summary latest_post)
                                :: PostLatest.DeletePendingPost tweet_id :: after ∧
          ∀ id, PostLatest.DeletePendingPost id ∉ before ++ after)).
Proof.
  intros outcome. split; [apply post_latest_pending_empty|].
  intros latest_post Hlatest delivered tweet_id. subst outcome.
  unfold PostLatest.post_latest_pending. rewrite Hlatest. fold delivered. fold tweet_id.
  split; intros Hd; rewrite Hd; simpl.
  - repeat split.
    intros id Hin. repeat (apply elem_of_cons in Hin as [Hin|Hin]; [discriminate|]).
    inversion Hin.
  - split; [reflexivity|]. split; [reflexivity|].
    split; [apply count_pending_after_delete|].
    split; [intros r; apply delete_pending_post_removes|].
    split.
    + intros r Hr.
      pose proof (order_by_desc_limit_1_spec
                    (StateManager.pending_posts (StateManager.delete_pending_post tweet_id db)))
        as Hspec.
      unfold StateManager.get_latest_pending_post in Hr. rewrite Hr in Hspec.
      destruct Hspec as [Hin _]. now apply delete_pending_post_removes in Hin.
    + eexists [_; _; _], [_]. split; [reflexivity|].
      intros id Hin. repeat (apply elem_of_cons in Hin as [Hin|Hin]; [discriminate|]).
      inversion Hin.
Qed.

(** The script on the queue of two: a failed delivery keeps both rows, a
    successful one removes the row that was sent, and on an empty queue
    nothing is sent. *)
Example post_latest_pending_on_two :
  (PostLatest.post_latest_pending (λ _ _, false) two_pending).1 = (false, two_pending) ∧
  (PostLatest.post_latest_pending (λ _ _, true) two_pending).1
    = (true, StateManager.delete_pending_post "1002" two_pending) ∧
  PostLatest.post_latest_pending (λ _ _, true) StateManager._init_database
    = (true, StateManager._init_database,
       [PostLatest.LogInfo "Starting standalone posting script";
        PostLatest.LogInfo "No pending posts found in database"]).
Proof. repeat split. Qed.

(** ** Reasoning about the driver's computations *)

Section Computations.

Import Pipeline.
Local Open Scope pipeline_scope.

Lemma post_ret {A} (a : A) w (Q : Result A → World → Prop) :
  Q (Ok a) w → post (ret a) w Q.
Proof. exact id. Qed.

Lemma post_raise {A} e w (Q : Result A → World → Prop) :
  Q (Raise e) w → post (raise e) w Q.
Proof. exact id. Qed.

Lemma post_bind {A B} (m : M A) (k : A → M B) w (Q : Result B → World → Prop) :
  post m w (λ r w', match r with
                    | Ok a => post (k a) w' Q
                    | Raise e => Q (Raise e) w'
                    end) →
  post (bind m k) w Q.
Proof.
  unfold post, bind. destruct (m w) as [[a|e] w']; simpl; exact id.
Qed.

Lemma post_try_except {A} (m : M A) (handler : string → M A) w
    (Q : Result A → World → Prop) :
  post m w (λ r w', match r with
                    | Ok a => Q (Ok a) w'
                    | Raise e => post (handler e) w' Q
                    end) →
  post (try_except m handler) w Q.
Proof.
  unfold post, try_except. destruct (m w) as [[a|e] w']; simpl; exact id.
Qed.

Lemma post_mono {A} (m : M A) w (Q Q' : Result A → World → Prop) :
  post m w Q → (∀ r w', Q r w' → Q' r w') → post m w Q'.
Proof. unfold post. intros H HQ. now apply HQ. Qed.

Lemma returns_ret {A} (a : A) w (Q : A → World → Prop) :
  Q a w → returns (ret a) w Q.
Proof. exact id. Qed.

Lemma returns_bind {A B} (m : M A) (k : A → M B) w (Q : B → World → Prop) :
  returns m w (λ a w', returns (k a) w' Q) → returns (bind m k) w Q.
Proof.
  unfold returns, post, bind. destruct (m w) as [[a|e] w']; simpl; exact id.
Qed.

Lemma returns_mono {A} (m : M A) w (Q Q' : A → World → Prop) :
  returns m w Q → (∀ a w', Q a w' → Q' a w') → returns m w Q'.
Proof.
  unfold returns, post. intros H HQ.
  destruct (m w) as [[a|e] w']; simpl in *; [now apply HQ|exact H].
Qed.

(** A [try] whose handler returns, returns. *)
Lemma returns_try_except {A} (m : M A) (handler : string → M A) w
    (Q : A → World → Prop) :
  post m w (λ r w', match r with
                    | Ok a => Q a w'
                    | Raise e => returns (handler e) w' Q
                    end) →
  returns (try_except m handler) w Q.
Proof.
  unfold returns, post, try_except. destruct (m w) as [[a|e] w']; simpl; exact id.
Qed.

(** A [try] whose body returns, returns what the body returns. *)
Lemma returns_try {A} (m : M A) (handler : string → M A) w (Q : A → World → Prop) :
  returns m w Q → returns (try_except m handler) w Q.
Proof.
  unfold returns, post, try_except.
  destruct (m w) as [[a|e] w']; simpl; [exact id|contradiction].
Qed.

Lemma returns_post {A} (m : M A) w (Q : A → World → Prop) :
  returns m w Q →
  post m w (λ r w', match r with Ok a => Q a w' | Raise e => False end).
Proof. exact id. Qed.

Lemma returns_eq {A} (m : M A) w (Q : A → World → Prop) :
  returns m w Q → ∃ a w', m w = (Ok a, w') ∧ Q a w'.
Proof.
  unfold returns, post. destruct (m w) as [[a|e] w']; simpl; [eauto|contradiction].
Qed.

(** A loop whose body keeps an invariant of the items done so far. *)
Lemma returns_for_each {A S} (body : A → S → M S)
    (I : list A → S → World → Prop) (xs : list A) :
  (∀ done x state w, done ++ [x] `prefix_of` xs → I done state w →
     returns (body x state) w (I (done ++ [x]))) →
  ∀ state w, I [] state w → returns (for_each xs body state) w (I xs).
Proof.
  intros Hbody.
  assert (Hgen : ∀ todo done state w, done ++ todo = xs → I done state w →
                   returns (for_each todo body state) w (I xs)).
  { induction todo as [|x todo IH]; intros done state w Hxs HI.
    - rewrite app_nil_r in Hxs. subst done. exact HI.
    - simpl. apply returns_bind.
      eapply returns_mono.
      + apply (Hbody done x state w); [|exact HI].
        exists todo. now rewrite <- app_assoc.
      + intros state' w' HI'. apply (IH (done ++ [x])); [|exact HI'].
        now rewrite <- app_assoc. }
  intros state w HI. now apply (Hgen xs [] state w).
Qed.

End Computations.

(** ** The driver's helpers neither fetch nor move the resume index *)

Section Helpers.

Import Pipeline.
Local Open Scope pipeline_scope.

Variable get_monitored_accounts : nat → Result (list string).
Variable tweet_fetcher : nat → string → option string → Z → FetchOutcome.
Variable prompt_processor : nat → Tweet.t → option Answer.t.
Variable CURRENT_TIMESTAMP : nat → Z.

Lemma quiet_refl w : quiet w w.
Proof. now repeat split. Qed.

Lemma quiet_trans w1 w2 w3 : quiet w1 w2 → quiet w2 w3 → quiet w1 w3.
Proof.
  intros (H1 & H2 & H3) (H4 & H5 & H6). repeat split; congruence.
Qed.

Lemma fetched_usernames_app trace1 trace2 :
  fetched_usernames (trace1 ++ trace2) =
  fetched_usernames trace1 ++ fetched_usernames trace2.
Proof. unfold fetched_usernames. apply omap_app. Qed.

Lemma log_error_quiet error_type error_message username w :
  returns (log_error CURRENT_TIMESTAMP error_type error_message username) w
    (λ _ w', quiet w w').
Proof. unfold returns, post. simpl. now repeat split. Qed.

Lemma save_pending_post_quiet tweet_data analysis_result w :
  returns (save_pending_post CURRENT_TIMESTAMP tweet_data analysis_result) w
    (λ _ w', quiet w w').
Proof.
  unfold returns, post, save_pending_post, write_store, bind, tick. simpl.
  unfold StateManager.save_pending_post.
  destruct (StateManager.is_tweet_already_saved _ _); simpl; now repeat split.
Qed.

Lemma analyze_tweet_quiet tweet w :
  returns (analyze_tweet prompt_processor tweet) w (λ _ w', quiet w w').
Proof.
  unfold returns, post, analyze_tweet, bind, tick, emit. simpl.
  destruct (prompt_processor _ _); simpl;
    (split; [|now split]); simpl; rewrite fetched_usernames_app; apply app_nil_r.
Qed.

Lemma analyze_tweets_batch_quiet tweets w :
  returns (analyze_tweets_batch prompt_processor tweets) w (λ _ w', quiet w w').
Proof.
  unfold analyze_tweets_batch.
  apply (returns_for_each _ (λ _ _ w', quiet w w')); [|apply quiet_refl].
  intros done tweet results w1 _ Hquiet.
  apply returns_try, returns_bind.
  eapply returns_mono; [apply analyze_tweet_quiet|].
  intros [result|] w2 Hquiet2; apply returns_ret; now apply (quiet_trans _ w1).
Qed.

(** [_process_tweets] returns, and returns the analysed tweets whose
    decision passes the test. *)
Lemma _process_tweets_quiet tweets w :
  returns (_process_tweets prompt_processor CURRENT_TIMESTAMP tweets) w
    (λ positive_results w',
       quiet w w' ∧
       ∃ results,
         (analyze_tweets_batch prompt_processor tweets w).1 = Ok results ∧
         positive_results =
           List.filter (λ result, decision_is_true (Analysis.decision result)) results).
Proof.
  unfold _process_tweets.
  apply returns_try, returns_bind.
  destruct (returns_eq _ _ _ (analyze_tweets_batch_quiet tweets w))
    as (results & w' & Heq & Hquiet).
  unfold returns, post. rewrite Heq. simpl. eauto.
Qed.

Lemma _save_processed_content_quiet tweets w :
  returns (_save_processed_content prompt_processor CURRENT_TIMESTAMP tweets) w
    (λ _ w', quiet w w').
Proof.
  unfold _save_processed_content.
  apply returns_try, returns_bind.
  eapply returns_mono; [apply _process_tweets_quiet|].
  intros analysis_results w1 [Hquiet1 _].
  destruct (negb (non_empty analysis_results)); [now apply returns_ret|].
  apply returns_bind.
  eapply returns_mono.
  - apply (returns_for_each _ (λ _ _ w', quiet w w')); [|exact Hquiet1].
    intros done result saved_count w2 _ Hquiet2.
    destruct (decision_is_true _); [|now apply returns_ret].
    apply returns_bind.
    eapply returns_mono; [apply save_pending_post_quiet|].
    intros saved w3 Hquiet3.
    destruct saved; apply returns_ret; now apply (quiet_trans _ w2).
  - intros saved_count w2 Hquiet2. now apply returns_ret.
Qed.

End Helpers.

(** ** One account of the pass *)

Section FetchLoop.

Import Pipeline.
Local Open Scope pipeline_scope.

Variable tweet_fetcher : nat → string → option string → Z → FetchOutcome.
Variable prompt_processor : nat → Tweet.t → option Answer.t.
Variable CURRENT_TIMESTAMP : nat → Z.

Local Abbreviation fetch_account := (fetch_account tweet_fetcher prompt_processor CURRENT_TIMESTAMP).
Local Abbreviation _save_processed_content :=
  (_save_processed_content prompt_processor CURRENT_TIMESTAMP).

Lemma bind_eq {A B} (m : M A) (k : A → M B) w a w' :
  m w = (Ok a, w') → bind m k w = k a w'.
Proof. intros H. unfold bind. now rewrite H. Qed.

Lemma py_mod_eq a b w : b ≠ 0%Z → py_mod a b w = (Ok (a mod b)%Z, w).
Proof.
  intros Hb. unfold py_mod. destruct (Z.eqb_spec b 0); [contradiction|reflexivity].
Qed.

Lemma getitem_eq {A} (xs : list A) i x w :
  (0 ≤ i)%Z → xs !! Z.to_nat i = Some x → getitem xs i w = (Ok x, w).
Proof.
  intros Hi Hx. unfold getitem.
  assert (Hlt : (i <? 0)%Z = false) by lia.
  cbv zeta. rewrite Hlt, Hlt, Hx. reflexivity.
Qed.

Lemma bind_raise {A B} (m : M A) (k : A → M B) w e w' :
  m w = (Raise e, w') → bind m k w = (Raise e, w').
Proof. intros H. unfold bind. now rewrite H. Qed.

Lemma try_except_ok {A} (m : M A) (handler : string → M A) w a w' :
  m w = (Ok a, w') → try_except m handler w = (Ok a, w').
Proof. intros H. unfold try_except. now rewrite H. Qed.

Lemma try_except_raise {A} (m : M A) (handler : string → M A) w e w' :
  m w = (Raise e, w') → try_except m handler w = handler e w'.
Proof. intros H. unfold try_except. now rewrite H. Qed.

Lemma fetch_new_tweets_eq username since_id max_results w :
  fetch_new_tweets tweet_fetcher username since_id max_results w =
  let w1 := mkWorld (state_manager w) (S (clock w))
              (trace w ++ [Fetch username since_id max_results]) in
  match tweet_fetcher (clock w) username since_id max_results with
  | FetchNone => (Ok None, w1)
  | FetchTweets new_tweets => (Ok (Some new_tweets), w1)
  | FetchRaises e => (Raise e, w1)
  end.
Proof.
  unfold fetch_new_tweets, bind, tick, emit. simpl.
  now destruct (tweet_fetcher _ _ _ _).
Qed.

Lemma resume_index_set now index db clock trace :
  resume_index (mkWorld (StateManager.set_last_processed_account_index now index db)
                  clock trace) = index.
Proof.
  unfold resume_index, StateManager.get_last_processed_account_index. simpl.
  now rewrite lookup_insert_eq.
Qed.

Lemma quiet_resume_index w w' : quiet w w' → resume_index w' = resume_index w.
Proof.
  intros (_ & H & _). unfold resume_index, StateManager.get_last_processed_account_index.
  now rewrite H.
Qed.

(** The account at position [i] of a pass that started at
    [start_index]. *)
Lemma account_in_range (accounts : list string) (start_index i : Z) :
  accounts ≠ [] →
  let n := Z.of_nat (length accounts) in
  (0 ≤ (start_index + i) mod n < n)%Z ∧
  ∃ username_raw, accounts !! Z.to_nat ((start_index + i) mod n) = Some username_raw.
Proof.
  intros Hne n.
  assert (Hn : (0 < n)%Z) by (subst n; destruct accounts; [done|simpl; lia]).
  pose proof (Z.mod_pos_bound (start_index + i) n Hn) as Hb.
  split; [exact Hb|].
  apply lookup_lt_is_Some. subst n. lia.
Qed.

(** What one iteration does, by the fetcher's answer: it always asks
    the fetcher for the account, it always returns, and it writes the
    account's index unless the answer was [None]. *)
Lemma fetch_account_spec self (accounts : list string) start_index i all_tweets
    any_processed w username_raw :
  let n := Z.of_nat (length accounts) in
  let current_index := ((start_index + i) mod n)%Z in
  let username := parse_username username_raw in
  accounts ≠ [] →
  accounts !! Z.to_nat current_index = Some username_raw →
  returns (fetch_account self accounts start_index i (all_tweets, any_processed)) w
    (λ locals w',
       fetched_usernames (trace w') = fetched_usernames (trace w) ++ [username] ∧
       StateManager.accounts (state_manager w') = StateManager.accounts (state_manager w) ∧
       match tweet_fetcher (clock w) username
               (StateManager.get_last_tweet_id (state_manager w) username)
               (max_tweets_per_account self) with
       | FetchNone =>
           resume_index w' = resume_index w ∧ locals = (all_tweets, any_processed)
       | FetchTweets new_tweets =>
           resume_index w' = current_index ∧ locals = (all_tweets ++ new_tweets, true)
       | FetchRaises _ =>
           resume_index w' = current_index ∧ locals = (all_tweets, any_processed)
       end).
Proof.
  intros n current_index username Hne Hraw.
  destruct (account_in_range accounts start_index i Hne) as [Hrange _].
  fold n in Hrange. fold current_index in Hrange.
  assert (Hn : n ≠ 0%Z) by lia.
  remember (tweet_fetcher (clock w) username
              (StateManager.get_last_tweet_id (state_manager w) username)
              (max_tweets_per_account self)) as outcome eqn:Houtcome.
  unfold returns, post.
  destruct (fetch_account self accounts start_index i (all_tweets, any_processed) w)
    as [r w'] eqn:Hrun.
  cbn [fst snd].
  unfold Pipeline.fetch_account in Hrun.
  rewrite (bind_eq _ _ _ _ _ (py_mod_eq (start_index + i) n w Hn)) in Hrun.
  fold current_index in Hrun.
  rewrite (bind_eq _ _ _ _ _ (getitem_eq accounts current_index username_raw w
                                (proj1 Hrange) Hraw)) in Hrun.
  fold username in Hrun.
  pose proof (fetch_new_tweets_eq username
                (StateManager.get_last_tweet_id (state_manager w) username)
                (max_tweets_per_account self) w) as Hfetch.
  rewrite <- Houtcome in Hfetch. cbv zeta in Hfetch.
  set (w1 := mkWorld _ _ _) in Hfetch.
  assert (Hw1 : fetched_usernames (trace w1) = fetched_usernames (trace w) ++ [username]
                ∧ StateManager.accounts (state_manager w1)
                  = StateManager.accounts (state_manager w)
                ∧ resume_index w1 = resume_index w).
  { subst w1. cbn [trace state_manager]. rewrite fetched_usernames_app.
    now repeat split. }
  destruct Hw1 as (Hf & Ha & Hr).
  destruct outcome as [|new_tweets|e].
  - (* rate limit *)
    assert (Hrest : ∃ w2, quiet w1 w2 ∧
              ((if non_empty all_tweets then _save_processed_content all_tweets
                else ret ()) w1) = (Ok (), w2)).
    { destruct (non_empty all_tweets).
      - destruct (returns_eq _ _ _ (_save_processed_content_quiet prompt_processor
                                       CURRENT_TIMESTAMP all_tweets w1))
          as ([] & w2 & Heq & Hquiet).
        now exists w2.
      - exists w1. split; [apply quiet_refl|reflexivity]. }
    destruct Hrest as (w2 & Hquiet & Heq).
    erewrite try_except_ok in Hrun; cycle 1.
    { unfold read_store. erewrite bind_eq by reflexivity.
      erewrite bind_eq by exact Hfetch. cbv beta iota.
      erewrite bind_eq by exact Heq.
      reflexivity. }
    injection Hrun as <- <-. cbn [trace state_manager].
    rewrite fetched_usernames_app.
    change (fetched_usernames [Sleep 1200]) with (@nil string). rewrite app_nil_r.
    destruct Hquiet as (Hf2 & Hp2 & Ha2).
    split; [congruence|]. split; [congruence|]. split; [|reflexivity].
    rewrite <- Hr. unfold resume_index, StateManager.get_last_processed_account_index.
    cbn [state_manager]. now rewrite Hp2.
  - (* tweets, or none *)
    assert (Hall : (if non_empty new_tweets then all_tweets ++ new_tweets else all_tweets)
                   = all_tweets ++ new_tweets)
      by (destruct new_tweets; simpl; [now rewrite app_nil_r|reflexivity]).
    destruct (ENABLE_INTERNAL_CYCLING self && (i <? Z.of_nat (length accounts) - 1)%Z);
      (erewrite try_except_ok in Hrun; cycle 1;
       [ unfold read_store; erewrite bind_eq by reflexivity;
         erewrite bind_eq by exact Hfetch; cbv beta iota;
         rewrite Hall; reflexivity | ]);
      injection Hrun as <- <-; cbn [trace state_manager clock fst snd];
      rewrite ?fetched_usernames_app;
      change (fetched_usernames [Sleep 900]) with (@nil string); rewrite ?app_nil_r;
      (split; [first [exact Hf|reflexivity]|]); (split; [first [exact Ha|reflexivity]|]);
      (split; [apply resume_index_set|reflexivity]).
  - (* the fetcher raised *)
    erewrite try_except_raise in Hrun; cycle 1.
    { unfold read_store. erewrite bind_eq by reflexivity.
      erewrite bind_raise by exact Hfetch. reflexivity. }
    injection Hrun as <- <-. cbn [trace state_manager clock fst snd].
    split; [first [exact Hf|reflexivity]|]. split; [first [exact Ha|reflexivity]|].
    split; [apply resume_index_set|reflexivity].
Qed.

End FetchLoop.

(** ** A whole pass *)

Section Pass.

Import Pipeline.
Local Open Scope pipeline_scope.

Variable tweet_fetcher : nat → string → option string → Z → FetchOutcome.
Variable prompt_processor : nat → Tweet.t → option Answer.t.
Variable CURRENT_TIMESTAMP : nat → Z.

Local Abbreviation fetch_account :=
  (fetch_account tweet_fetcher prompt_processor CURRENT_TIMESTAMP).
Local Abbreviation _fetch_new_tweets :=
  (_fetch_new_tweets tweet_fetcher prompt_processor CURRENT_TIMESTAMP).

Lemma range_lookup n k : k < n → range n !! k = Some (Z.of_nat k).
Proof.
  intros Hk. unfold range. change (map Z.of_nat (seq 0 n)) with (Z.of_nat <$> seq 0 n).
  rewrite list_lookup_fmap, lookup_seq_lt by exact Hk. reflexivity.
Qed.

Lemma length_range n : length (range n) = n.
Proof. unfold range. now rewrite length_map, length_seq. Qed.

(** The item that follows [done] in [range n] is [length done]. *)
Lemma range_next n (done : list Z) x :
  done ++ [x] `prefix_of` range n → x = Z.of_nat (length done) ∧ length done < n.
Proof.
  intros [rest Hrest].
  assert (Hlen : length done < n).
  { apply (f_equal length) in Hrest. rewrite length_range, !length_app in Hrest.
    simpl in Hrest. lia. }
  split; [|exact Hlen].
  pose proof (range_lookup n (length done) Hlen) as Hlookup.
  rewrite Hrest, <- app_assoc in Hlookup.
  rewrite lookup_app_r, Nat.sub_diag in Hlookup by lia.
  simpl in Hlookup. congruence.
Qed.

(** The [k]-th account of a pass that starts at [start_index]. *)
Lemma rotate_lookup (accounts : list string) (start_index : Z) k :
  (0 ≤ start_index)%Z → k < length accounts →
  rotate (Z.to_nat start_index) accounts !! k =
  accounts !! Z.to_nat ((start_index + Z.of_nat k) mod Z.of_nat (length accounts)).
Proof.
  intros Hstart Hk. rewrite lookup_rotate_r by exact Hk.
  unfold rotate_nat_add. now rewrite Z2Nat.id by exact Hstart.
Qed.

(** The loop asks the fetcher for every account, once, in list order
    from [start_index] on and around, whatever the fetcher answers. *)
Lemma for_each_account_fetches self (accounts : list string) start_index locals w :
  accounts ≠ [] → (0 ≤ start_index)%Z →
  returns (for_each (range (length accounts)) (fetch_account self accounts start_index)
             locals) w
    (λ _ w',
       fetched_usernames (trace w') =
       fetched_usernames (trace w)
       ++ (parse_username <$> rotate (Z.to_nat start_index) accounts)).
Proof.
  intros Hne Hstart.
  eapply returns_mono.
  - apply (returns_for_each _
             (λ done _ w',
                fetched_usernames (trace w') =
                fetched_usernames (trace w)
                ++ (parse_username <$>
                      take (length done) (rotate (Z.to_nat start_index) accounts)))).
    + intros done i [all_tweets any_processed] w1 Hprefix HI.
      apply range_next in Hprefix as [-> Hlen].
      destruct (account_in_range accounts start_index (Z.of_nat (length done)) Hne)
        as [_ [username_raw Hraw]].
      eapply returns_mono;
        [apply (fetch_account_spec _ _ _ _ _ _ _ _ _ _ username_raw Hne Hraw)|].
      intros locals' w2 (Hfetched & _). cbv beta.
      rewrite Hfetched, HI, length_app, Nat.add_1_r.
      rewrite (take_S_r _ _ username_raw)
        by (rewrite rotate_lookup by assumption; exact Hraw).
      now rewrite fmap_app, <- app_assoc.
    + simpl. now rewrite app_nil_r.
  - intros locals' w' HI. cbv beta in HI.
    rewrite length_range, take_ge in HI by (rewrite length_rotate; lia).
    exact HI.
Qed.

(** When no fetch is rate limited or raises, the loop leaves the index
    of the account it visited last. *)
Lemma for_each_account_all_succeed self (accounts : list string) start_index w :
  accounts ≠ [] →
  (∀ k username since_id max_results,
     ∃ new_tweets, tweet_fetcher k username since_id max_results = FetchTweets new_tweets) →
  returns (for_each (range (length accounts)) (fetch_account self accounts start_index)
             ([], false)) w
    (λ locals w',
       resume_index w' =
         ((start_index + (Z.of_nat (length accounts) - 1)) mod Z.of_nat (length accounts))%Z
       ∧ locals.2 = true).
Proof.
  intros Hne Hok.
  eapply returns_mono.
  - apply (returns_for_each _
             (λ done locals w',
                done ≠ [] →
                resume_index w' =
                  ((start_index + (Z.of_nat (length done) - 1))
                     mod Z.of_nat (length accounts))%Z
                ∧ locals.2 = true)); [|done].
    intros done i [all_tweets any_processed] w1 Hprefix _.
    apply range_next in Hprefix as [-> Hlen].
    destruct (account_in_range accounts start_index (Z.of_nat (length done)) Hne)
      as [_ [username_raw Hraw]].
    eapply returns_mono;
      [apply (fetch_account_spec _ _ _ _ _ _ _ _ _ _ username_raw Hne Hraw)|].
    intros locals' w2 (_ & _ & Houtcome) _. cbv beta in Houtcome.
    destruct (Hok (clock w1) (parse_username username_raw)
                (StateManager.get_last_tweet_id (state_manager w1)
                   (parse_username username_raw))
                (max_tweets_per_account self)) as [new_tweets Heq].
    rewrite Heq in Houtcome. destruct Houtcome as [-> ->].
    split; [|reflexivity].
    rewrite length_app. simpl. f_equal. lia.
  - intros locals w' HI. cbv beta in HI.
    rewrite length_range in HI. apply HI.
    destruct accounts; [done|discriminate].
Qed.

End Pass.

(** ** The resume index over a pass *)

Section ResumeIndex.

Import Pipeline.
Local Open Scope pipeline_scope.

Variable tweet_fetcher : nat → string → option string → Z → FetchOutcome.
Variable prompt_processor : nat → Tweet.t → option Answer.t.
Variable CURRENT_TIMESTAMP : nat → Z.

Local Abbreviation fetch_account :=
  (fetch_account tweet_fetcher prompt_processor CURRENT_TIMESTAMP).
Local Abbreviation _fetch_new_tweets :=
  (_fetch_new_tweets tweet_fetcher prompt_processor CURRENT_TIMESTAMP).
Local Abbreviation reset_for_cycling := (reset_for_cycling CURRENT_TIMESTAMP).

Lemma length_pos (accounts : list string) :
  accounts ≠ [] → (0 < Z.of_nat (length accounts))%Z.
Proof. destruct accounts; [done|simpl; lia]. Qed.

Lemma select_start_index_eq (accounts : list string) w :
  accounts ≠ [] →
  select_start_index accounts w =
    (Ok ((resume_index w + 1) mod Z.of_nat (length accounts))%Z, w).
Proof.
  intros Hne. apply length_pos in Hne. unfold select_start_index, read_store.
  erewrite bind_eq by reflexivity. apply py_mod_eq. lia.
Qed.

(** The block after the loop writes [-1] when the flag is on, an
    account was processed and the index has reached the last account;
    otherwise it does nothing. *)
Lemma reset_for_cycling_eq self (accounts : list string) all_tweets any_processed w :
  reset_for_cycling self accounts (all_tweets, any_processed) w =
  if ENABLE_INTERNAL_CYCLING self
     && (non_empty all_tweets || any_processed)
     && (Z.of_nat (length accounts) - 1 <=? resume_index w)%Z
  then (Ok (),
        mkWorld (StateManager.set_last_processed_account_index
                   (CURRENT_TIMESTAMP (clock w)) (-1) (state_manager w))
          (S (clock w)) (trace w))
  else (Ok (), w).
Proof.
  unfold Pipeline.reset_for_cycling.
  assert (Hlen : (Z.of_nat (length all_tweets) >? 0)%Z = non_empty all_tweets)
    by (destruct all_tweets; reflexivity).
  rewrite Hlen.
  destruct (ENABLE_INTERNAL_CYCLING self && (non_empty all_tweets || any_processed));
    [|reflexivity].
  unfold read_store. erewrite bind_eq by reflexivity. fold (resume_index w).
  rewrite Z.geb_leb. simpl.
  now destruct (Z.of_nat (length accounts) - 1 <=? resume_index w)%Z.
Qed.

(** A pass is the loop from the start index, then the block after it. *)
Lemma _fetch_new_tweets_returns self (accounts : list string) w
    (Q : list Tweet.t → World → Prop) :
  accounts ≠ [] →
  returns (for_each (range (length accounts))
             (fetch_account self accounts
                ((resume_index w + 1) mod Z.of_nat (length accounts))%Z)
             ([], false)) w
    (λ locals w1,
       returns (reset_for_cycling self accounts locals) w1 (λ _ w2, Q locals.1 w2)) →
  returns (_fetch_new_tweets self accounts) w Q.
Proof.
  intros Hne Hloop.
  pose proof (length_pos accounts Hne) as Hn.
  pose proof (Z.mod_pos_bound (resume_index w + 1) _ Hn) as Hstart.
  unfold returns, post, Pipeline._fetch_new_tweets.
  rewrite (bind_eq _ _ _ _ _ (select_start_index_eq accounts w Hne)).
  destruct (lookup_lt_is_Some_2 accounts
              (Z.to_nat ((resume_index w + 1) mod Z.of_nat (length accounts))))
    as [x Hx]; [lia|].
  rewrite (bind_eq _ _ _ _ _ (getitem_eq accounts _ x w (proj1 Hstart) Hx)).
  destruct (returns_eq _ _ _ Hloop) as (locals & w1 & Heq & Hreset).
  rewrite (bind_eq _ _ _ _ _ Heq).
  destruct (returns_eq _ _ _ Hreset) as ([] & w2 & Heq2 & HQ).
  rewrite (bind_eq _ _ _ _ _ Heq2). exact HQ.
Qed.

(** Every pass asks the fetcher for every account, once, from the
    start index on and around: a rate limit stops nothing. *)
Lemma _fetch_new_tweets_fetches_every_account self (accounts : list string) w :
  accounts ≠ [] →
  returns (_fetch_new_tweets self accounts) w
    (λ _ w',
       fetched_usernames (trace w') =
       fetched_usernames (trace w)
       ++ (parse_username <$>
             rotate (Z.to_nat ((resume_index w + 1) mod Z.of_nat (length accounts)))
               accounts)).
Proof.
  intros Hne. apply _fetch_new_tweets_returns; [exact Hne|].
  pose proof (Z.mod_pos_bound (resume_index w + 1) _ (length_pos accounts Hne)) as Hstart.
  eapply returns_mono;
    [apply for_each_account_fetches; [exact Hne|apply Hstart]|].
  intros [all_tweets any_processed] w1 Hfetched.
  unfold returns, post. rewrite reset_for_cycling_eq.
  now destruct (_ && _ && _).
Qed.

(** A pass writes no cursor: cursors are written by [_update_state]
    only. *)
Lemma _fetch_new_tweets_keeps_cursors self (accounts : list string) w :
  accounts ≠ [] →
  returns (_fetch_new_tweets self accounts) w
    (λ _ w',
       StateManager.accounts (state_manager w') = StateManager.accounts (state_manager w)).
Proof.
  intros Hne. apply _fetch_new_tweets_returns; [exact Hne|].
  eapply returns_mono.
  - apply (returns_for_each _
             (λ _ _ w',
                StateManager.accounts (state_manager w')
                = StateManager.accounts (state_manager w))); [|reflexivity].
    intros done i [all_tweets any_processed] w1 Hprefix HI.
    apply range_next in Hprefix as [-> Hlen].
    destruct (account_in_range accounts
                ((resume_index w + 1) mod Z.of_nat (length accounts))%Z
                (Z.of_nat (length done)) Hne)
      as [_ [username_raw Hraw]].
    eapply returns_mono;
      [apply (fetch_account_spec _ _ _ _ _ _ _ _ _ _ username_raw Hne Hraw)|].
    intros locals' w2 (_ & Hcursors & _). cbv beta. congruence.
  - intros [all_tweets any_processed] w1 HI. cbv beta in HI.
    unfold returns, post. rewrite reset_for_cycling_eq.
    now destruct (_ && _ && _).
Qed.

End ResumeIndex.

Section ResumeIndexClaims.

Import Pipeline.
Local Open Scope pipeline_scope.

Variable tweet_fetcher : nat → string → option string → Z → FetchOutcome.
Variable prompt_processor : nat → Tweet.t → option Answer.t.
Variable CURRENT_TIMESTAMP : nat → Z.

Local Abbreviation _fetch_new_tweets :=
  (_fetch_new_tweets tweet_fetcher prompt_processor CURRENT_TIMESTAMP).
Local Abbreviation reset_for_cycling := (reset_for_cycling CURRENT_TIMESTAMP).

(** C3, amended.  With cycling off (the default), after a pass over
    [N >= 1] accounts in which every fetch returns a list, the stored
    resume index is that of the account visited last,
    [(start + N - 1) mod N] for the pass's start index, and the next
    pass starts where this one started.  When the pass started at index
    0, the stored index is [N - 1] and the next pass starts at 0. *)
Theorem full_pass_leaves_last_visited_index self (accounts : list string) w :
  ENABLE_INTERNAL_CYCLING self = false →
  accounts ≠ [] →
  (∀ k username since_id max_results,
     ∃ new_tweets, tweet_fetcher k username since_id max_results = FetchTweets new_tweets) →
  let n := Z.of_nat (length accounts) in
  let start_index := ((resume_index w + 1) mod n)%Z in
  returns (_fetch_new_tweets self accounts) w
    (λ _ w',
       resume_index w' = ((start_index + (n - 1)) mod n)%Z ∧
       returns (select_start_index accounts) w'
         (λ next_start _, next_start = start_index) ∧
       (start_index = 0%Z →
          resume_index w' = (n - 1)%Z ∧
          returns (select_start_index accounts) w' (λ next_start _, next_start = 0%Z))).
Proof.
  intros Hoff Hne Hok n start_index.
  pose proof (length_pos accounts Hne) as Hn. fold n in Hn.
  pose proof (Z.mod_pos_bound (resume_index w + 1) n Hn) as Hstart.
  fold start_index in Hstart.
  apply _fetch_new_tweets_returns; [exact Hne|].
  eapply returns_mono; [apply for_each_account_all_succeed; assumption|].
  intros [all_tweets any_processed] w1 [Hindex _].
  fold n in Hindex. fold start_index in Hindex.
  unfold returns at 1, post. rewrite reset_for_cycling_eq, Hoff. simpl.
  assert (Hnext : returns (select_start_index accounts) w1
                    (λ next_start _, next_start = start_index)).
  { unfold returns, post. rewrite select_start_index_eq by exact Hne. simpl.
    fold n. rewrite Hindex, Zplus_mod_idemp_l.
    replace (start_index + (n - 1) + 1)%Z with (start_index + 1 * n)%Z by lia.
    rewrite Z.mod_add by lia. apply Z.mod_small. exact Hstart. }
  split; [exact Hindex|]. split; [exact Hnext|].
  intros Hzero. rewrite Hzero in *. split; [|exact Hnext].
  rewrite Hindex. apply Z.mod_small. lia.
Qed.

(** C4, amended.  The reset is switched by [ENABLE_INTERNAL_CYCLING],
    which is [False] as written.  With the flag off the block after the
    loop does nothing, whatever the resume index.  With the flag on,
    after a pass that processed an account, a resume index that has
    reached [N - 1] is reset to [-1], and the next pass starts at 0; a
    smaller one is left as it is. *)
Theorem reset_for_cycling_is_off_by_default self (accounts : list string)
    all_tweets any_processed w :
  let n := Z.of_nat (length accounts) in
  let block := reset_for_cycling self accounts (all_tweets, any_processed) in
  ENABLE_INTERNAL_CYCLING defaults = false ∧
  (ENABLE_INTERNAL_CYCLING self = false → block w = (Ok (), w)) ∧
  (ENABLE_INTERNAL_CYCLING self = true →
   all_tweets ≠ [] ∨ any_processed = true →
   ((n - 1 ≤ resume_index w)%Z →
      returns block w
        (λ _ w',
           resume_index w' = (-1)%Z ∧
           (accounts ≠ [] →
            returns (select_start_index accounts) w' (λ next_start _, next_start = 0%Z))))
   ∧ ((resume_index w < n - 1)%Z → block w = (Ok (), w))).
Proof.
  intros n block. subst block. split; [reflexivity|].
  split; [intros Hoff; now rewrite reset_for_cycling_eq, Hoff|].
  intros Hon Hprocessed.
  assert (Hp : non_empty all_tweets || any_processed = true).
  { destruct Hprocessed as [H| ->]; [|apply orb_true_r].
    destruct all_tweets; [done|reflexivity]. }
  split.
  - intros Hreached. apply Z.leb_le in Hreached.
    unfold returns, post. rewrite reset_for_cycling_eq, Hon, Hp. fold n.
    rewrite Hreached. cbn [andb fst snd].
    split; [apply resume_index_set|].
    intros Hne. rewrite select_start_index_eq by exact Hne. cbn [fst snd].
    rewrite resume_index_set. apply Z.mod_0_l.
    pose proof (length_pos accounts Hne). lia.
  - intros Hbelow. apply Z.leb_gt in Hbelow.
    rewrite reset_for_cycling_eq, Hon, Hp. fold n. now rewrite Hbelow.
Qed.

(** C10.  In a store where no resume index was ever written the index
    reads as 0; so, with two accounts or more, the first pass starts at
    index 1, and it asks the fetcher for the accounts from the second
    on, the first account coming last. *)
Theorem first_pass_starts_at_second_account self (accounts : list string) w :
  StateManager.pipeline_state (state_manager w)
    !! StateManager.last_processed_account_index_key = None →
  2 ≤ length accounts →
  resume_index w = 0%Z ∧
  returns (select_start_index accounts) w (λ start_index _, start_index = 1%Z) ∧
  returns (_fetch_new_tweets self accounts) w
    (λ _ w',
       fetched_usernames (trace w') =
       fetched_usernames (trace w)
       ++ (parse_username <$> (drop 1 accounts ++ take 1 accounts))).
Proof.
  intros Hunset Hlen.
  assert (Hzero : resume_index w = 0%Z).
  { unfold resume_index, StateManager.get_last_processed_account_index.
    now rewrite Hunset. }
  assert (Hne : accounts ≠ []) by (destruct accounts; [simpl in Hlen; lia|done]).
  assert (Hone : ((resume_index w + 1) mod Z.of_nat (length accounts))%Z = 1%Z).
  { rewrite Hzero. apply Z.mod_small. lia. }
  split; [exact Hzero|]. split.
  - unfold returns, post. rewrite select_start_index_eq by exact Hne. exact Hone.
  - eapply returns_mono; [apply _fetch_new_tweets_fetches_every_account; exact Hne|].
    intros all_tweets w' Hfetched. cbv beta in Hfetched. rewrite Hone in Hfetched.
    rewrite Hfetched. do 2 f_equal. unfold rotate.
    change (Z.to_nat 1) with 1.
    now rewrite Nat.mod_small by lia.
Qed.

End ResumeIndexClaims.

(** ** The pass on concrete inputs *)

Lemma full_pass_leaves_last_visited_index_witness :
  Pipeline.ENABLE_INTERNAL_CYCLING Pipeline.defaults = false ∧
  abc ≠ [] ∧
  let n := Z.of_nat (length abc) in
  let start_index := ((resume_index at_minus_one + 1) mod n)%Z in
  returns (Pipeline._fetch_new_tweets fetcher_no_news (classifier_says "TRUE")
             one_second_per_question Pipeline.defaults abc) at_minus_one
    (λ _ w',
       resume_index w' = ((start_index + (n - 1)) mod n)%Z ∧
       returns (Pipeline.select_start_index abc) w'
         (λ next_start _, next_start = start_index) ∧
       (start_index = 0%Z →
          resume_index w' = (n - 1)%Z ∧
          returns (Pipeline.select_start_index abc) w' (λ next_start _, next_start = 0%Z))).
Proof.
  split; [reflexivity|]. split; [discriminate|].
  apply (full_pass_leaves_last_visited_index fetcher_no_news (classifier_says "TRUE")
           one_second_per_question Pipeline.defaults abc at_minus_one).
  - reflexivity.
  - discriminate.
  - intros k username since_id max_results. exists []. reflexivity.
Defined.

(** C3, as stated, fails: from a store whose resume index was never
    written, a pass over two accounts in which both fetches succeed visits
    [b] and then [a], leaves the resume index 0 (not [N - 1 = 1]), and the
    pass after it starts at index 1 (not 0). *)
Lemma full_pass_from_new_store_ends_at_0 :
  let w' := (Pipeline._fetch_new_tweets fetcher_no_news (classifier_says "TRUE")
               one_second_per_question Pipeline.defaults ab never_set).2 in
  fetched_usernames (Pipeline.trace w') = ["b"; "a"]%string ∧
  resume_index w' = 0%Z ∧
  (Pipeline.select_start_index ab w').1 = Pipeline.Ok 1%Z.
Proof. vm_compute. repeat split. Qed.

(** C4, as stated, fails: as the class is written, a pass over three
    accounts that starts at index 0 and in which every fetch succeeds ends
    with the resume index at [N - 1 = 2], not [-1]; the same pass with the
    flag switched on ends at [-1]. *)
Lemma no_reset_by_default :
  Pipeline.ENABLE_INTERNAL_CYCLING Pipeline.defaults = false ∧
  resume_index
    (Pipeline._fetch_new_tweets fetcher_no_news (classifier_says "TRUE")
       one_second_per_question Pipeline.defaults abc at_minus_one).2 = 2%Z ∧
  resume_index
    (Pipeline._fetch_new_tweets fetcher_no_news (classifier_says "TRUE")
       one_second_per_question cycling abc at_minus_one).2 = (-1)%Z.
Proof. vm_compute. repeat split. Qed.

(** C1, on the specification's scenario: accounts [a], [b], [c], resume
    index [-1], two tweets for [a], a rate limit on [b].  The driver
    sleeps 20 minutes and goes on to [c]: the fetcher is called for [c],
    the resume index ends at 2 and the next pass starts at index 0, again
    with [a], where the claim has no call for [c], the index at 0 and the
    next pass starting at 1. *)
Theorem rate_limit_does_not_end_the_pass :
  let w' := (Pipeline._fetch_new_tweets fetcher_b_rate_limited (classifier_says "TRUE")
               one_second_per_question Pipeline.defaults abc at_minus_one).2 in
  resume_index at_minus_one = (-1)%Z ∧
  fetched_usernames (Pipeline.trace w') = ["a"; "b"; "c"]%string ∧
  Pipeline.Fetch "c" None 10 ∈ Pipeline.trace w' ∧
  resume_index w' = 2%Z ∧
  (Pipeline.select_start_index abc w').1 = Pipeline.Ok 0%Z.
Proof.
  vm_compute. repeat split. do 5 right. left.
Qed.

(** C5, on accounts [a], [b] with resume index [-1] and a rate limit on
    [a], the account at index 0: the cursor of [a] is unchanged, as
    claimed, but the driver goes on to [b] and the pass ends with the
    resume index at 1, past [0 - 1]. *)
Theorem resume_index_passes_rate_limited_account :
  let w' := (Pipeline.run (sheet ab) fetcher_a_rate_limited (classifier_says "TRUE")
               one_second_per_question Pipeline.defaults at_minus_one).2 in
  fetched_usernames (Pipeline.trace w') = ["a"; "b"]%string ∧
  StateManager.get_last_tweet_id (Pipeline.state_manager at_minus_one) "a" = None ∧
  StateManager.get_last_tweet_id (Pipeline.state_manager w') "a" = None ∧
  StateManager.get_last_tweet_id (Pipeline.state_manager w') "b" = Some "21"%string ∧
  resume_index at_minus_one = (-1)%Z ∧
  resume_index w' = 1%Z.
Proof. vm_compute. repeat split. Qed.

Lemma first_pass_starts_at_second_account_witness :
  StateManager.pipeline_state (Pipeline.state_manager never_set)
    !! StateManager.last_processed_account_index_key = None ∧
  2 ≤ length abc ∧
  resume_index never_set = 0%Z ∧
  returns (Pipeline.select_start_index abc) never_set (λ start_index _, start_index = 1%Z) ∧
  returns (Pipeline._fetch_new_tweets fetcher_b_rate_limited (classifier_says "TRUE")
             one_second_per_question Pipeline.defaults abc) never_set
    (λ _ w',
       fetched_usernames (Pipeline.trace w') =
       fetched_usernames (Pipeline.trace never_set)
       ++ (parse_username <$> (drop 1 abc ++ take 1 abc))).
Proof.
  split; [reflexivity|]. split; [simpl; lia|].
  apply (first_pass_starts_at_second_account fetcher_b_rate_limited (classifier_says "TRUE")
           one_second_per_question Pipeline.defaults abc never_set).
  - reflexivity.
  - simpl. lia.
Defined.

(** ** The classifier's decision *)

Section Decision.

Import Pipeline.

Lemma upper_char_T c : upper_char c = "T"%char ↔ c = "t"%char ∨ c = "T"%char.
Proof.
  destruct c as [[] [] [] [] [] [] [] []]; vm_compute;
    (split; [intros H; first [discriminate H | now left | now right]
            | intros [H|H]; first [discriminate H | reflexivity]]).
Qed.

Lemma upper_char_R c : upper_char c = "R"%char ↔ c = "r"%char ∨ c = "R"%char.
Proof.
  destruct c as [[] [] [] [] [] [] [] []]; vm_compute;
    (split; [intros H; first [discriminate H | now left | now right]
            | intros [H|H]; first [discriminate H | reflexivity]]).
Qed.

Lemma upper_char_U c : upper_char c = "U"%char ↔ c = "u"%char ∨ c = "U"%char.
Proof.
  destruct c as [[] [] [] [] [] [] [] []]; vm_compute;
    (split; [intros H; first [discriminate H | now left | now right]
            | intros [H|H]; first [discriminate H | reflexivity]]).
Qed.

Lemma upper_char_E c : upper_char c = "E"%char ↔ c = "e"%char ∨ c = "E"%char.
Proof.
  destruct c as [[] [] [] [] [] [] [] []]; vm_compute;
    (split; [intros H; first [discriminate H | now left | now right]
            | intros [H|H]; first [discriminate H | reflexivity]]).
Qed.

Lemma upper_cons c s : upper (String c s) = String (upper_char c) (upper s).
Proof. reflexivity. Qed.

Lemma upper_empty s : upper s = EmptyString ↔ s = EmptyString.
Proof. destruct s; [tauto|]. rewrite upper_cons. split; discriminate. Qed.

Lemma decision_is_true_spelling (decision : string) :
  decision_is_true decision = true ↔
  ∃ c1 c2 c3 c4,
    decision = String c1 (String c2 (String c3 (String c4 EmptyString))) ∧
    (c1 = "t" ∨ c1 = "T")%char ∧ (c2 = "r" ∨ c2 = "R")%char ∧
    (c3 = "u" ∨ c3 = "U")%char ∧ (c4 = "e" ∨ c4 = "E")%char.
Proof.
  unfold decision_is_true. rewrite String.eqb_eq. split.
  - intros H.
    destruct decision as [|c1 [|c2 [|c3 [|c4 rest]]]]; try discriminate H.
    rewrite !upper_cons in H. injection H as H1 H2 H3 H4 Hrest.
    apply upper_empty in Hrest as ->.
    exists c1, c2, c3, c4. split; [reflexivity|].
    now rewrite <- upper_char_T, <- upper_char_R, <- upper_char_U, <- upper_char_E.
  - intros (c1 & c2 & c3 & c4 & -> & H1 & H2 & H3 & H4).
    rewrite !upper_cons.
    apply upper_char_T in H1. apply upper_char_R in H2.
    apply upper_char_U in H3. apply upper_char_E in H4.
    now rewrite H1, H2, H3, H4.
Qed.

End Decision.

(** C7, as stated, fails: the decision [accept], in any letter case, is
    not accepted.  A tweet that the classifier answers with it is dropped
    by [_process_tweets] and not saved by [_save_processed_content], while
    the same tweet answered with [true] is saved. *)
Lemma accept_is_not_accepted :
  Pipeline.decision_is_true "accept" = false ∧
  Pipeline.decision_is_true "ACCEPT" = false ∧
  Pipeline.decision_is_true "true" = true ∧
  (Pipeline._process_tweets (classifier_says "accept") one_second_per_question
     [tweet_of "11" "a"] never_set).1 = Pipeline.Ok [] ∧
  StateManager.pending_posts
    (Pipeline.state_manager
       (Pipeline._save_processed_content (classifier_says "accept") one_second_per_question
          [tweet_of "11" "a"] never_set).2) = [] ∧
  PendingPost.tweet_id <$>
    StateManager.pending_posts
      (Pipeline.state_manager
         (Pipeline._save_processed_content (classifier_says "true") one_second_per_question
            [tweet_of "11" "a"] never_set).2) = ["11"%string].
Proof. vm_compute. repeat split. Qed.

(** C7, amended.  There is one accepted form: a decision is accepted
    exactly when it spells [true] in some mix of upper and lower case;
    every other string, [accept] included, is rejected.
    [_process_tweets] returns exactly the analysed tweets whose decision
    is accepted, in order. *)
Theorem only_true_is_accepted
    (prompt_processor : nat → Tweet.t → option Answer.t) (CURRENT_TIMESTAMP : nat → Z)
    (tweets : list Tweet.t) (w : Pipeline.World) :
  (∀ decision : string,
     Pipeline.decision_is_true decision = true ↔
     ∃ c1 c2 c3 c4,
       decision = String c1 (String c2 (String c3 (String c4 EmptyString))) ∧
       (c1 = "t" ∨ c1 = "T")%char ∧ (c2 = "r" ∨ c2 = "R")%char ∧
       (c3 = "u" ∨ c3 = "U")%char ∧ (c4 = "e" ∨ c4 = "E")%char) ∧
  returns (Pipeline._process_tweets prompt_processor CURRENT_TIMESTAMP tweets) w
    (λ positive_results _,
       ∃ results,
         (Pipeline.analyze_tweets_batch prompt_processor tweets w).1 = Pipeline.Ok results ∧
         positive_results =
           List.filter (λ result, Pipeline.decision_is_true (Analysis.decision result))
             results).
Proof.
  split; [exact decision_is_true_spelling|].
  eapply returns_mono; [apply _process_tweets_quiet|].
  intros positive_results w' [_ H]. exact H.
Qed.

(** ** The fetch limit *)

(** C9.  Every request [get_user_tweets] sends carries a [max_results]
    between 5 and 100: 5 when fewer than 5 were asked for, 100 when more
    than 100 were, and the number asked for otherwise.  A request is sent
    whenever no rate limit is active and the user id is known. *)
Theorem max_results_is_clamped
    (_check_global_rate_limit : bool) (current_time : Z)
    (get_user_id : string → option string)
    (session_get : TweetsRequest.t → option TweetsResponse.t)
    (username : string) (since_id : option string) (max_results : Z) :
  let events :=
    (TweetFetcher.get_user_tweets _check_global_rate_limit current_time get_user_id
       session_get username since_id max_results).2 in
  (∀ request, TweetFetcher.Get request ∈ events →
     (5 ≤ TweetsRequest.max_results request ≤ 100)%Z ∧
     ((max_results < 5)%Z → TweetsRequest.max_results request = 5%Z) ∧
     ((100 < max_results)%Z → TweetsRequest.max_results request = 100%Z) ∧
     ((5 ≤ max_results ≤ 100)%Z → TweetsRequest.max_results request = max_results)) ∧
  (∀ user_id, _check_global_rate_limit = false →
     get_user_id username = Some user_id → user_id ≠ EmptyString →
     ∃ request, TweetFetcher.Get request ∈ events).
Proof.
  intros events. subst events. unfold TweetFetcher.get_user_tweets.
  set (clamped := if (max_results <? 5)%Z then 5%Z
                  else if (max_results >? 100)%Z then 100%Z else max_results).
  assert (Hclamped : (5 ≤ clamped ≤ 100)%Z ∧
                     ((max_results < 5)%Z → clamped = 5%Z) ∧
                     ((100 < max_results)%Z → clamped = 100%Z) ∧
                     ((5 ≤ max_results ≤ 100)%Z → clamped = max_results)).
  { subst clamped. rewrite Z.gtb_ltb.
    destruct (Z.ltb_spec max_results 5); [lia|].
    destruct (Z.ltb_spec 100 max_results); lia. }
  destruct _check_global_rate_limit.
  { split; [|discriminate].
    intros request Hin. apply elem_of_cons in Hin as [Hin|Hin]; [discriminate|inversion Hin]. }
  destruct (get_user_id username) as [[|c user_id]|].
  - split; [intros request Hin; inversion Hin|]. intros ? _ [= <-]. done.
  - set (params := TweetsRequest.mk _ _ _ _ _).
    split.
    + intros request Hin.
      assert (request = params) as ->; [|exact Hclamped].
      destruct (session_get params) as [response|]; [|].
      * destruct (TweetsResponse.status response =? 429)%Z.
        -- destruct (TweetFetcher._parse_rate_limit_headers current_time response)
             as [wait_time|]; [destruct (wait_time =? 0)%Z|];
             simpl in Hin; apply elem_of_cons in Hin as [Hin|Hin];
             try (now injection Hin);
             apply elem_of_cons in Hin as [Hin|Hin]; try discriminate; inversion Hin.
        -- destruct (negb _); simpl in Hin; apply elem_of_cons in Hin as [Hin|Hin];
             try (now injection Hin); inversion Hin.
      * simpl in Hin. apply elem_of_cons in Hin as [Hin|Hin];
          [now injection Hin|inversion Hin].
    + intros _ _ _ _. exists params.
      destruct (session_get params) as [response|]; [|simpl; left].
      destruct (TweetsResponse.status response =? 429)%Z.
      * destruct (TweetFetcher._parse_rate_limit_headers current_time response)
          as [wait_time|]; [destruct (wait_time =? 0)%Z|]; simpl; left.
      * destruct (negb _); simpl; left.
  - split; [intros request Hin; inversion Hin|]. discriminate.
Qed.

(** Asked for 2 the request carries 5, and asked for 500 it carries 100. *)
Example max_results_2_and_500 :
  (TweetFetcher.get_user_tweets false 0 user_42 empty_timeline "a" None 2).2
    = [TweetFetcher.Get
         (TweetsRequest.mk "https://api.twitter.com/2/users/42/tweets" 5
            "created_at,text,referenced_tweets" "referenced_tweets.id" None)] ∧
  (TweetFetcher.get_user_tweets false 0 user_42 empty_timeline "a" (Some "7"%string) 500).2
    = [TweetFetcher.Get
         (TweetsRequest.mk "https://api.twitter.com/2/users/42/tweets" 100
            "created_at,text,referenced_tweets" "referenced_tweets.id" (Some "7"%string))].
Proof. split; reflexivity. Qed.

(* ================================================================== *)
(** * Part III — more of the code                                      *)
(* ================================================================== *)

(** ** What the driver keeps, by composition *)

Section Keeps.

Import Pipeline.
Local Open Scope pipeline_scope.

Variable get_monitored_accounts : nat → Result (list string).
Variable tweet_fetcher : nat → string → option string → Z → FetchOutcome.
Variable prompt_processor : nat → Tweet.t → option Answer.t.
Variable CURRENT_TIMESTAMP : nat → Z.

Variable R : World → World → Prop.
Hypothesis R_refl : ∀ w, R w w.
Hypothesis R_trans : ∀ w1 w2 w3, R w1 w2 → R w2 w3 → R w1 w3.
Hypothesis R_tick : keeps R tick.
Hypothesis R_emit : ∀ ev, keeps R (emit ev).
Hypothesis R_set_index :
  ∀ index, keeps R (set_last_processed_account_index CURRENT_TIMESTAMP index).
Hypothesis R_log_error :
  ∀ error_type error_message username,
    keeps R (log_error CURRENT_TIMESTAMP error_type error_message username).
Hypothesis R_save :
  ∀ tweet_data analysis_result,
    keeps R (save_pending_post CURRENT_TIMESTAMP tweet_data analysis_result).
Hypothesis R_update :
  ∀ username tweet_id, keeps R (update_last_tweet_id CURRENT_TIMESTAMP username tweet_id).

Lemma keeps_pure {A} (m : M A) : (∀ w, (m w).2 = w) → keeps R m.
Proof. intros H w. rewrite H. apply R_refl. Qed.

Lemma keeps_ret {A} (a : A) : keeps R (ret a).
Proof. now apply keeps_pure. Qed.

Lemma keeps_raise {A} e : keeps R (@raise A e).
Proof. now apply keeps_pure. Qed.

Lemma keeps_bind {A B} (m : M A) (k : A → M B) :
  keeps R m → (∀ a, keeps R (k a)) → keeps R (bind m k).
Proof.
  intros Hm Hk w. specialize (Hm w). unfold bind.
  destruct (m w) as [[a|e] w1]; simpl in *; [|exact Hm].
  eapply R_trans; [exact Hm|apply Hk].
Qed.

Lemma keeps_try_except {A} (m : M A) (handler : string → M A) :
  keeps R m → (∀ e, keeps R (handler e)) → keeps R (try_except m handler).
Proof.
  intros Hm Hh w. specialize (Hm w). unfold try_except.
  destruct (m w) as [[a|e] w1]; simpl in *; [exact Hm|].
  eapply R_trans; [exact Hm|apply Hh].
Qed.

Lemma keeps_for_each {A S} (xs : list A) (body : A → S → M S) :
  (∀ x state, keeps R (body x state)) → ∀ state, keeps R (for_each xs body state).
Proof.
  intros Hbody. induction xs as [|x xs IH]; intros state; simpl.
  - apply keeps_ret.
  - apply keeps_bind; [apply Hbody|exact IH].
Qed.

Lemma keeps_read_store {A} (query : StateManager.t → A) : keeps R (read_store query).
Proof. now apply keeps_pure. Qed.

Lemma keeps_py_mod a b : keeps R (py_mod a b).
Proof. apply keeps_pure. intros w. unfold py_mod. now destruct (b =? 0)%Z. Qed.

Lemma keeps_getitem {A} (xs : list A) i : keeps R (getitem xs i).
Proof.
  apply keeps_pure. intros w. unfold getitem. cbv zeta.
  destruct (_ <? 0)%Z; [reflexivity|]. now destruct (xs !! _).
Qed.

Lemma keeps_sleep seconds : keeps R (sleep seconds).
Proof. apply R_emit. Qed.

Lemma keeps_fetch_new_tweets username since_id max_results :
  keeps R (fetch_new_tweets tweet_fetcher username since_id max_results).
Proof.
  unfold fetch_new_tweets.
  apply keeps_bind; [exact R_tick|]. intros k.
  apply keeps_bind; [apply R_emit|]. intros _.
  destruct (tweet_fetcher _ _ _ _); [apply keeps_ret|apply keeps_ret|apply keeps_raise].
Qed.

Lemma keeps_analyze_tweet tweet : keeps R (analyze_tweet prompt_processor tweet).
Proof.
  unfold analyze_tweet.
  apply keeps_bind; [exact R_tick|]. intros k.
  apply keeps_bind; [apply R_emit|]. intros _.
  destruct (prompt_processor _ _); apply keeps_ret.
Qed.

Lemma keeps_analyze_tweets_batch tweets :
  keeps R (analyze_tweets_batch prompt_processor tweets).
Proof.
  unfold analyze_tweets_batch. apply keeps_for_each. intros tweet results.
  apply keeps_try_except; [|intros; apply keeps_ret].
  apply keeps_bind; [apply keeps_analyze_tweet|].
  intros [result|]; apply keeps_ret.
Qed.

Lemma keeps__process_tweets tweets :
  keeps R (_process_tweets prompt_processor CURRENT_TIMESTAMP tweets).
Proof.
  unfold _process_tweets. apply keeps_try_except.
  - apply keeps_bind; [apply keeps_analyze_tweets_batch|]. intros; apply keeps_ret.
  - intros e. apply keeps_bind; [apply R_log_error|]. intros; apply keeps_ret.
Qed.

Lemma keeps__save_processed_content tweets :
  keeps R (_save_processed_content prompt_processor CURRENT_TIMESTAMP tweets).
Proof.
  unfold _save_processed_content. apply keeps_try_except; [|intros; apply R_log_error].
  apply keeps_bind; [apply keeps__process_tweets|]. intros analysis_results.
  destruct (negb _); [apply keeps_ret|].
  apply keeps_bind; [|intros; apply keeps_ret].
  apply keeps_for_each. intros result saved_count.
  destruct (decision_is_true _); [|apply keeps_ret].
  apply keeps_bind; [apply R_save|]. intros []; apply keeps_ret.
Qed.

Lemma keeps_fetch_account self accounts start_index i locals :
  keeps R (fetch_account tweet_fetcher prompt_processor CURRENT_TIMESTAMP self accounts
             start_index i locals).
Proof.
  unfold fetch_account. destruct locals as [all_tweets any_processed].
  apply keeps_bind; [apply keeps_py_mod|]. intros current_index.
  apply keeps_bind; [apply keeps_getitem|]. intros username_raw.
  apply keeps_try_except.
  - apply keeps_bind; [apply keeps_read_store|]. intros last_tweet_id.
    apply keeps_bind; [apply keeps_fetch_new_tweets|]. intros [new_tweets|].
    + apply keeps_bind; [apply R_set_index|]. intros _.
      apply keeps_bind; [|intros; apply keeps_ret].
      destruct (_ && _); [apply keeps_sleep|apply keeps_ret].
    + apply keeps_bind.
      * destruct (non_empty all_tweets);
          [apply keeps__save_processed_content|apply keeps_ret].
      * intros _. apply keeps_bind; [apply keeps_sleep|]. intros; apply keeps_ret.
  - intros e. apply keeps_bind; [apply R_log_error|]. intros _.
    apply keeps_bind; [apply R_set_index|]. intros; apply keeps_ret.
Qed.

Lemma keeps_reset_for_cycling self accounts locals :
  keeps R (reset_for_cycling CURRENT_TIMESTAMP self accounts locals).
Proof.
  unfold reset_for_cycling. destruct locals as [all_tweets any_processed].
  destruct (_ && _); [|apply keeps_ret].
  apply keeps_bind; [apply keeps_read_store|]. intros last_processed.
  destruct (_ >=? _)%Z; [apply R_set_index|apply keeps_ret].
Qed.

Lemma keeps__fetch_new_tweets self accounts :
  keeps R (_fetch_new_tweets tweet_fetcher prompt_processor CURRENT_TIMESTAMP self accounts).
Proof.
  unfold _fetch_new_tweets.
  apply keeps_bind.
  { unfold select_start_index. apply keeps_bind; [apply keeps_read_store|].
    intros; apply keeps_py_mod. }
  intros start_index. apply keeps_bind; [apply keeps_getitem|]. intros _.
  apply keeps_bind; [apply keeps_for_each; intros; apply keeps_fetch_account|].
  intros locals. apply keeps_bind; [apply keeps_reset_for_cycling|].
  intros; apply keeps_ret.
Qed.

Lemma keeps_max_from best best_key rest : keeps R (max_from best best_key rest).
Proof.
  apply keeps_pure. revert best best_key.
  induction rest as [|tweet rest IH]; intros best best_key w; simpl; [reflexivity|].
  destruct (int _); [|reflexivity]. destruct (_ <? _)%Z; apply IH.
Qed.

Lemma keeps_max_by_id user_tweets : keeps R (max_by_id user_tweets).
Proof.
  unfold max_by_id. destruct user_tweets as [|tweet rest]; [apply keeps_raise|].
  destruct (int _); [apply keeps_max_from|apply keeps_raise].
Qed.

Lemma keeps__update_state tweets :
  keeps R (_update_state CURRENT_TIMESTAMP tweets).
Proof.
  unfold _update_state. apply keeps_try_except; [|intros; apply R_log_error].
  apply keeps_for_each. intros group [].
  apply keeps_bind; [apply keeps_max_by_id|]. intros; apply R_update.
Qed.

Lemma keeps__load_monitored_accounts :
  keeps R (_load_monitored_accounts get_monitored_accounts CURRENT_TIMESTAMP).
Proof.
  unfold _load_monitored_accounts. apply keeps_try_except.
  - apply keeps_bind; [exact R_tick|]. intros k.
    destruct (get_monitored_accounts k); [apply keeps_ret|apply keeps_raise].
  - intros e. apply keeps_bind; [apply R_log_error|]. intros; apply keeps_ret.
Qed.

Lemma keeps_run self :
  keeps R (run get_monitored_accounts tweet_fetcher prompt_processor CURRENT_TIMESTAMP self).
Proof.
  unfold run. apply keeps_try_except.
  - apply keeps_bind; [apply keeps__load_monitored_accounts|]. intros accounts.
    destruct (negb _); [apply keeps_ret|].
    apply keeps_bind; [apply keeps__fetch_new_tweets|]. intros all_new_tweets.
    destruct (negb _); [apply keeps_ret|].
    apply keeps_bind; [apply keeps__process_tweets|]. intros analysis_results.
    destruct (negb _); [apply keeps_ret|].
    apply keeps_bind; [apply keeps__save_processed_content|]. intros _.
    apply keeps__update_state.
  - intros e. apply keeps_bind; [apply R_log_error|]. intros; apply keeps_raise.
Qed.

End Keeps.

(** ** The store's tables *)

Section Store.

Implicit Types (db : StateManager.t) (r : PendingPost.t).

(** X1.  [update_last_tweet_id] then [get_last_tweet_id] gives the id
    back; the cursors of other accounts, the pending queue, the errors
    and the resume index are untouched; a second update of the same
    account replaces the first. *)
Theorem cursor_round_trip db now now' (username tweet_id tweet_id' : string) :
  let db' := StateManager.update_last_tweet_id now username tweet_id db in
  StateManager.get_last_tweet_id db' username = Some tweet_id ∧
  (∀ other, other ≠ username →
     StateManager.get_last_tweet_id db' other = StateManager.get_last_tweet_id db other) ∧
  StateManager.pending_posts db' = StateManager.pending_posts db ∧
  StateManager.errors db' = StateManager.errors db ∧
  StateManager.get_last_processed_account_index db'
    = StateManager.get_last_processed_account_index db ∧
  StateManager.get_last_tweet_id
    (StateManager.update_last_tweet_id now' username tweet_id' db') username
    = Some tweet_id'.
Proof.
  intros db'. subst db'. unfold StateManager.get_last_tweet_id. simpl.
  rewrite !lookup_insert_eq. repeat split.
  intros other Hother. now rewrite lookup_insert_ne.
Qed.

(** X2.  The resume index reads back as it was set, whatever was stored
    before; after [reset_pipeline_state] (and in a new database) it reads
    as 0, not as the [-1] that stands for "start at the first account";
    neither operation touches cursors or the pending queue. *)
Theorem resume_index_round_trip db now index :
  let set := StateManager.set_last_processed_account_index now index db in
  let reset := StateManager.reset_pipeline_state set in
  StateManager.get_last_processed_account_index set = index ∧
  StateManager.get_last_processed_account_index reset = 0%Z ∧
  StateManager.get_last_processed_account_index StateManager._init_database = 0%Z ∧
  StateManager.accounts reset = StateManager.accounts db ∧
  StateManager.pending_posts reset = StateManager.pending_posts db ∧
  StateManager.errors reset = StateManager.errors db.
Proof.
  intros set reset. subst set reset.
  unfold StateManager.get_last_processed_account_index. simpl.
  now rewrite lookup_insert_eq, lookup_delete_eq.
Qed.

Lemma filter_other_ids (rows : list PendingPost.t) tweet_id :
  length (filter (λ r, PendingPost.tweet_id r = tweet_id) rows) = 0 →
  filter (λ r, PendingPost.tweet_id r ≠ tweet_id) rows = rows.
Proof.
  induction rows as [|r rows IH]; [reflexivity|].
  destruct (decide (PendingPost.tweet_id r = tweet_id)) as [Heq|Hne].
  - rewrite filter_cons_True by assumption. discriminate.
  - rewrite filter_cons_False by assumption. intros H.
    rewrite filter_cons_True by assumption. now rewrite IH.
Qed.

Lemma store_eq db db' :
  StateManager.accounts db = StateManager.accounts db' →
  StateManager.errors db = StateManager.errors db' →
  StateManager.pending_posts db = StateManager.pending_posts db' →
  StateManager.pipeline_state db = StateManager.pipeline_state db' →
  db = db'.
Proof. destruct db, db'. simpl. now intros -> -> -> ->. Qed.

(** X3.  Deleting a tweet id that is not pending changes nothing in the
    store. *)
Theorem delete_pending_post_absent db tweet_id :
  StateManager.is_tweet_already_saved db tweet_id = false →
  StateManager.delete_pending_post tweet_id db = db.
Proof.
  intros H. apply is_tweet_already_saved_false in H.
  apply store_eq; try reflexivity. simpl. now apply filter_other_ids.
Qed.

(** X4.  Saving a tweet that is not pending and deleting it again gives
    the store back as it was. *)
Theorem save_then_delete db now tweet_data analysis_result :
  StateManager.is_tweet_already_saved db (TweetData.id tweet_data) = false →
  StateManager.delete_pending_post (TweetData.id tweet_data)
    (StateManager.save_pending_post now tweet_data analysis_result db).2 = db.
Proof.
  intros H. unfold StateManager.save_pending_post. rewrite H. simpl.
  apply is_tweet_already_saved_false in H.
  apply store_eq; try reflexivity. simpl.
  rewrite filter_app, filter_cons_False, filter_nil, app_nil_r by (simpl; tauto).
  now apply filter_other_ids.
Qed.

(** X5.  The pending queue never holds a tweet id twice: a new database
    holds none, and saving and deleting keep the ids distinct; so at
    most one row has any given id. *)
Theorem pending_ids_stay_distinct db now tweet_data analysis_result tweet_id :
  NoDup (pending_ids db) →
  NoDup (pending_ids (StateManager.save_pending_post now tweet_data analysis_result db).2) ∧
  NoDup (pending_ids (StateManager.delete_pending_post tweet_id db)) ∧
  StateManager.count_pending tweet_id db ≤ 1.
Proof.
  intros Hdistinct. split; [now apply save_pending_post_keeps_ids_distinct|]. split.
  - unfold pending_ids, StateManager.delete_pending_post. simpl.
    revert Hdistinct. unfold pending_ids.
    induction (StateManager.pending_posts db) as [|r rows IH]; [done|].
    rewrite fmap_cons, NoDup_cons. intros [Hr Hrows].
    destruct (decide (PendingPost.tweet_id r ≠ tweet_id)) as [Hne|Heq].
    + rewrite filter_cons_True by assumption. rewrite fmap_cons, NoDup_cons.
      split; [|now apply IH].
      intros Hin. apply Hr. apply list_elem_of_fmap in Hin as (r' & Hid & Hin).
      apply list_elem_of_filter in Hin as [_ Hin].
      apply list_elem_of_fmap. eauto.
    + rewrite filter_cons_False by assumption. now apply IH.
  - unfold StateManager.count_pending. revert Hdistinct. unfold pending_ids.
    induction (StateManager.pending_posts db) as [|r rows IH]; [simpl; lia|].
    rewrite fmap_cons, NoDup_cons. intros [Hr Hrows].
    destruct (decide (PendingPost.tweet_id r = tweet_id)) as [Heq|Hne].
    + rewrite filter_cons_True by assumption. simpl.
      assert (Hnone : filter (λ r, PendingPost.tweet_id r = tweet_id) rows = []).
      { destruct (filter _ rows) as [|r' l] eqn:Hf; [reflexivity|].
        exfalso. apply Hr.
        assert (Hin : r' ∈ filter (λ r, PendingPost.tweet_id r = tweet_id) rows)
          by (rewrite Hf; left).
        apply list_elem_of_filter in Hin as [Hid Hin].
        apply list_elem_of_fmap. exists r'. split; [congruence|exact Hin]. }
      rewrite Hnone. simpl. lia.
    + rewrite filter_cons_False by assumption. now apply IH.
Qed.

(** X6.  A tweet saved later than every pending row is the next one the
    delivery script takes: delivery is newest first. *)
Theorem saved_last_is_delivered_first db now tweet_data analysis_result :
  StateManager.is_tweet_already_saved db (TweetData.id tweet_data) = false →
  (∀ r, r ∈ StateManager.pending_posts db → (PendingPost.created_timestamp r < now)%Z) →
  ∃ latest_post,
    StateManager.get_latest_pending_post
      (StateManager.save_pending_post now tweet_data analysis_result db).2
      = Some latest_post ∧
    PendingPost.tweet_id latest_post = TweetData.id tweet_data ∧
    PendingPost.created_timestamp latest_post = now.
Proof.
  intros Hnew Holder. unfold StateManager.save_pending_post. rewrite Hnew. simpl.
  unfold StateManager.get_latest_pending_post. simpl.
  exists (PendingPost.mk (TweetData.id tweet_data) (TweetData.text tweet_data)
            (TweetData.username tweet_data) (TweetData.created_at tweet_data)
            (default ""%string (Analysis.summary analysis_result))
            (Analysis.decision analysis_result) now).
  split; [|split; reflexivity].
  induction (StateManager.pending_posts db) as [|r rows IH]; [reflexivity|].
  simpl. rewrite IH by (intros r' Hr'; apply Holder; now right). simpl.
  assert (Hlt : (PendingPost.created_timestamp r < now)%Z) by (apply Holder; left).
  apply Z.ltb_lt in Hlt. now rewrite Hlt.
Qed.

End Store.

Lemma delete_pending_post_absent_witness :
  StateManager.is_tweet_already_saved one_pending "1002" = false ∧
  StateManager.delete_pending_post "1002" one_pending = one_pending.
Proof.
  split; [reflexivity|].
  apply (delete_pending_post_absent one_pending "1002"). reflexivity.
Defined.

Lemma save_then_delete_witness :
  StateManager.is_tweet_already_saved one_pending (TweetData.id second_saved) = false ∧
  StateManager.delete_pending_post (TweetData.id second_saved)
    (StateManager.save_pending_post 200 second_saved (accepted second_saved) one_pending).2
  = one_pending.
Proof.
  split; [reflexivity|].
  apply (save_then_delete one_pending 200 second_saved (accepted second_saved)).
  reflexivity.
Defined.

Lemma pending_ids_stay_distinct_witness :
  NoDup (pending_ids two_pending) ∧
  NoDup (pending_ids
           (StateManager.save_pending_post 300 third_saved (accepted third_saved)
              two_pending).2) ∧
  NoDup (pending_ids (StateManager.delete_pending_post "1001" two_pending)) ∧
  StateManager.count_pending "1001" two_pending ≤ 1.
Proof.
  assert (Hdistinct : NoDup (pending_ids two_pending)).
  { apply (bool_decide_unpack _). vm_compute. exact I. }
  split; [exact Hdistinct|].
  apply (pending_ids_stay_distinct two_pending 300 third_saved (accepted third_saved) "1001").
  exact Hdistinct.
Defined.

Lemma saved_last_is_delivered_first_witness :
  StateManager.is_tweet_already_saved one_pending (TweetData.id second_saved) = false ∧
  ∃ latest_post,
    StateManager.get_latest_pending_post
      (StateManager.save_pending_post 200 second_saved (accepted second_saved) one_pending).2
      = Some latest_post ∧
    PendingPost.tweet_id latest_post = TweetData.id second_saved ∧
    PendingPost.created_timestamp latest_post = 200%Z.
Proof.
  split; [reflexivity|].
  apply (saved_last_is_delivered_first one_pending 200 second_saved (accepted second_saved)).
  - reflexivity.
  - intros r Hr. apply list_elem_of_singleton in Hr as ->. simpl. lia.
Defined.

(** ** What a run of the driver never does *)

Section DriverKeeps.

Import Pipeline.
Local Open Scope pipeline_scope.

Variable get_monitored_accounts : nat → Result (list string).
Variable tweet_fetcher : nat → string → option string → Z → FetchOutcome.
Variable prompt_processor : nat → Tweet.t → option Answer.t.
Variable CURRENT_TIMESTAMP : nat → Z.

Lemma grows_refl w : grows w w.
Proof. now repeat split. Qed.

Lemma grows_trans w1 w2 w3 : grows w1 w2 → grows w2 w3 → grows w1 w3.
Proof.
  intros (H1 & H2 & H3 & H4) (H5 & H6 & H7 & H8).
  repeat split; [etrans; eassumption..|auto].
Qed.

Lemma grows_tick : keeps grows tick.
Proof. intros w. now repeat split. Qed.

Lemma grows_emit ev : keeps grows (emit ev).
Proof. intros w. repeat split; simpl; try done. now apply prefix_app_r. Qed.

Lemma grows_set_index index :
  keeps grows (set_last_processed_account_index CURRENT_TIMESTAMP index).
Proof. intros w. now repeat split. Qed.

Lemma grows_update username tweet_id :
  keeps grows (update_last_tweet_id CURRENT_TIMESTAMP username tweet_id).
Proof. intros w. now repeat split. Qed.

Lemma grows_log_error error_type error_message username :
  keeps grows (log_error CURRENT_TIMESTAMP error_type error_message username).
Proof. intros w. repeat split; simpl; try done. now apply prefix_app_r. Qed.

Lemma grows_save tweet_data analysis_result :
  keeps grows (save_pending_post CURRENT_TIMESTAMP tweet_data analysis_result).
Proof.
  intros w. unfold save_pending_post, write_store, bind, tick. simpl.
  pose proof (save_pending_post_keeps_ids_distinct (state_manager w)
                (CURRENT_TIMESTAMP (clock w)) tweet_data analysis_result) as Hdistinct.
  unfold StateManager.save_pending_post in *.
  destruct (StateManager.is_tweet_already_saved _ _); simpl in *;
    repeat split; simpl; try done.
  now apply prefix_app_r.
Qed.

(** X7.  A run of the driver only appends: every pending row and every
    error row that was in the store is still there afterwards, in place,
    the calls already made stay made, and pending tweet ids that were
    distinct are still distinct; this holds whether [run] returns or
    raises. *)
Theorem run_only_appends self w :
  let w' := (run get_monitored_accounts tweet_fetcher prompt_processor CURRENT_TIMESTAMP
               self w).2 in
  StateManager.pending_posts (state_manager w)
    `prefix_of` StateManager.pending_posts (state_manager w') ∧
  StateManager.errors (state_manager w)
    `prefix_of` StateManager.errors (state_manager w') ∧
  trace w `prefix_of` trace w' ∧
  (NoDup (pending_ids (state_manager w)) → NoDup (pending_ids (state_manager w'))).
Proof.
  apply (keeps_run get_monitored_accounts tweet_fetcher prompt_processor CURRENT_TIMESTAMP
           grows grows_refl grows_trans grows_tick grows_emit grows_set_index
           grows_log_error grows_save grows_update self w).
Qed.

Lemma same_cursors_refl w : same_cursors w w.
Proof. reflexivity. Qed.

Lemma same_cursors_trans w1 w2 w3 :
  same_cursors w1 w2 → same_cursors w2 w3 → same_cursors w1 w3.
Proof. unfold same_cursors. congruence. Qed.

Lemma same_cursors_save tweet_data analysis_result :
  keeps same_cursors (save_pending_post CURRENT_TIMESTAMP tweet_data analysis_result).
Proof.
  intros w. unfold same_cursors, save_pending_post, write_store, bind, tick. simpl.
  unfold StateManager.save_pending_post.
  now destruct (StateManager.is_tweet_already_saved _ _).
Qed.

(** When the classifier accepts nothing, [_process_tweets] returns the
    empty list. *)
Lemma _process_tweets_none_accepted tweets w :
  (∀ k tweet answer, prompt_processor k tweet = Some answer →
     decision_is_true (Answer.decision answer) = false) →
  (_process_tweets prompt_processor CURRENT_TIMESTAMP tweets w).1 = Ok [].
Proof.
  intros Hnone.
  assert (Hbatch : returns (analyze_tweets_batch prompt_processor tweets) w
            (λ results _,
               Forall (λ result, decision_is_true (Analysis.decision result) = false)
                 results)).
  { unfold analyze_tweets_batch.
    apply (returns_for_each _
             (λ _ results _,
                Forall (λ result, decision_is_true (Analysis.decision result) = false)
                  results)); [|constructor].
    intros done tweet results w1 _ Hresults.
    apply returns_try. unfold returns, post, analyze_tweet, bind, tick, emit. simpl.
    destruct (prompt_processor (clock w1) tweet) as [answer|] eqn:Hanswer; simpl;
      [|exact Hresults].
    apply Forall_app. split; [exact Hresults|].
    constructor; [|constructor]. simpl. eapply Hnone, Hanswer. }
  destruct (returns_eq _ _ _ Hbatch) as (results & w1 & Heq & Hresults).
  unfold _process_tweets, try_except. rewrite (bind_eq _ _ _ _ _ Heq). simpl.
  f_equal. clear Heq Hbatch.
  induction Hresults as [|result results Hresult _ IH]; [reflexivity|].
  simpl. now rewrite Hresult.
Qed.

(** X8.  When the classifier accepts none of the tweets, a run leaves
    every cursor as it was: [_update_state] is reached only after some
    tweet was accepted, so the same tweets are fetched again by the next
    run. *)
Theorem run_without_accepted_tweet_keeps_cursors self w :
  (∀ k tweet answer, prompt_processor k tweet = Some answer →
     decision_is_true (Answer.decision answer) = false) →
  StateManager.accounts
    (state_manager
       (run get_monitored_accounts tweet_fetcher prompt_processor CURRENT_TIMESTAMP
          self w).2)
  = StateManager.accounts (state_manager w).
Proof.
  intros Hnone.
  assert (Hlog : ∀ error_type error_message username,
            keeps same_cursors (log_error CURRENT_TIMESTAMP error_type error_message username))
    by (intros ? ? ? ?; reflexivity).
  assert (Hset : ∀ index,
            keeps same_cursors (set_last_processed_account_index CURRENT_TIMESTAMP index))
    by (intros ? ?; reflexivity).
  assert (Htick : keeps same_cursors tick) by (intros ?; reflexivity).
  assert (Hemit : ∀ ev, keeps same_cursors (emit ev)) by (intros ? ?; reflexivity).
  revert w.
  change (keeps same_cursors
            (run get_monitored_accounts tweet_fetcher prompt_processor CURRENT_TIMESTAMP
               self)).
  unfold run.
  apply (keeps_try_except same_cursors same_cursors_trans).
  - apply (keeps_bind same_cursors same_cursors_trans).
    { apply (keeps__load_monitored_accounts get_monitored_accounts CURRENT_TIMESTAMP
               same_cursors same_cursors_refl same_cursors_trans Htick Hlog). }
    intros accounts. destruct (negb _); [intros w; reflexivity|].
    apply (keeps_bind same_cursors same_cursors_trans).
    { apply (keeps__fetch_new_tweets tweet_fetcher prompt_processor CURRENT_TIMESTAMP
               same_cursors same_cursors_refl same_cursors_trans Htick Hemit Hset Hlog
               same_cursors_save). }
    intros all_new_tweets. destruct (negb _); [intros w; reflexivity|].
    intros w. unfold bind.
    pose proof (_process_tweets_none_accepted all_new_tweets w Hnone) as Hempty.
    pose proof (keeps__process_tweets prompt_processor CURRENT_TIMESTAMP same_cursors
                  same_cursors_refl same_cursors_trans Htick Hemit Hlog
                  all_new_tweets w) as Hkeeps.
    destruct (_process_tweets _ _ _ w) as [r w1]. simpl in Hempty, Hkeeps.
    subst r. simpl. exact Hkeeps.
  - intros e. apply (keeps_bind same_cursors same_cursors_trans); [apply Hlog|].
    intros _ w. reflexivity.
Qed.

(** X9.  Edge cases of a run.  On an empty account list
    [_fetch_new_tweets] raises [ZeroDivisionError] and touches nothing;
    [run] never gets there: when the sheet yields no account it returns
    with the store as it was and no call made, and when the sheet cannot
    be read it records one [sheets_error] row and returns normally. *)
Theorem run_without_accounts self w :
  _fetch_new_tweets tweet_fetcher prompt_processor CURRENT_TIMESTAMP self [] w
    = (Raise "ZeroDivisionError", w) ∧
  let outcome :=
    run get_monitored_accounts tweet_fetcher prompt_processor CURRENT_TIMESTAMP self w in
  match get_monitored_accounts (clock w) with
  | Ok [] =>
      outcome = (Ok (), mkWorld (state_manager w) (S (clock w)) (trace w))
  | Raise e =>
      outcome =
        (Ok (),
         mkWorld
           (StateManager.log_error (CURRENT_TIMESTAMP (S (clock w))) "sheets_error" e None
              (state_manager w))
           (S (S (clock w))) (trace w))
  | Ok (_ :: _) => True
  end.
Proof.
  split; [reflexivity|].
  unfold run, _load_monitored_accounts, try_except, bind, tick. simpl.
  destruct (get_monitored_accounts (clock w)) as [[|account accounts]|e]; done.
Qed.

End DriverKeeps.

Lemma run_without_accepted_tweet_keeps_cursors_witness :
  StateManager.accounts
    (Pipeline.state_manager
       (Pipeline.run (sheet abc) fetcher_b_rate_limited (classifier_says "FALSE")
          one_second_per_question Pipeline.defaults at_minus_one).2)
  = StateManager.accounts (Pipeline.state_manager at_minus_one).
Proof.
  apply (run_without_accepted_tweet_keeps_cursors (sheet abc) fetcher_b_rate_limited
           (classifier_says "FALSE") one_second_per_question Pipeline.defaults at_minus_one).
  intros k tweet answer [= <-]. reflexivity.
Defined.

(** ** [_update_state] *)

Section UpdateState.

Import Pipeline.
Local Open Scope pipeline_scope.

Variable CURRENT_TIMESTAMP : nat → Z.

Implicit Types (tweet : Tweet.t) (tweets : list Tweet.t)
  (groups : list (string * list Tweet.t)).

Lemma append_to_group_keys username tweet groups :
  (append_to_group username tweet groups).*1 =
  if decide (username ∈ groups.*1) then groups.*1 else groups.*1 ++ [username].
Proof.
  induction groups as [|[u user_tweets] groups IH].
  - destruct (decide _) as [Hin|_]; [inversion Hin|reflexivity].
  - cbn [append_to_group].
    destruct (String.eqb_spec u username) as [->|Hne]; rewrite !fmap_cons; cbn [fst].
    + destruct (decide (username ∈ username :: groups.*1)) as [_|Hnotin]; [reflexivity|].
      exfalso. apply Hnotin. left.
    + rewrite IH. destruct (decide (username ∈ groups.*1)) as [Hin|Hnotin].
      * destruct (decide (username ∈ u :: groups.*1)) as [_|Hnotin]; [reflexivity|].
        exfalso. apply Hnotin. now right.
      * destruct (decide (username ∈ u :: groups.*1)) as [Hin|_]; [|reflexivity].
        apply elem_of_cons in Hin as [Heq|Hin]; congruence.
Qed.

Lemma append_to_group_elem username tweet groups u user_tweets :
  NoDup (groups.*1) →
  (u, user_tweets) ∈ append_to_group username tweet groups ↔
  (u ≠ username ∧ (u, user_tweets) ∈ groups) ∨
  (u = username ∧
   ((∃ before, (username, before) ∈ groups ∧ user_tweets = before ++ [tweet]) ∨
    ((username ∉ groups.*1) ∧ user_tweets = [tweet]))).
Proof.
  induction groups as [|[u0 tweets0] groups IH]; simpl; intros Hdistinct.
  - rewrite list_elem_of_singleton. split.
    + intros [= -> ->]. right. split; [reflexivity|]. right.
      split; [apply not_elem_of_nil|reflexivity].
    + intros [[_ Hin]|[-> [(before & Hin & _)|[_ ->]]]];
        [inversion Hin|inversion Hin|reflexivity].
  - apply NoDup_cons in Hdistinct as [Hu0 Hdistinct].
    specialize (IH Hdistinct).
    destruct (String.eqb_spec u0 username) as [->|Hne].
    + rewrite !elem_of_cons. split.
      * intros [[= -> ->]|Hin].
        -- right. split; [reflexivity|]. left. exists tweets0. split; [now left|reflexivity].
        -- destruct (decide (u = username)) as [->|Hother].
           ++ exfalso. apply Hu0. apply list_elem_of_fmap. now exists (username, user_tweets).
           ++ left. split; [exact Hother|now right].
      * intros [[Hother [[= -> ->]|Hin]]|[-> [(before & Hin & ->)|[Hnotin ->]]]].
        -- done.
        -- now right.
        -- apply elem_of_cons in Hin as [[= ->]|Hin]; [now left|].
           exfalso. apply Hu0. apply list_elem_of_fmap. now exists (username, before).
        -- exfalso. apply Hnotin. now left.
    + rewrite elem_of_cons, IH. split.
      * intros [[= -> ->]|[[Hother Hin]|[-> Hcase]]].
        -- left. split; [exact Hne|now left].
        -- left. split; [exact Hother|now right].
        -- right. split; [reflexivity|].
           destruct Hcase as [(before & Hin & ->)|[Hnotin ->]].
           ++ left. exists before. split; [now right|reflexivity].
           ++ right. split; [|reflexivity].
              intros Hin. apply elem_of_cons in Hin as [Heq|Hin]; [congruence|done].
      * intros [[Hother Hin]|[-> Hcase]].
        -- apply elem_of_cons in Hin as [Heq|Hin]; [now left|].
           right. left. now split.
        -- right. right. split; [reflexivity|].
           destruct Hcase as [(before & Hin & ->)|[Hnotin ->]].
           ++ apply elem_of_cons in Hin as [[= Heq _]|Hin]; [congruence|].
              left. now exists before.
           ++ right. split; [|reflexivity].
              intros Hin. apply Hnotin. now right.
Qed.

(** The groups of [tweets_by_username]: one per username, each holding
    that username's tweets in the order of the list. *)
Lemma group_by_username_spec tweets :
  NoDup (group_by_username tweets).*1 ∧
  (∀ u user_tweets,
     (u, user_tweets) ∈ group_by_username tweets →
     user_tweets = filter (λ tweet, Tweet.username tweet = u) tweets ∧ user_tweets ≠ []) ∧
  (∀ tweet, tweet ∈ tweets → Tweet.username tweet ∈ (group_by_username tweets).*1).
Proof.
  unfold group_by_username.
  induction tweets as [|tweet tweets IH] using rev_ind.
  - simpl. split; [constructor|]. split; [intros ? ? Hin|intros ? Hin]; inversion Hin.
  - rewrite foldl_app. simpl. destruct IH as (Hdistinct & Hgroups & Hkeys).
    set (groups := foldl _ [] tweets) in *.
    split; [|split].
    + rewrite append_to_group_keys. case_decide; [exact Hdistinct|].
      apply NoDup_app. split; [exact Hdistinct|].
      split; [|apply NoDup_singleton].
      intros u Hu Hin. apply list_elem_of_singleton in Hin. congruence.
    + intros u user_tweets Hin.
      apply append_to_group_elem in Hin; [|exact Hdistinct].
      rewrite filter_app.
      destruct Hin as [[Hother Hin]|[-> [(before & Hin & ->)|[Hnotin ->]]]].
      * destruct (Hgroups _ _ Hin) as [-> Hne].
        rewrite filter_cons_False, filter_nil, app_nil_r by congruence. now split.
      * destruct (Hgroups _ _ Hin) as [-> Hne].
        rewrite filter_cons_True, filter_nil by reflexivity.
        split; [reflexivity|]. now destruct (filter _ tweets).
      * rewrite filter_cons_True, filter_nil by reflexivity.
        assert (Hnone : filter (λ t, Tweet.username t = Tweet.username tweet) tweets = []).
        { destruct (filter _ tweets) as [|t l] eqn:Hf; [reflexivity|]. exfalso.
          assert (Hin : t ∈ filter (λ t, Tweet.username t = Tweet.username tweet) tweets)
            by (rewrite Hf; left).
          apply list_elem_of_filter in Hin as [Hu Hin].
          apply Hnotin. rewrite <- Hu. now apply Hkeys. }
        rewrite Hnone. now split.
    + intros t Hin. rewrite append_to_group_keys.
      apply elem_of_app in Hin as [Hin|Hin].
      * case_decide; [now apply Hkeys|]. apply elem_of_app. left. now apply Hkeys.
      * apply list_elem_of_singleton in Hin as ->.
        case_decide; [assumption|]. apply elem_of_app. right. now left.
Qed.

(** [max] returns a tweet of the list whose numeric id no other
    exceeds. *)
Lemma max_from_spec rest : ∀ best best_key w,
  int (Tweet.id best) = Some best_key →
  (∀ tweet, tweet ∈ rest → is_Some (int (Tweet.id tweet))) →
  ∃ latest latest_key,
    max_from best best_key rest w = (Ok latest, w) ∧
    latest ∈ best :: rest ∧
    int (Tweet.id latest) = Some latest_key ∧
    (best_key ≤ latest_key)%Z ∧
    ∀ tweet key, tweet ∈ rest → int (Tweet.id tweet) = Some key → (key ≤ latest_key)%Z.
Proof.
  induction rest as [|tweet rest IH]; intros best best_key w Hbest Hnumeric.
  - exists best, best_key. repeat split; [left|exact Hbest|lia|].
    intros tweet key Hin. inversion Hin.
  - simpl. destruct (Hnumeric tweet) as [key Hkey]; [left|]. rewrite Hkey.
    assert (Hrest : ∀ t, t ∈ rest → is_Some (int (Tweet.id t)))
      by (intros t Ht; apply Hnumeric; now right).
    destruct (Z.ltb_spec best_key key) as [Hlt|Hge].
    + destruct (IH tweet key w Hkey Hrest)
        as (latest & latest_key & Heq & Hin & Hlatest & Hle & Hmax).
      exists latest, latest_key. split; [exact Heq|]. split; [now right|].
      split; [exact Hlatest|]. split; [lia|].
      intros t k Ht Hk. apply elem_of_cons in Ht as [->|Ht]; [|eauto].
      assert (k = key) by congruence. lia.
    + destruct (IH best best_key w Hbest Hrest)
        as (latest & latest_key & Heq & Hin & Hlatest & Hle & Hmax).
      exists latest, latest_key. split; [exact Heq|]. split.
      { apply elem_of_cons in Hin as [->|Hin]; [left|right; now right]. }
      split; [exact Hlatest|]. split; [exact Hle|].
      intros t k Ht Hk. apply elem_of_cons in Ht as [->|Ht]; [|eauto].
      assert (k = key) by congruence. lia.
Qed.

Lemma max_by_id_spec user_tweets w :
  user_tweets ≠ [] →
  (∀ tweet, tweet ∈ user_tweets → is_Some (int (Tweet.id tweet))) →
  ∃ latest latest_key,
    max_by_id user_tweets w = (Ok latest, w) ∧
    latest ∈ user_tweets ∧
    int (Tweet.id latest) = Some latest_key ∧
    ∀ tweet key, tweet ∈ user_tweets → int (Tweet.id tweet) = Some key →
                 (key ≤ latest_key)%Z.
Proof.
  intros Hne Hnumeric. destruct user_tweets as [|first rest]; [done|].
  unfold max_by_id. destruct (Hnumeric first) as [key Hkey]; [left|]. rewrite Hkey.
  destruct (max_from_spec rest first key w Hkey)
    as (latest & latest_key & Heq & Hin & Hlatest & Hle & Hmax).
  { intros t Ht. apply Hnumeric. now right. }
  exists latest, latest_key. split; [exact Heq|]. split; [exact Hin|].
  split; [exact Hlatest|].
  intros t k Ht Hk. apply elem_of_cons in Ht as [->|Ht]; [|eauto].
  assert (k = key) by congruence. lia.
Qed.

(** X10.  When every tweet id is a number, [_update_state] returns
    and leaves, for every account that has a tweet in the list, the id
    of one of its tweets that no other of its tweets exceeds; the
    cursors of all other accounts, the pending queue, the errors and
    the resume index are as before. *)
Theorem _update_state_sets_latest_ids tweets w :
  (∀ tweet, tweet ∈ tweets → is_Some (int (Tweet.id tweet))) →
  returns (_update_state CURRENT_TIMESTAMP tweets) w
    (λ _ w',
       (∀ username,
          (username ∉ Tweet.username <$> tweets →
           StateManager.get_last_tweet_id (state_manager w') username
           = StateManager.get_last_tweet_id (state_manager w) username) ∧
          (username ∈ Tweet.username <$> tweets →
           ∃ latest latest_key,
             latest ∈ tweets ∧ Tweet.username latest = username ∧
             int (Tweet.id latest) = Some latest_key ∧
             StateManager.get_last_tweet_id (state_manager w') username
             = Some (Tweet.id latest) ∧
             ∀ tweet key, tweet ∈ tweets → Tweet.username tweet = username →
                          int (Tweet.id tweet) = Some key → (key ≤ latest_key)%Z)) ∧
       StateManager.pending_posts (state_manager w')
       = StateManager.pending_posts (state_manager w) ∧
       StateManager.errors (state_manager w') = StateManager.errors (state_manager w) ∧
       resume_index w' = resume_index w).
Proof.
  intros Hnumeric.
  destruct (group_by_username_spec tweets) as (Hdistinct & Hgroups & Hkeys).
  unfold _update_state. apply returns_try.
  set (groups := group_by_username tweets) in *.
  eapply returns_mono.
  - apply (returns_for_each _
      (λ done _ w1,
         (∀ u, u ∉ done.*1 →
            StateManager.get_last_tweet_id (state_manager w1) u
            = StateManager.get_last_tweet_id (state_manager w) u) ∧
         (∀ u user_tweets, (u, user_tweets) ∈ done →
            ∃ latest latest_key,
              latest ∈ user_tweets ∧ int (Tweet.id latest) = Some latest_key ∧
              StateManager.get_last_tweet_id (state_manager w1) u = Some (Tweet.id latest) ∧
              ∀ tweet key, tweet ∈ user_tweets → int (Tweet.id tweet) = Some key →
                           (key ≤ latest_key)%Z) ∧
         StateManager.pending_posts (state_manager w1)
         = StateManager.pending_posts (state_manager w) ∧
         StateManager.errors (state_manager w1) = StateManager.errors (state_manager w) ∧
         StateManager.pipeline_state (state_manager w1)
         = StateManager.pipeline_state (state_manager w))).
    + intros done [u user_tweets] [] w1 Hprefix (Hothers & Hdone & Hp & He & Hs).
      assert (Hin : (u, user_tweets) ∈ groups).
      { destruct Hprefix as [rest ->]. apply elem_of_app. left.
        apply elem_of_app. right. left. }
      assert (Hfresh : u ∉ done.*1).
      { destruct Hprefix as [rest Hrest]. rewrite Hrest in Hdistinct.
        rewrite !fmap_app in Hdistinct. apply NoDup_app in Hdistinct as [Hd _].
        apply NoDup_app in Hd as (_ & Hd & _). intros Hu. apply (Hd u Hu). left. }
      destruct (Hgroups _ _ Hin) as [Hfilter Hne].
      destruct (max_by_id_spec user_tweets w1 Hne)
        as (latest & latest_key & Heq & Hlatest & Hkey & Hmax).
      { intros t Ht. apply Hnumeric. rewrite Hfilter in Ht.
        now apply list_elem_of_filter in Ht as [_ Ht]. }
      unfold returns, post. cbn [fst snd]. rewrite (bind_eq _ _ _ _ _ Heq).
      unfold update_last_tweet_id, write_store, bind, tick. cbn [fst snd state_manager].
      unfold StateManager.get_last_tweet_id in *. cbn.
      split; [|split; [|now repeat split]].
      * intros u' Hu'. rewrite fmap_app, elem_of_app in Hu'. cbn in Hu'.
        rewrite lookup_insert_ne by (intros ->; apply Hu'; right; left).
        apply Hothers. tauto.
      * intros u' tweets' Hin'. apply elem_of_app in Hin' as [Hin'|Hin'].
        -- rewrite lookup_insert_ne.
           ++ now apply Hdone.
           ++ intros ->. apply Hfresh. apply list_elem_of_fmap. now exists (u', tweets').
        -- apply list_elem_of_singleton in Hin' as [= -> ->].
           rewrite lookup_insert_eq. cbn. exists latest, latest_key. now repeat split.
    + now repeat split.
  - intros [] w' (Hothers & Hdone & Hp & He & Hs). cbv beta.
    split; [|split; [exact Hp|split; [exact He|]]].
    + intros username. split.
      * intros Hnone. apply Hothers. intros Hin.
        apply list_elem_of_fmap in Hin as ([u user_tweets] & -> & Hin). cbn in Hnone.
        destruct (Hgroups _ _ Hin) as [Hfilter Hne].
        destruct user_tweets as [|t l]; [done|].
        assert (Ht : t ∈ filter (λ tweet, Tweet.username tweet = u) tweets)
          by (rewrite <- Hfilter; left).
        apply list_elem_of_filter in Ht as [Hu Ht].
        apply Hnone. apply list_elem_of_fmap. now exists t.
      * intros Hin. apply list_elem_of_fmap in Hin as (t & -> & Ht).
        pose proof (Hkeys t Ht) as Hkey.
        apply list_elem_of_fmap in Hkey as ([u user_tweets] & Hu & Hin). cbn in Hu.
        subst u. destruct (Hgroups _ _ Hin) as [Hfilter Hne].
        destruct (Hdone _ _ Hin) as (latest & latest_key & Hlatest & Hk & Hget & Hmax).
        rewrite Hfilter in Hlatest. apply list_elem_of_filter in Hlatest as [Hu Hlatest].
        exists latest, latest_key. repeat split; try assumption.
        intros tweet key Htweet Huser Hkey'. apply (Hmax tweet key); [|exact Hkey'].
        rewrite Hfilter. apply list_elem_of_filter. now split.
    + unfold resume_index, StateManager.get_last_processed_account_index. now rewrite Hs.
Qed.

End UpdateState.

Lemma _update_state_sets_latest_ids_witness :
  returns (Pipeline._update_state one_second_per_question three_tweets) never_set
    (λ _ w',
       (∀ username,
          (username ∉ Tweet.username <$> three_tweets →
           StateManager.get_last_tweet_id (Pipeline.state_manager w') username
           = StateManager.get_last_tweet_id (Pipeline.state_manager never_set) username) ∧
          (username ∈ Tweet.username <$> three_tweets →
           ∃ latest latest_key,
             latest ∈ three_tweets ∧ Tweet.username latest = username ∧
             int (Tweet.id latest) = Some latest_key ∧
             StateManager.get_last_tweet_id (Pipeline.state_manager w') username
             = Some (Tweet.id latest) ∧
             ∀ tweet key, tweet ∈ three_tweets → Tweet.username tweet = username →
                          int (Tweet.id tweet) = Some key → (key ≤ latest_key)%Z)) ∧
       StateManager.pending_posts (Pipeline.state_manager w')
       = StateManager.pending_posts (Pipeline.state_manager never_set) ∧
       StateManager.errors (Pipeline.state_manager w')
       = StateManager.errors (Pipeline.state_manager never_set) ∧
       resume_index w' = resume_index never_set).
Proof.
  apply (_update_state_sets_latest_ids one_second_per_question three_tweets never_set).
  intros tweet Hin.
  repeat (apply elem_of_cons in Hin as [->|Hin]; [vm_compute; eauto|]).
  inversion Hin.
Defined.

(** The cursors after the three tweets: the larger id of [a], and [b]'s. *)
Example _update_state_on_three_tweets :
  let w' := (Pipeline._update_state one_second_per_question three_tweets never_set).2 in
  StateManager.get_last_tweet_id (Pipeline.state_manager w') "a" = Some "12"%string ∧
  StateManager.get_last_tweet_id (Pipeline.state_manager w') "b" = Some "21"%string ∧
  StateManager.get_last_tweet_id (Pipeline.state_manager w') "c" = None.
Proof. vm_compute. repeat split. Qed.

Section UpdateStateErrors.

Import Pipeline.
Local Open Scope pipeline_scope.

Variable CURRENT_TIMESTAMP : nat → Z.

Lemma max_from_result rest : ∀ best best_key w,
  (max_from best best_key rest w).2 = w ∧
  ((∃ tweet, tweet ∈ rest ∧ int (Tweet.id tweet) = None) →
   ∃ e, (max_from best best_key rest w).1 = Raise e).
Proof.
  induction rest as [|tweet rest IH]; intros best best_key w; simpl.
  - split; [reflexivity|]. intros (t & Hin & _). inversion Hin.
  - destruct (int (Tweet.id tweet)) as [key|] eqn:Hkey; [|split; eauto].
    destruct (best_key <? key)%Z.
    + destruct (IH tweet key w) as [Hw Hbad]. split; [exact Hw|].
      intros (t & Hin & Ht). apply Hbad.
      apply elem_of_cons in Hin as [->|Hin]; [congruence|eauto].
    + destruct (IH best best_key w) as [Hw Hbad]. split; [exact Hw|].
      intros (t & Hin & Ht). apply Hbad.
      apply elem_of_cons in Hin as [->|Hin]; [congruence|eauto].
Qed.

Lemma max_by_id_result user_tweets w :
  (max_by_id user_tweets w).2 = w ∧
  ((∃ tweet, tweet ∈ user_tweets ∧ int (Tweet.id tweet) = None) →
   ∃ e, (max_by_id user_tweets w).1 = Raise e).
Proof.
  unfold max_by_id. destruct user_tweets as [|first rest].
  - split; [reflexivity|]. intros (t & Hin & _). inversion Hin.
  - destruct (int (Tweet.id first)) as [key|] eqn:Hkey; [|split; eauto].
    destruct (max_from_result rest first key w) as [Hw Hbad]. split; [exact Hw|].
    intros (t & Hin & Ht). apply Hbad.
    apply elem_of_cons in Hin as [->|Hin]; [congruence|eauto].
Qed.

(** The loop over the groups raises when a group holds an id that is
    no number. *)
Lemma update_loop_raises (groups : list (string * list Tweet.t)) : ∀ w,
  (∃ group tweet, group ∈ groups ∧ tweet ∈ group.2 ∧ int (Tweet.id tweet) = None) →
  ∃ e w',
    for_each groups
      (λ group _,
         latest_tweet <- max_by_id group.2 ;;
         update_last_tweet_id CURRENT_TIMESTAMP group.1 (Tweet.id latest_tweet))
      () w = (Raise e, w').
Proof.
  induction groups as [|group groups IH]; intros w (g & t & Hin & Htin & Hnone).
  - inversion Hin.
  - cbn [for_each].
    destruct (max_by_id_result group.2 w) as [_ Hbad].
    destruct (max_by_id group.2 w) as [[latest|e] w1] eqn:Hmax; cbn [fst snd] in *.
    + assert (Hrest : ∃ group tweet,
                group ∈ groups ∧ tweet ∈ group.2 ∧ int (Tweet.id tweet) = None).
      { apply elem_of_cons in Hin as [->|Hin]; [|eauto].
        destruct Hbad as [e He]; [eauto|discriminate]. }
      erewrite bind_eq; [apply IH, Hrest|].
      erewrite bind_eq by exact Hmax. reflexivity.
    + exists e, w1. apply bind_raise. now apply bind_raise.
Qed.

(** X11.  [_update_state] never raises.  When some tweet id is no
    number, it records exactly one [state_update_error] row, with no
    username; the pending queue and the resume index stay as they
    were. *)
Theorem _update_state_bad_id tweets w :
  (∃ tweet, tweet ∈ tweets ∧ int (Tweet.id tweet) = None) →
  returns (_update_state CURRENT_TIMESTAMP tweets) w
    (λ _ w',
       (∃ row,
          StateManager.errors (state_manager w')
          = StateManager.errors (state_manager w) ++ [row] ∧
          ErrorRow.error_type row = "state_update_error"%string ∧
          ErrorRow.username row = None) ∧
       StateManager.pending_posts (state_manager w')
       = StateManager.pending_posts (state_manager w) ∧
       resume_index w' = resume_index w).
Proof.
  intros (bad & Hbad & Hnone).
  destruct (group_by_username_spec tweets) as (_ & Hgroups & Hkeys).
  destruct (update_loop_raises (group_by_username tweets) w) as (e & w1 & Hraised).
  { pose proof (Hkeys bad Hbad) as Hkey.
    apply list_elem_of_fmap in Hkey as ([u user_tweets] & Hu & Hin). cbn in Hu.
    exists (u, user_tweets), bad. split; [exact Hin|]. split; [|exact Hnone].
    cbn. destruct (Hgroups _ _ Hin) as [-> _].
    apply list_elem_of_filter. now split. }
  pose proof (keeps_for_each
                (λ w w', StateManager.errors (state_manager w')
                         = StateManager.errors (state_manager w) ∧
                         StateManager.pending_posts (state_manager w')
                         = StateManager.pending_posts (state_manager w) ∧
                         StateManager.pipeline_state (state_manager w')
                         = StateManager.pipeline_state (state_manager w))
                ltac:(now intros)
                ltac:(intros ? ? ? (-> & -> & ->) (-> & -> & ->); now repeat split)
                (group_by_username tweets)
                (λ group (_ : ()),
                   latest_tweet <- max_by_id group.2 ;;
                   update_last_tweet_id CURRENT_TIMESTAMP group.1 (Tweet.id latest_tweet)))
    as Hkeeps.
  specialize (Hkeeps ltac:(intros group []; apply keeps_bind;
                            [intros ? ? ? (-> & -> & ->) (-> & -> & ->); now repeat split
                            |apply keeps_max_by_id; now intros
                            |intros latest w0; now repeat split]) () w).
  rewrite Hraised in Hkeeps. cbn [snd] in Hkeeps. destruct Hkeeps as (He & Hp & Hs).
  unfold returns, post, _update_state, try_except. rewrite Hraised.
  unfold log_error, write_store, bind, tick. cbn.
  split; [|split].
  - eexists. rewrite He. split; [reflexivity|]. now split.
  - exact Hp.
  - unfold resume_index, StateManager.get_last_processed_account_index. cbn.
    now rewrite Hs.
Qed.

End UpdateStateErrors.

Lemma _update_state_bad_id_witness :
  returns (Pipeline._update_state one_second_per_question bad_id_tweets) never_set
    (λ _ w',
       (∃ row,
          StateManager.errors (Pipeline.state_manager w')
          = StateManager.errors (Pipeline.state_manager never_set) ++ [row] ∧
          ErrorRow.error_type row = "state_update_error"%string ∧
          ErrorRow.username row = None) ∧
       StateManager.pending_posts (Pipeline.state_manager w')
       = StateManager.pending_posts (Pipeline.state_manager never_set) ∧
       resume_index w' = resume_index never_set).
Proof.
  apply (_update_state_bad_id one_second_per_question bad_id_tweets never_set).
  exists (tweet_of "x1" "b"). split; [right; left|reflexivity].
Defined.

(** ** The calls of a pass, and its error branch *)

Section PassCalls.

Import Pipeline.
Local Open Scope pipeline_scope.

Variable tweet_fetcher : nat → string → option string → Z → FetchOutcome.
Variable prompt_processor : nat → Tweet.t → option Answer.t.
Variable CURRENT_TIMESTAMP : nat → Z.

Local Abbreviation fetch_account :=
  (fetch_account tweet_fetcher prompt_processor CURRENT_TIMESTAMP).
Local Abbreviation _save_processed_content :=
  (_save_processed_content prompt_processor CURRENT_TIMESTAMP).
Local Abbreviation _fetch_new_tweets :=
  (_fetch_new_tweets tweet_fetcher prompt_processor CURRENT_TIMESTAMP).

Lemma fetch_calls_app trace1 trace2 :
  fetch_calls (trace1 ++ trace2) = fetch_calls trace1 ++ fetch_calls trace2.
Proof. unfold fetch_calls. apply omap_app. Qed.

(** Events that name no account hold no call of the fetcher. *)
Lemma fetch_calls_none events :
  fetched_usernames events = [] → fetch_calls events = [].
Proof.
  induction events as [|ev events IH]; [reflexivity|].
  destruct ev; unfold fetched_usernames, fetch_calls in *; cbn; [discriminate|exact IH..].
Qed.

(** Saving processed content makes no call of the fetcher and writes
    neither cursors nor the resume index. *)
Lemma _save_processed_content_calls tweets w :
  ∃ w', _save_processed_content tweets w = (Ok (), w') ∧
        fetch_calls (trace w') = fetch_calls (trace w) ∧
        StateManager.accounts (state_manager w') = StateManager.accounts (state_manager w).
Proof.
  destruct (returns_eq _ _ _ (_save_processed_content_quiet prompt_processor
                                 CURRENT_TIMESTAMP tweets w))
    as ([] & w' & Heq & (Hfetched & _ & Hcursors)).
  exists w'. split; [exact Heq|]. split; [|exact Hcursors].
  pose proof (keeps__save_processed_content prompt_processor CURRENT_TIMESTAMP grows
                grows_refl grows_trans grows_tick grows_emit
                (grows_log_error CURRENT_TIMESTAMP) (grows_save CURRENT_TIMESTAMP)
                tweets w) as (_ & _ & [events Htrace] & _).
  rewrite Heq in Htrace. cbn [snd] in Htrace.
  rewrite Htrace, fetch_calls_app.
  rewrite Htrace, fetched_usernames_app in Hfetched.
  assert (Hnone : fetched_usernames events = []).
  { apply (app_inv_head (fetched_usernames (trace w))). now rewrite app_nil_r. }
  now rewrite (fetch_calls_none _ Hnone), app_nil_r.
Qed.

(** One iteration asks the fetcher once, for the account's tweets since
    its stored cursor and for at most [max_tweets_per_account] of them;
    when the fetcher raises, it records the error with the account's name
    and writes the account's index. *)
Lemma fetch_account_detail self (accounts : list string) start_index i all_tweets
    any_processed w username_raw :
  let n := Z.of_nat (length accounts) in
  let current_index := ((start_index + i) mod n)%Z in
  let username := parse_username username_raw in
  accounts ≠ [] →
  accounts !! Z.to_nat current_index = Some username_raw →
  returns (fetch_account self accounts start_index i (all_tweets, any_processed)) w
    (λ locals w',
       fetch_calls (trace w') =
         fetch_calls (trace w)
         ++ [(username, StateManager.get_last_tweet_id (state_manager w) username,
              max_tweets_per_account self)] ∧
       StateManager.accounts (state_manager w') = StateManager.accounts (state_manager w) ∧
       match tweet_fetcher (clock w) username
               (StateManager.get_last_tweet_id (state_manager w) username)
               (max_tweets_per_account self) with
       | FetchRaises e =>
           locals = (all_tweets, any_processed) ∧
           resume_index w' = current_index ∧
           StateManager.errors (state_manager w') =
             StateManager.errors (state_manager w)
             ++ [ErrorRow.mk "tweet_fetch_error" e (Some username)
                   (CURRENT_TIMESTAMP (S (clock w)))] ∧
           StateManager.pending_posts (state_manager w')
           = StateManager.pending_posts (state_manager w)
       | _ => True
       end).
Proof.
  intros n current_index username Hne Hraw.
  destruct (account_in_range accounts start_index i Hne) as [Hrange _].
  fold n in Hrange. fold current_index in Hrange.
  assert (Hn : n ≠ 0%Z) by lia.
  remember (tweet_fetcher (clock w) username
              (StateManager.get_last_tweet_id (state_manager w) username)
              (max_tweets_per_account self)) as outcome eqn:Houtcome.
  unfold returns, post.
  destruct (fetch_account self accounts start_index i (all_tweets, any_processed) w)
    as [r w'] eqn:Hrun.
  cbn [fst snd].
  unfold Pipeline.fetch_account in Hrun.
  rewrite (bind_eq _ _ _ _ _ (py_mod_eq (start_index + i) n w Hn)) in Hrun.
  fold current_index in Hrun.
  rewrite (bind_eq _ _ _ _ _ (getitem_eq accounts current_index username_raw w
                                (proj1 Hrange) Hraw)) in Hrun.
  fold username in Hrun.
  pose proof (fetch_new_tweets_eq tweet_fetcher username
                (StateManager.get_last_tweet_id (state_manager w) username)
                (max_tweets_per_account self) w) as Hfetch.
  rewrite <- Houtcome in Hfetch. cbv zeta in Hfetch.
  set (w1 := mkWorld _ _ _) in Hfetch.
  assert (Hw1 : fetch_calls (trace w1) =
                  fetch_calls (trace w)
                  ++ [(username, StateManager.get_last_tweet_id (state_manager w) username,
                       max_tweets_per_account self)]
                ∧ StateManager.accounts (state_manager w1)
                  = StateManager.accounts (state_manager w)).
  { subst w1. cbn [trace state_manager]. rewrite fetch_calls_app. now split. }
  destruct Hw1 as (Hf & Ha).
  destruct outcome as [|new_tweets|e].
  - (* rate limit *)
    assert (Hrest : ∃ w2,
              ((if non_empty all_tweets then _save_processed_content all_tweets
                else ret ()) w1) = (Ok (), w2) ∧
              fetch_calls (trace w2) = fetch_calls (trace w1) ∧
              StateManager.accounts (state_manager w2)
              = StateManager.accounts (state_manager w1)).
    { destruct (non_empty all_tweets).
      - apply _save_processed_content_calls.
      - now exists w1. }
    destruct Hrest as (w2 & Heq & Hf2 & Ha2).
    erewrite try_except_ok in Hrun; cycle 1.
    { unfold read_store. erewrite bind_eq by reflexivity.
      erewrite bind_eq by exact Hfetch. cbv beta iota.
      erewrite bind_eq by exact Heq.
      reflexivity. }
    injection Hrun as <- <-. cbn [trace state_manager].
    rewrite fetch_calls_app.
    change (fetch_calls [Sleep 1200]) with (@nil (string * option string * Z)).
    rewrite app_nil_r. split; [congruence|]. split; [congruence|exact I].
  - (* tweets, or none *)
    destruct (ENABLE_INTERNAL_CYCLING self && (i <? Z.of_nat (length accounts) - 1)%Z);
      (erewrite try_except_ok in Hrun; cycle 1;
       [ unfold read_store; erewrite bind_eq by reflexivity;
         erewrite bind_eq by exact Hfetch; cbv beta iota; reflexivity | ]);
      injection Hrun as <- <-; cbn [trace state_manager clock fst snd];
      rewrite ?fetch_calls_app;
      change (fetch_calls [Sleep 900]) with (@nil (string * option string * Z));
      rewrite ?app_nil_r; now repeat split.
  - (* the fetcher raised *)
    erewrite try_except_raise in Hrun; cycle 1.
    { unfold read_store. erewrite bind_eq by reflexivity.
      erewrite bind_raise by exact Hfetch. reflexivity. }
    injection Hrun as <- <-. cbn [trace state_manager clock fst snd].
    split; [now rewrite fetch_calls_app|]. split; [reflexivity|].
    split; [reflexivity|]. split; [apply resume_index_set|]. now split.
Qed.

End PassCalls.

Section PassTheorems.

Import Pipeline.
Local Open Scope pipeline_scope.

Variable tweet_fetcher : nat → string → option string → Z → FetchOutcome.
Variable prompt_processor : nat → Tweet.t → option Answer.t.
Variable CURRENT_TIMESTAMP : nat → Z.

Local Abbreviation fetch_account :=
  (fetch_account tweet_fetcher prompt_processor CURRENT_TIMESTAMP).
Local Abbreviation _fetch_new_tweets :=
  (_fetch_new_tweets tweet_fetcher prompt_processor CURRENT_TIMESTAMP).

(** X12.  A pass over a non-empty account list returns, and calls the
    fetcher exactly once per account, in list order from the start index
    on and around, each time for the tweets since the cursor the store
    held for that account when the pass began and for at most
    [max_tweets_per_account] tweets, whatever the fetcher answers. *)
Theorem pass_calls_each_account_once self (accounts : list string) w :
  accounts ≠ [] →
  let start_index := ((resume_index w + 1) mod Z.of_nat (length accounts))%Z in
  let visited := parse_username <$> rotate (Z.to_nat start_index) accounts in
  returns (_fetch_new_tweets self accounts) w
    (λ _ w',
       fetch_calls (trace w') =
         fetch_calls (trace w)
         ++ ((λ username,
                (username, StateManager.get_last_tweet_id (state_manager w) username,
                 max_tweets_per_account self)) <$> visited)) ∧
  visited ≡ₚ parse_username <$> accounts.
Proof.
  intros Hne start_index visited. split.
  - pose proof (Z.mod_pos_bound (resume_index w + 1) _ (length_pos accounts Hne)) as Hstart.
    fold start_index in Hstart.
    apply _fetch_new_tweets_returns; [exact Hne|]. fold start_index.
    eapply returns_mono.
    + apply (returns_for_each _
        (λ done _ w1,
           fetch_calls (trace w1) =
             fetch_calls (trace w)
             ++ ((λ username,
                    (username, StateManager.get_last_tweet_id (state_manager w) username,
                     max_tweets_per_account self))
                   <$> (parse_username <$>
                          take (length done) (rotate (Z.to_nat start_index) accounts))) ∧
           StateManager.accounts (state_manager w1)
           = StateManager.accounts (state_manager w))).
      * intros done i [all_tweets any_processed] w1 Hprefix [HI Hcursors].
        apply range_next in Hprefix as [-> Hlen].
        destruct (account_in_range accounts start_index (Z.of_nat (length done)) Hne)
          as [_ [username_raw Hraw]].
        eapply returns_mono;
          [apply (fetch_account_detail _ _ _ _ _ _ _ _ _ _ username_raw Hne Hraw)|].
        intros locals' w2 (Hcalls & Hcursors2 & _). cbv beta.
        split; [|congruence].
        rewrite Hcalls, HI, length_app, Nat.add_1_r.
        rewrite (take_S_r _ _ username_raw)
          by (rewrite rotate_lookup by (lia || assumption); exact Hraw).
        rewrite !fmap_app, <- app_assoc. cbn.
        unfold StateManager.get_last_tweet_id. now rewrite Hcursors.
      * cbn. now rewrite app_nil_r.
    + intros [all_tweets any_processed] w1 [HI _]. cbv beta in HI.
      rewrite length_range, take_ge in HI by (rewrite length_rotate; lia).
      unfold returns, post. rewrite reset_for_cycling_eq.
      now destruct (_ && _ && _).
  - subst visited. apply fmap_Permutation. unfold rotate.
    rewrite Permutation_app_comm. now rewrite take_drop.
Qed.

(** X13.  A pass in which every call of the fetcher raises still
    visits every account: it returns no tweets, records one
    [tweet_fetch_error] row per account, with the account's name, in the
    order of the visit, leaves the pending queue as it was, and ends with
    the resume index at the account visited last. *)
Theorem pass_with_fetcher_raising self (accounts : list string) w :
  accounts ≠ [] →
  (∀ k username since_id max_results,
     ∃ e, tweet_fetcher k username since_id max_results = FetchRaises e) →
  let n := Z.of_nat (length accounts) in
  let start_index := ((resume_index w + 1) mod n)%Z in
  returns (_fetch_new_tweets self accounts) w
    (λ all_tweets w',
       all_tweets = [] ∧
       resume_index w' = ((start_index + (n - 1)) mod n)%Z ∧
       StateManager.pending_posts (state_manager w')
       = StateManager.pending_posts (state_manager w) ∧
       ∃ rows,
         StateManager.errors (state_manager w')
         = StateManager.errors (state_manager w) ++ rows ∧
         Forall (λ row, ErrorRow.error_type row = "tweet_fetch_error"%string) rows ∧
         ErrorRow.username <$> rows =
           Some <$> (parse_username <$> rotate (Z.to_nat start_index) accounts)).
Proof.
  intros Hne Hdown n start_index.
  pose proof (length_pos accounts Hne) as Hn. fold n in Hn.
  pose proof (Z.mod_pos_bound (resume_index w + 1) n Hn) as Hstart.
  fold start_index in Hstart.
  apply _fetch_new_tweets_returns; [exact Hne|]. fold n. fold start_index.
  eapply returns_mono.
  - apply (returns_for_each _
      (λ done locals w1,
         locals = ([], false) ∧
         (done ≠ [] →
          resume_index w1 = ((start_index + (Z.of_nat (length done) - 1)) mod n)%Z) ∧
         StateManager.pending_posts (state_manager w1)
         = StateManager.pending_posts (state_manager w) ∧
         ∃ rows,
           StateManager.errors (state_manager w1)
           = StateManager.errors (state_manager w) ++ rows ∧
           Forall (λ row, ErrorRow.error_type row = "tweet_fetch_error"%string) rows ∧
           ErrorRow.username <$> rows =
             Some <$> (parse_username <$>
                         take (length done) (rotate (Z.to_nat start_index) accounts)))).
    + intros done i locals w1 Hprefix (-> & _ & Hp & rows & He & Htypes & Hnames).
      apply range_next in Hprefix as [-> Hlen].
      destruct (account_in_range accounts start_index (Z.of_nat (length done)) Hne)
        as [_ [username_raw Hraw]].
      eapply returns_mono;
        [apply (fetch_account_detail _ _ _ _ _ _ _ _ _ _ username_raw Hne Hraw)|].
      intros locals' w2 (_ & _ & Houtcome). cbv beta.
      destruct (Hdown (clock w1) (parse_username username_raw)
                  (StateManager.get_last_tweet_id (state_manager w1)
                     (parse_username username_raw))
                  (max_tweets_per_account self)) as [e Heq].
      rewrite Heq in Houtcome. destruct Houtcome as (-> & Hindex & He2 & Hp2).
      split; [reflexivity|]. split.
      { intros _. rewrite Hindex, length_app. cbn. fold n. f_equal. lia. }
      split; [congruence|].
      eexists (rows ++ [_]). rewrite He2, He, <- app_assoc. split; [reflexivity|].
      split; [apply Forall_app; split; [exact Htypes|now repeat constructor]|].
      rewrite fmap_app, Hnames, length_app, Nat.add_1_r.
      rewrite (take_S_r _ _ username_raw)
        by (rewrite rotate_lookup by (lia || assumption); exact Hraw).
      now rewrite !fmap_app.
    + split; [reflexivity|]. split; [done|]. split; [reflexivity|].
      exists []. rewrite app_nil_r. now repeat split.
  - intros locals w1 (-> & Hindex & Hp & rows & He & Htypes & Hnames). cbv beta.
    rewrite length_range in Hindex, Hnames.
    rewrite take_ge in Hnames by (rewrite length_rotate; lia).
    unfold returns, post. rewrite reset_for_cycling_eq.
    cbn [non_empty orb andb fst snd]. rewrite andb_false_r. cbn [fst snd].
    split; [reflexivity|]. split; [|split; [exact Hp|eauto]].
    apply Hindex. now destruct accounts.
Qed.

End PassTheorems.

Lemma pass_calls_each_account_once_witness :
  let start_index := ((resume_index at_minus_one + 1) mod Z.of_nat (length abc))%Z in
  let visited := parse_username <$> rotate (Z.to_nat start_index) abc in
  returns (Pipeline._fetch_new_tweets fetcher_b_rate_limited (classifier_says "TRUE")
             one_second_per_question Pipeline.defaults abc) at_minus_one
    (λ _ w',
       fetch_calls (Pipeline.trace w') =
         fetch_calls (Pipeline.trace at_minus_one)
         ++ ((λ username,
                (username,
                 StateManager.get_last_tweet_id (Pipeline.state_manager at_minus_one) username,
                 Pipeline.max_tweets_per_account Pipeline.defaults)) <$> visited)) ∧
  visited ≡ₚ parse_username <$> abc.
Proof.
  apply (pass_calls_each_account_once fetcher_b_rate_limited (classifier_says "TRUE")
           one_second_per_question Pipeline.defaults abc at_minus_one).
  discriminate.
Defined.

Lemma pass_with_fetcher_raising_witness :
  let n := Z.of_nat (length abc) in
  let start_index := ((resume_index never_set + 1) mod n)%Z in
  returns (Pipeline._fetch_new_tweets fetcher_down (classifier_says "TRUE")
             one_second_per_question Pipeline.defaults abc) never_set
    (λ all_tweets w',
       all_tweets = [] ∧
       resume_index w' = ((start_index + (n - 1)) mod n)%Z ∧
       StateManager.pending_posts (Pipeline.state_manager w')
       = StateManager.pending_posts (Pipeline.state_manager never_set) ∧
       ∃ rows,
         StateManager.errors (Pipeline.state_manager w')
         = StateManager.errors (Pipeline.state_manager never_set) ++ rows ∧
         Forall (λ row, ErrorRow.error_type row = "tweet_fetch_error"%string) rows ∧
         ErrorRow.username <$> rows =
           Some <$> (parse_username <$> rotate (Z.to_nat start_index) abc)).
Proof.
  apply (pass_with_fetcher_raising fetcher_down (classifier_says "TRUE")
           one_second_per_question Pipeline.defaults abc never_set).
  - discriminate.
  - intros k username since_id max_results. eexists. reflexivity.
Defined.

(** ** Classification and saving *)

Section Classification.

Import Pipeline.
Local Open Scope pipeline_scope.

Variable prompt_processor : nat → Tweet.t → option Answer.t.
Variable CURRENT_TIMESTAMP : nat → Z.



End Classification.

Section Saving.

Import Pipeline.
Local Open Scope pipeline_scope.

Variable prompt_processor : nat → Tweet.t → option Answer.t.
Variable CURRENT_TIMESTAMP : nat → Z.



End Saving.

(** ** The fetcher *)

Section Fetcher.

Import TweetFetcher.

Lemma foldl_last {A B} (P : A → bool) (g : A → B) (init : B) (l : list A) :
  foldl (λ acc x, if P x then g x else acc) init l
  = from_option g init (last (filter (λ x, P x = true) l)).
Proof.
  induction l as [|x l IH] using rev_ind; [reflexivity|].
  rewrite foldl_app, filter_app, last_app. cbn [foldl].
  destruct (P x) eqn:HP.
  - rewrite filter_cons_True by exact HP. reflexivity.
  - rewrite filter_cons_False by (rewrite HP; discriminate). exact IH.
Qed.

Lemma original_tweet_lookup_spec includes key :
  original_tweet_lookup includes !! key
  = last (filter (λ original, ApiTweet.id original = key) includes).
Proof.
  unfold original_tweet_lookup.
  induction includes as [|tweet includes IH] using rev_ind; [reflexivity|].
  rewrite foldl_app, filter_app, last_app. cbn [foldl].
  destruct (decide (ApiTweet.id tweet = key)) as [Heq|Hne].
  - rewrite filter_cons_True by exact Heq. rewrite Heq, lookup_insert_eq. reflexivity.
  - rewrite filter_cons_False by exact Hne. rewrite lookup_insert_ne by exact Hne. exact IH.
Qed.

Lemma full_text_of_spec includes tweet :
  full_text_of (original_tweet_lookup includes) tweet =
  match last (filter (λ ref, (ref.1 =? "retweeted")%string = true)
                (default [] (ApiTweet.referenced_tweets tweet))) with
  | None => ApiTweet.text tweet
  | Some ref =>
      match last (filter (λ original, ApiTweet.id original = ref.2) includes) with
      | Some original_tweet => ApiTweet.text original_tweet
      | None => ApiTweet.text tweet
      end
  end.
Proof.
  unfold full_text_of.
  destruct (ApiTweet.referenced_tweets tweet) as [refs|]; [|reflexivity].
  cbn [default].
  rewrite (foldl_last (λ ref, (ref.1 =? "retweeted")%string)
             (λ ref, match original_tweet_lookup includes !! ref.2 with
                     | Some original_tweet => ApiTweet.text original_tweet
                     | None => ApiTweet.text tweet
                     end)).
  destruct (last _) as [ref|]; [|reflexivity].
  cbn [from_option]. now rewrite original_tweet_lookup_spec.
Qed.

(** X16.  Of the references of a tweet only the last one of type
    [retweeted] counts: the text of the tweet becomes the text of the
    last included tweet with that reference's id, and stays the tweet's
    own text when no included tweet has that id (also when an earlier
    [retweeted] reference could be resolved) or when the tweet has no
    [retweeted] reference. *)
Theorem full_text_of_last_retweeted includes tweet :
  full_text_of (original_tweet_lookup includes) tweet =
  match last (filter (λ ref, (ref.1 =? "retweeted")%string = true)
                (default [] (ApiTweet.referenced_tweets tweet))) with
  | None => ApiTweet.text tweet
  | Some ref =>
      match last (filter (λ original, ApiTweet.id original = ref.2) includes) with
      | Some original_tweet => ApiTweet.text original_tweet
      | None => ApiTweet.text tweet
      end
  end.
Proof. apply full_text_of_spec. Qed.

Variable _check_global_rate_limit : bool.
Variable current_time : Z.
Variable get_user_id : string → option string.
Variable session_get : TweetsRequest.t → option TweetsResponse.t.


(** X18.  The tweets [fetch_new_tweets] returns are those of the [data]
    array of a 200 response, one for one and in its order, with the id
    and creation time the API gave, the username that was asked for and
    an empty [author_id].  The text of a tweet without references is its
    own; otherwise it is its own or that of an included tweet named by
    one of its [retweeted] references. *)
Theorem fetch_new_tweets_tweets username since_id max_results tweets events :
  fetch_new_tweets _check_global_rate_limit current_time get_user_id session_get
    username since_id max_results
  = (Some tweets, events) →
  ∃ request response,
    events = [Get request] ∧ session_get request = Some response ∧
    TweetsResponse.status response = 200%Z ∧
    Forall2
      (λ api tweet,
         Tweet.id tweet = ApiTweet.id api ∧
         Tweet.created_at tweet = ApiTweet.created_at api ∧
         Tweet.username tweet = username ∧
         Tweet.author_id tweet = ""%string ∧
         (ApiTweet.referenced_tweets api = None → Tweet.text tweet = ApiTweet.text api) ∧
         (Tweet.text tweet = ApiTweet.text api ∨
          ∃ refs original_tweet,
            ApiTweet.referenced_tweets api = Some refs ∧
            ("retweeted"%string, ApiTweet.id original_tweet) ∈ refs ∧
            original_tweet ∈ TweetsResponse.includes_tweets response ∧
            Tweet.text tweet = ApiTweet.text original_tweet))
      (TweetsResponse.data response) tweets.
Proof.
  unfold fetch_new_tweets, get_user_tweets.
  destruct _check_global_rate_limit; [discriminate|].
  destruct (get_user_id username) as [[|c user_id]|]; try discriminate.
  set (request :=
         TweetsRequest.mk _ _ "created_at,text,referenced_tweets" "referenced_tweets.id" _).
  destruct (session_get request) as [response|] eqn:Hget; [|discriminate].
  destruct (Z.eqb_spec (TweetsResponse.status response) 429) as [H429|H429].
  { destruct (_parse_rate_limit_headers current_time response) as [wait_time|];
      [destruct (wait_time =? 0)%Z|]; discriminate. }
  destruct (Z.eqb_spec (TweetsResponse.status response) 200) as [H200|H200];
    [|discriminate].
  cbn [negb]. intros [= <- <-].
  exists request, response. repeat split; try assumption.
  rewrite <- !list_fmap_compose. apply Forall2_fmap_r, Forall_Forall2_diag, Forall_forall.
  intros api _. cbn.
  repeat split.
  - intros Hnone. unfold full_text_of. now rewrite Hnone.
  - rewrite full_text_of_spec.
    destruct (ApiTweet.referenced_tweets api) as [refs|] eqn:Hrefs; [|now left].
    change (default [] (Some refs)) with refs.
    destruct (last (filter (λ ref, (ref.1 =? "retweeted")%string = true) refs))
      as [ref|] eqn:Hlast; [|now left].
    destruct (last (filter (λ original, ApiTweet.id original = ref.2)
                      (TweetsResponse.includes_tweets response)))
      as [original_tweet|] eqn:Horiginal; [|now left].
    right. exists refs, original_tweet.
    apply last_Some in Hlast as [refs' Hlast].
    apply last_Some in Horiginal as [includes' Horiginal].
    assert (Href : ref ∈ filter (λ ref, (ref.1 =? "retweeted")%string = true) refs).
    { rewrite Hlast. apply elem_of_app. right. left. }
    assert (Hin : original_tweet ∈
              filter (λ original, ApiTweet.id original = ref.2)
                (TweetsResponse.includes_tweets response)).
    { rewrite Horiginal. apply elem_of_app. right. left. }
    apply list_elem_of_filter in Href as [Htype Href].
    apply list_elem_of_filter in Hin as [Hid Hin].
    apply String.eqb_eq in Htype.
    repeat split; try assumption.
    destruct ref as [type id]. cbn in *. now subst.
Qed.

End Fetcher.

Lemma fetch_new_tweets_tweets_witness :
  ∃ request response,
    [TweetFetcher.Get
       (TweetsRequest.mk "https://api.twitter.com/2/users/42/tweets" 10
          "created_at,text,referenced_tweets" "referenced_tweets.id" None)]
    = [TweetFetcher.Get request] ∧
    (λ _, Some timeline) request = Some response ∧
    TweetsResponse.status response = 200%Z ∧
    Forall2
      (λ api tweet,
         Tweet.id tweet = ApiTweet.id api ∧
         Tweet.created_at tweet = ApiTweet.created_at api ∧
         Tweet.username tweet = "a"%string ∧
         Tweet.author_id tweet = ""%string ∧
         (ApiTweet.referenced_tweets api = None → Tweet.text tweet = ApiTweet.text api) ∧
         (Tweet.text tweet = ApiTweet.text api ∨
          ∃ refs original_tweet,
            ApiTweet.referenced_tweets api = Some refs ∧
            ("retweeted"%string, ApiTweet.id original_tweet) ∈ refs ∧
            original_tweet ∈ TweetsResponse.includes_tweets response ∧
            Tweet.text tweet = ApiTweet.text original_tweet))
      (TweetsResponse.data response)
      [Tweet.mk "12" "cut short no more" "a" "2024-01-02" "";
       Tweet.mk "11" "own words" "a" "2024-01-01" ""].
Proof.
  apply (fetch_new_tweets_tweets false 1000 user_42 (λ _, Some timeline) "a" None 10).
  reflexivity.
Defined.

Section RateLimit.

Import TweetFetcher.

Variable current_time : Z.
Variable get_user_id : string → option string.

(** X19.  When the API answers 429 with a non-empty
    [x-rate-limit-reset] header, the call returns [None] after setting a
    global rate limit of a positive duration: the seconds from now to
    the reset time when the header is a number in the future, and 900
    otherwise.  The [retry-after] header plays no part, not even when
    the reset header cannot be read. *)
Theorem rate_limit_follows_reset_header username since_id max_results user_id response
    reset :
  get_user_id username = Some user_id → user_id ≠ ""%string →
  TweetsResponse.status response = 429%Z →
  TweetsResponse.x_rate_limit_reset response = Some reset → reset ≠ ""%string →
  ∃ request duration_seconds,
    fetch_new_tweets false current_time get_user_id (λ _, Some response)
      username since_id max_results
    = (None, [Get request; SetGlobalRateLimit duration_seconds]) ∧
    (0 < duration_seconds)%Z ∧
    duration_seconds =
      match int reset with
      | Some reset_timestamp =>
          if (current_time <? reset_timestamp)%Z then (reset_timestamp - current_time)%Z
          else 900%Z
      | None => 900%Z
      end.
Proof.
  intros Hid Hne H429 Hreset Hreset_ne.
  unfold fetch_new_tweets, get_user_tweets. rewrite Hid.
  destruct user_id as [|c user_id]; [contradiction|].
  rewrite H429. cbn [Z.eqb Pos.eqb].
  unfold _parse_rate_limit_headers. rewrite Hreset.
  destruct reset as [|c' reset]; [contradiction|]. cbn [truthy].
  change (default ""%string (Some (String c' reset))) with (String c' reset).
  destruct (int (String c' reset)) as [reset_timestamp|].
  - destruct (Z.ltb_spec current_time reset_timestamp).
    + destruct (Z.eqb_spec (Z.max 0 (reset_timestamp - current_time)) 0); [lia|].
      eexists _, _. split; [reflexivity|]. lia.
    + destruct (Z.eqb_spec (Z.max 0 (reset_timestamp - current_time)) 0); [|lia].
      eexists _, _. split; [reflexivity|]. lia.
  - eexists _, _. split; [reflexivity|]. lia.
Qed.

End RateLimit.

Lemma rate_limit_follows_reset_header_witness :
  ∃ request duration_seconds,
    TweetFetcher.fetch_new_tweets false 1000 user_42 (λ _, Some too_many_requests)
      "a" None 10
    = (None, [TweetFetcher.Get request; TweetFetcher.SetGlobalRateLimit duration_seconds]) ∧
    (0 < duration_seconds)%Z ∧
    duration_seconds =
      match int "1700" with
      | Some reset_timestamp =>
          if (1000 <? reset_timestamp)%Z then (reset_timestamp - 1000)%Z else 900%Z
      | None => 900%Z
      end.
Proof.
  apply (rate_limit_follows_reset_header 1000 user_42 "a" None 10 "42" too_many_requests
           "1700"); (reflexivity || discriminate).
Defined.

(** ** Account handles *)

Section Strings.

Lemma append_cons x (a b : string) : String x a +:+ b = String x (a +:+ b).
Proof. reflexivity. Qed.


Lemma append_assoc (a b c : string) : (a +:+ b) +:+ c = a +:+ (b +:+ c).
Proof. induction a as [|x a IH]; [reflexivity|]. rewrite !append_cons. now rewrite IH. Qed.


Lemma length_append (a b : string) :
  String.length (a +:+ b) = String.length a + String.length b.
Proof.
  induction a as [|x a IH]; [reflexivity|]. rewrite append_cons. cbn [String.length]. now rewrite IH.
Qed.

Lemma string_forall_app p a b :
  string_forall p (a +:+ b) = string_forall p a && string_forall p b.
Proof.
  induction a as [|x a IH]; [reflexivity|]. rewrite append_cons. cbn [string_forall]. rewrite IH.
  now destruct (p x).
Qed.


Lemma rev_string_onto_spec s acc : rev_string_onto s acc = rev_string s +:+ acc.
Proof.
  unfold rev_string. revert acc.
  induction s as [|x s IH]; intros acc; [reflexivity|]. cbn [rev_string_onto].
  rewrite (IH (String x acc)), (IH (String x "")), append_assoc. reflexivity.
Qed.

Lemma rev_string_cons x s : rev_string (String x s) = rev_string s +:+ String x "".
Proof. unfold rev_string at 1. cbn. apply rev_string_onto_spec. Qed.



Lemma string_forall_rev p s : string_forall p (rev_string s) = string_forall p s.
Proof.
  induction s as [|x s IH]; [reflexivity|].
  rewrite rev_string_cons, string_forall_app, IH. cbn.
  destruct (p x), (string_forall p s); reflexivity.
Qed.

Lemma string_forall_lstrip_by q p s :
  string_forall q s = true → string_forall q (lstrip_by p s) = true.
Proof.
  induction s as [|x s IH]; [reflexivity|]. cbn [lstrip_by].
  destruct (p x); [|exact id]. cbn. intros [_ Hs]%andb_prop. exact (IH Hs).
Qed.

Lemma string_forall_rstrip_by q p s :
  string_forall q s = true → string_forall q (rstrip_by p s) = true.
Proof.
  intros Hs. unfold rstrip_by. rewrite string_forall_rev.
  apply string_forall_lstrip_by. now rewrite string_forall_rev.
Qed.

Lemma string_forall_drop_string q n s :
  string_forall q s = true → string_forall q (drop_string n s) = true.
Proof.
  revert s. induction n as [|n IH]; intros [|x s]; cbn; try exact id.
  intros [_ Hs]%andb_prop. exact (IH _ Hs).
Qed.

Lemma string_forall_take_while q p n s :
  string_forall q s = true → string_forall q (take_while p n s) = true.
Proof.
  revert s. induction n as [|n IH]; intros [|x s]; cbn; try reflexivity.
  intros [Hx Hs]%andb_prop. destruct (p x); [|reflexivity]. cbn.
  now rewrite Hx, (IH _ Hs).
Qed.

Lemma string_forall_split_head q sep s :
  string_forall q s = true → string_forall q (split_head sep s) = true.
Proof.
  induction s as [|x s IH]; [reflexivity|]. cbn.
  intros [Hx Hs]%andb_prop. destruct (Ascii.eqb x sep); [reflexivity|]. cbn.
  now rewrite Hx, (IH Hs).
Qed.

Lemma string_forall_after_domain q s r :
  string_forall q s = true → after_domain s = Some r → string_forall q r = true.
Proof.
  intros Hs. unfold after_domain.
  destruct (String.prefix "twitter.com/" s);
    [|destruct (String.prefix "x.com/" s); [|discriminate]];
    intros Heq; apply (inj Some) in Heq; rewrite <- Heq;
    now apply string_forall_drop_string.
Qed.

Lemma string_forall_search_url q in_class s r :
  string_forall q s = true → search_url in_class s = Some r → string_forall q r = true.
Proof.
  induction s as [|x s IH]; intros Hs.
  - cbn. discriminate.
  - cbn [search_url].
    destruct (after_domain (String x s)) as [[|c rest]|] eqn:Hdomain.
    + apply IH. cbn in Hs. now apply andb_prop in Hs as [_ Hs].
    + destruct (in_class c).
      * intros [= <-]. exact (string_forall_after_domain _ _ _ Hs Hdomain).
      * apply IH. cbn in Hs. now apply andb_prop in Hs as [_ Hs].
    + apply IH. cbn in Hs. now apply andb_prop in Hs as [_ Hs].
Qed.

Lemma is_upper_lower_char c : is_upper (lower_char c) = false.
Proof. destruct c as [[] [] [] [] [] [] [] []]; reflexivity. Qed.

Lemma string_forall_lower s : string_forall (λ c, negb (is_upper c)) (lower s) = true.
Proof.
  induction s as [|x s IH]; [reflexivity|].
  change (negb (is_upper (lower_char x))
          && string_forall (λ c, negb (is_upper c)) (lower s) = true).
  now rewrite is_upper_lower_char, IH.
Qed.

Lemma parse_username_no_upper url_or_username :
  string_forall (λ c, negb (is_upper c)) (parse_username url_or_username) = true.
Proof.
  unfold parse_username, search_url_patterns.
  pose proof (string_forall_lower (strip url_or_username)) as Hlower.
  destruct (search_url is_handle_char _) as [r|] eqn:Hfirst.
  - apply string_forall_split_head, string_forall_rstrip_by, string_forall_take_while.
    exact (string_forall_search_url _ _ _ _ Hlower Hfirst).
  - destruct (search_url is_path_char _) as [r|] eqn:Hsecond.
    + apply string_forall_split_head, string_forall_rstrip_by, string_forall_take_while.
      exact (string_forall_search_url _ _ _ _ Hlower Hsecond).
    + now apply string_forall_lstrip_by.
Qed.

(** X20.  A handle that [parse_username] returns never contains an
    upper-case letter, whatever the cell of the sheet looked like: the
    cursors of the store are kept under lower-case names. *)
Theorem parse_username_lowercase url_or_username :
  string_forall (λ c, negb (is_upper c)) (parse_username url_or_username) = true.
Proof. apply parse_username_no_upper. Qed.

End Strings.

Section Handles.





























End Handles.


(** ** Delivery *)

Section Notifier.

Import DiscordNotifier.

Variable session_post : Z → string → string → option Z.

Lemma _send_message_true self attempt message :
  _send_message session_post self attempt message = true
  ↔ session_post attempt (webhook_url self) message = Some 204%Z.
Proof.
  unfold _send_message. destruct (session_post _ _ _) as [status|].
  - rewrite Z.eqb_eq. split; [now intros ->|now intros [= ->]].
  - split; discriminate.
Qed.

Lemma send_attempts_fail self message n i m :
  max_retries self = Z.of_nat n → i + m = n →
  (∀ j, i ≤ j < n → _send_message session_post self (Z.of_nat j) message = false) →
  send_attempts session_post self message (Z.of_nat <$> seq i m)
  = (false, attempts_trace (Post (webhook_url self) message) (Sleep (retry_delay self)) m).
Proof.
  intros Hn. revert i. induction m as [|m IH]; intros i Him Hfail; [reflexivity|].
  cbn [seq fmap list_fmap send_attempts].
  rewrite Hfail by lia. rewrite (IH (S i)) by (try lia; intros j Hj; apply Hfail; lia).
  rewrite Hn. cbn [attempts_trace]. destruct m as [|m].
  - destruct (Z.ltb_spec (Z.of_nat i) (Z.of_nat n - 1)); [lia|reflexivity].
  - destruct (Z.ltb_spec (Z.of_nat i) (Z.of_nat n - 1)); [reflexivity|lia].
Qed.

Lemma send_attempts_succeed self message n i m k :
  max_retries self = Z.of_nat n → i + m = n → i ≤ k < n →
  (∀ j, i ≤ j < k → _send_message session_post self (Z.of_nat j) message = false) →
  _send_message session_post self (Z.of_nat k) message = true →
  send_attempts session_post self message (Z.of_nat <$> seq i m)
  = (true, attempts_trace (Post (webhook_url self) message) (Sleep (retry_delay self))
             (S (k - i))).
Proof.
  intros Hn. revert i. induction m as [|m IH]; intros i Him Hk Hfail Hsuccess; [lia|].
  cbn [seq fmap list_fmap send_attempts].
  destruct (decide (i = k)) as [->|Hne].
  - rewrite Hsuccess. now replace (k - k) with 0 by lia.
  - rewrite Hfail by lia.
    rewrite (IH (S i)) by (try lia; try assumption; intros j Hj; apply Hfail; lia).
    rewrite Hn. destruct (Z.ltb_spec (Z.of_nat i) (Z.of_nat n - 1)); [|lia].
    replace (k - i) with (S (k - S i)) by lia. reflexivity.
Qed.

Lemma send_alert_result self tweet_data summary :
  (send_alert session_post self tweet_data summary).1 = true
  ↔ ∃ attempt, (0 ≤ attempt < max_retries self)%Z ∧
               session_post attempt (webhook_url self)
                 (format_discord_message tweet_data summary) = Some 204%Z.
Proof.
  unfold send_alert. set (message := format_discord_message tweet_data summary).
  set (n := Z.to_nat (max_retries self)).
  assert (Hmax : n ≠ 0 → max_retries self = Z.of_nat n) by (subst n; lia).
  assert (Hdecide : (∀ j, j < n → _send_message session_post self (Z.of_nat j) message = false)
                    ∨ ∃ k, k < n ∧
                        (∀ j, j < k →
                              _send_message session_post self (Z.of_nat j) message = false) ∧
                        _send_message session_post self (Z.of_nat k) message = true).
  { clear Hmax. induction n as [|m [IH|IH]].
    - left. lia.
    - destruct (_send_message session_post self (Z.of_nat m) message) eqn:Hm.
      + right. exists m. split; [lia|]. split; [intros j Hj; apply IH; lia|exact Hm].
      + left. intros j Hj. destruct (decide (j = m)) as [->|]; [exact Hm|apply IH; lia].
    - right. destruct IH as (k & Hk & Hfail & Hsuccess). exists k. split; [lia|]. now split. }
  unfold Pipeline.range. change (map Z.of_nat (seq 0 n)) with (Z.of_nat <$> seq 0 n).
  destruct Hdecide as [Hfail|(k & Hk & Hfail & Hsuccess)].
  - destruct n as [|n'] eqn:Hn'.
    + split; [discriminate|]. intros (attempt & Hattempt & _). lia.
    + rewrite (send_attempts_fail self message (S n') 0 (S n')) by
        (try (apply Hmax; lia); try lia; intros j Hj; apply Hfail; lia).
      split; [discriminate|]. intros (attempt & Hattempt & Hpost).
      apply _send_message_true in Hpost.
      rewrite <- (Z2Nat.id attempt), Hfail in Hpost by lia. discriminate.
  - rewrite (send_attempts_succeed self message n 0 n k) by
      (try (apply Hmax; lia); try lia; try assumption; intros j Hj; apply Hfail; lia).
    split; [|reflexivity]. intros _. exists (Z.of_nat k).
    split; [lia|]. now apply _send_message_true.
Qed.

(** X22.  [send_alert] posts the same formatted message at every
    attempt and stops at the first attempt the webhook answers with
    204.  When attempt [k] is the first to succeed it returns [True]
    after [k+1] posts with a pause of [retry_delay] between them; when
    all [max_retries] attempts fail it returns [False] after
    [max_retries] posts, without a pause after the last; with
    [max_retries] at most 0 it posts nothing and returns [False]. *)
Theorem send_alert_attempts self tweet_data summary :
  let message := format_discord_message tweet_data summary in
  let n := Z.to_nat (max_retries self) in
  let post := Post (webhook_url self) message in
  let pause := Sleep (retry_delay self) in
  (∀ k, k < n →
        (∀ j, j < k → session_post (Z.of_nat j) (webhook_url self) message ≠ Some 204%Z) →
        session_post (Z.of_nat k) (webhook_url self) message = Some 204%Z →
        send_alert session_post self tweet_data summary
        = (true, attempts_trace post pause (S k))) ∧
  ((∀ j, j < n → session_post (Z.of_nat j) (webhook_url self) message ≠ Some 204%Z) →
   send_alert session_post self tweet_data summary = (false, attempts_trace post pause n)) ∧
  ((max_retries self ≤ 0)%Z →
   send_alert session_post self tweet_data summary = (false, [])).
Proof.
  intros message n post pause.
  assert (Hmax : n ≠ 0 → max_retries self = Z.of_nat n) by (subst n; lia).
  assert (Hfalse : ∀ j, session_post (Z.of_nat j) (webhook_url self) message ≠ Some 204%Z →
                        _send_message session_post self (Z.of_nat j) message = false).
  { intros j Hj. destruct (_send_message _ _ _ _) eqn:H; [|reflexivity].
    now apply _send_message_true in H. }
  unfold send_alert, Pipeline.range.
  change (map Z.of_nat (seq 0 (Z.to_nat (max_retries self)))) with (Z.of_nat <$> seq 0 n).
  fold message. split; [|split].
  - intros k Hk Hfail Hsuccess.
    rewrite (send_attempts_succeed self message n 0 n k);
      [now rewrite Nat.sub_0_r|apply Hmax; lia|lia|lia| |now apply _send_message_true].
    intros j Hj. apply Hfalse, Hfail. lia.
  - intros Hfail. destruct (decide (n = 0)) as [->|Hn]; [reflexivity|].
    apply (send_attempts_fail self message n 0 n); [now apply Hmax|lia|].
    intros j Hj. apply Hfalse, Hfail. lia.
  - intros Hle. now replace n with 0 by (subst n; lia).
Qed.

Variable config : Pipeline.Result string.

(** X23.  The posting script exits with 0 or 1.  It exits with 0
    exactly when its set-up succeeded and either nothing was pending or
    the webhook answered one of the three attempts to post the newest
    pending row with 204; the store then lacks that row and is
    otherwise as before.  Whenever it exits with 1 (set-up failed, or
    all three attempts failed) the store is unchanged. *)
Theorem script_exit_code state_manager :
  let result := PostLatestScript.main session_post config state_manager in
  (result.1.1 = 0%Z ∨ result.1.1 = 1%Z) ∧
  (result.1.1 = 0%Z ↔
     ∃ discord_webhook_url,
       config = Pipeline.Ok discord_webhook_url ∧
       match StateManager.get_latest_pending_post state_manager with
       | None => True
       | Some latest_post =>
           ∃ attempt, (0 ≤ attempt < 3)%Z ∧
             session_post attempt discord_webhook_url
               (format_discord_message (PostLatest.tweet_data_of latest_post)
                  (PendingPost.ai_summary latest_post)) = Some 204%Z
       end) ∧
  (result.1.1 = 0%Z →
     result.1.2 =
       match StateManager.get_latest_pending_post state_manager with
       | None => state_manager
       | Some latest_post =>
           StateManager.delete_pending_post (PendingPost.tweet_id latest_post) state_manager
       end) ∧
  (result.1.1 = 1%Z → result.1.2 = state_manager).
Proof.
  intros result. subst result.
  unfold PostLatestScript.main, PostLatestScript.post_latest_pending.
  destruct config as [discord_webhook_url|e].
  2: { cbn. split_and!; [now right| |discriminate|reflexivity].
       split; [discriminate|]. intros (? & ? & _). discriminate. }
  unfold PostLatest.post_latest_pending.
  destruct (StateManager.get_latest_pending_post state_manager) as [latest_post|].
  2: { cbn. split_and!; [now left| |reflexivity|discriminate].
       split; [|reflexivity]. intros _. now exists discord_webhook_url. }
  pose proof (send_alert_result (DiscordNotifier.__init__ discord_webhook_url)
                (PostLatest.tweet_data_of latest_post)
                (PendingPost.ai_summary latest_post)) as Hresult.
  change (max_retries (DiscordNotifier.__init__ discord_webhook_url)) with 3%Z in Hresult.
  change (webhook_url (DiscordNotifier.__init__ discord_webhook_url))
    with discord_webhook_url in Hresult.
  destruct (send_alert session_post _ _ _).1 eqn:Hsent.
  - cbn. split_and!; [now left| |reflexivity|discriminate].
    split; [|reflexivity]. intros _. exists discord_webhook_url.
    split; [reflexivity|]. now apply Hresult.
  - cbn. split_and!; [now right| |discriminate|reflexivity].
    split; [discriminate|]. intros (url & [= <-] & Hdelivered).
    apply Hresult in Hdelivered. discriminate.
Qed.

End Notifier.

Section Message.

Lemma length_substring_0 m s : String.length (String.substring 0 m s) ≤ m.
Proof.
  revert s. induction m as [|m IH]; intros [|c s]; cbn; try lia.
  specialize (IH s). lia.
Qed.

(** X24.  A message never carries more of a tweet than its first 200
    characters and an ellipsis: two tweets longer than 200 characters
    that agree on their first 200 give the same message.  The length of
    the message is bounded by the lengths of the username (twice), the
    tweet id, the summary and the creation time plus 316, whatever the
    length of the tweet. *)
Theorem format_discord_message_excerpt tweet_id tweet_text username created_at summary :
  let tweet_data := TweetData.mk tweet_id tweet_text username created_at in
  String.length (format_discord_message tweet_data summary)
  ≤ 316 + 2 * String.length username + String.length tweet_id
    + String.length summary + String.length created_at ∧
  ∀ longer_text,
    200 < String.length tweet_text → 200 < String.length longer_text →
    String.substring 0 200 longer_text = String.substring 0 200 tweet_text →
    format_discord_message (TweetData.mk tweet_id longer_text username created_at) summary
    = format_discord_message tweet_data summary.
Proof.
  intros tweet_data. subst tweet_data. split.
  - unfold format_discord_message.
    cbn [TweetData.id TweetData.text TweetData.username TweetData.created_at].
    pose proof (length_substring_0 200 tweet_text) as Hexcerpt.
    destruct (shows_posted created_at), (200 <? String.length tweet_text)%nat;
      rewrite !length_append; cbn [String.length newline]; lia.
  - intros longer_text Hlong Hlonger Hsame. unfold format_discord_message.
    cbn [TweetData.id TweetData.text TweetData.username TweetData.created_at].
    rewrite Hsame.
    apply Nat.ltb_lt in Hlong, Hlonger. now rewrite Hlong, Hlonger.
Qed.

End Message.

(** ** The sheet *)

Section Sheet.

Import SheetsManager.

Lemma add_account_cases accounts value :
  (add_account accounts value = accounts ∧ parse_username (strip value) = ""%string) ∨
  (add_account accounts value = accounts ++ [parse_username (strip value)] ∧
   parse_username (strip value) ≠ ""%string).
Proof.
  unfold add_account. destruct value as [|c value].
  { left. split; reflexivity. }
  destruct (strip (String c value)) as [|c' stripped] eqn:Hstrip.
  { left. split; reflexivity. }
  destruct (parse_username (String c' stripped)) as [|c'' clean].
  - left. split; reflexivity.
  - right. split; [reflexivity|discriminate].
Qed.

(** X25.  From a readable sheet [get_monitored_accounts] returns the
    handles of column A below the header row, in the order of the rows:
    each row whose cell parses to a non-empty handle contributes that
    handle, every other row nothing, and the first row never counts,
    whatever it holds.  No handle returned is empty or contains an
    upper-case letter. *)
Theorem get_monitored_accounts_column all_values :
  ∃ accounts,
    get_monitored_accounts (Pipeline.Ok (Some all_values)) = Pipeline.Ok accounts ∧
    accounts =
      filter (λ clean_username, clean_username ≠ ""%string)
        ((λ value, parse_username (strip value)) <$> drop 1 all_values) ∧
    length accounts ≤ length all_values - 1 ∧
    Forall (λ clean_username,
              clean_username ≠ ""%string ∧
              string_forall (λ c, negb (is_upper c)) clean_username = true)
           accounts.
Proof.
  eexists. split; [reflexivity|].
  assert (Hfold : ∀ values,
            foldl add_account [] values
            = filter (λ clean_username, clean_username ≠ ""%string)
                ((λ value, parse_username (strip value)) <$> values)).
  { intros values. induction values as [|value values IH] using rev_ind; [reflexivity|].
    rewrite foldl_app, fmap_app, filter_app. cbn [foldl fmap list_fmap]. rewrite IH.
    destruct (add_account_cases
                (filter (λ clean_username, clean_username ≠ ""%string)
                   ((λ value, parse_username (strip value)) <$> values)) value)
      as [[-> Hempty]|[-> Hclean]].
    - rewrite filter_cons_False by (intros H; now apply H).
      now rewrite filter_nil, app_nil_r.
    - now rewrite filter_cons_True by exact Hclean. }
  rewrite Hfold. split; [reflexivity|]. split.
  - etransitivity; [apply length_filter|]. now rewrite length_fmap, length_drop.
  - apply Forall_forall. intros clean_username [Hclean Hin]%list_elem_of_filter.
    split; [exact Hclean|].
    apply list_elem_of_fmap in Hin as (value & -> & _).
    apply parse_username_no_upper.
Qed.

End Sheet.

(** ** User ids and the global rate limit *)

Section UserIds.

Import TweetFetcherState.

Variable Time : Type.
Variable time_lt : Time → Time → bool.
Variable time_add : Time → Z → Time.

Local Abbreviation get_user_id := (get_user_id time_lt time_add).

(** X26.  The cache of user ids only grows, and only by non-empty ids:
    a call of [get_user_id] never drops or replaces an entry.  A name
    that is cached is answered from the cache with no request and no
    sleep, also while the global rate limit runs; and once a call has
    returned a non-empty id, every later call for that name returns the
    same id in that way, whatever the clock and the API say then. *)
Theorem get_user_id_cache time_checked current_time time_set session_get self username :
  let call := get_user_id time_checked current_time time_set session_get self username in
  (∀ name cached, _user_id_cache self !! name = Some cached →
                  _user_id_cache call.1.2 !! name = Some cached) ∧
  (∀ name, _user_id_cache call.1.2 !! name = Some ""%string →
           _user_id_cache self !! name = Some ""%string) ∧
  (∀ cached, _user_id_cache self !! username = Some cached →
             call = (Some cached, self, [])) ∧
  (∀ user_id, call.1.1 = Some user_id → user_id ≠ ""%string →
     ∀ time_checked' current_time' time_set' session_get',
       get_user_id time_checked' current_time' time_set' session_get' call.1.2 username
       = (Some user_id, call.1.2, [])).
Proof.
  intros call. subst call. unfold TweetFetcherState.get_user_id.
  destruct (_user_id_cache self !! username) as [cached|] eqn:Hcached.
  { cbn [fst snd]. split_and!; try done.
    - now intros ? [= <-].
    - intros user_id [= <-] _ ? ? ? ?. now rewrite Hcached. }
  destruct (_check_global_rate_limit time_lt time_checked self).
  { cbn [fst snd]. split_and!; try done. }
  destruct (session_get _) as [response|]; [|cbn [fst snd]; split_and!; done].
  destruct (UserResponse.status response =? 200)%Z.
  - destruct (UserResponse.id response) as [[|c user_id]|];
      cbn [TweetFetcher.truthy fst snd];
    [split_and!; try done; now intros ? [= <-] ?| |split_and!; done].
    cbn [_user_id_cache default from_option id]. split_and!; [| |done|].
    + intros name cached Hname. rewrite lookup_insert_ne; [exact Hname|].
      intros <-. congruence.
    + intros name Hname. destruct (decide (username = name)) as [<-|Hne].
      * rewrite lookup_insert_eq in Hname. discriminate.
      * now rewrite lookup_insert_ne in Hname.
    + intros ? [= <-] _ ? ? ? ?. now rewrite lookup_insert_eq.
  - destruct (UserResponse.status response =? 404)%Z; [cbn [fst snd]; split_and!; done|].
    destruct (UserResponse.status response =? 429)%Z; cbn [fst snd]; split_and!; done.
Qed.

(** X27.  A call that sets the global rate limit was answered with 429:
    it returns [None], caches nothing, and sets the limit to end
    [duration_seconds] after the clock reading of that moment, with a
    duration that is never 0.  Until the clock reaches that end, a call
    for a name that is not cached sends no request: it sleeps 1200
    seconds and returns [None], leaving the fetcher as it is. *)
Theorem get_user_id_cooldown time_checked current_time time_set session_get self username
    result self' events duration_seconds :
  get_user_id time_checked current_time time_set session_get self username
  = (result, self', events) →
  SetGlobalRateLimit duration_seconds ∈ events →
  result = None ∧ duration_seconds ≠ 0%Z ∧
  _user_id_cache self' = _user_id_cache self ∧
  _rate_limit_until self' = time_add time_set duration_seconds ∧
  (∃ response,
     session_get (TweetFetcher.base_url +:+ "/users/by/username/" +:+ username)%string
     = Some response ∧ UserResponse.status response = 429%Z) ∧
  ∀ time_checked' current_time' time_set' session_get' other,
    _user_id_cache self !! other = None →
    time_lt time_checked' (time_add time_set duration_seconds) = true →
    get_user_id time_checked' current_time' time_set' session_get' self' other
    = (None, self', [Sleep 1200]).
Proof.
  unfold TweetFetcherState.get_user_id.
  destruct (_user_id_cache self !! username) as [cached|].
  { intros [= <- <- <-] H. inversion H. }
  destruct (_check_global_rate_limit time_lt time_checked self).
  { intros [= <- <- <-] H. apply list_elem_of_singleton in H. discriminate. }
  destruct (session_get _) as [response|] eqn:Hget.
  2: { intros [= <- <- <-] H. apply list_elem_of_singleton in H. discriminate. }
  destruct (UserResponse.status response =? 200)%Z.
  { destruct (TweetFetcher.truthy (UserResponse.id response));
      intros [= <- <- <-] H; apply list_elem_of_singleton in H; discriminate. }
  destruct (UserResponse.status response =? 404)%Z.
  { intros [= <- <- <-] H. apply list_elem_of_singleton in H. discriminate. }
  destruct (Z.eqb_spec (UserResponse.status response) 429) as [H429|H429].
  2: { intros [= <- <- <-] H. apply list_elem_of_singleton in H. discriminate. }
  intros [= <- <- <-] H.
  apply elem_of_cons in H as [H|H]; [discriminate|].
  apply list_elem_of_singleton in H. injection H as ->.
  split; [reflexivity|]. split.
  { destruct (TweetFetcher._parse_rate_limit_headers _ _) as [wait_time|]; [|done].
    now destruct (Z.eqb_spec wait_time 0). }
  split; [reflexivity|]. split; [reflexivity|]. split; [now exists response|].
  intros time_checked' current_time' time_set' session_get' other Hother Hbefore.
  unfold _check_global_rate_limit, _set_global_rate_limit.
  cbn [_user_id_cache _rate_limit_until]. now rewrite Hother, Hbefore.
Qed.

End UserIds.

Lemma get_user_id_cooldown_witness :
  (None : option string) = None ∧ 900%Z ≠ 0%Z ∧
  TweetFetcherState._user_id_cache
    (TweetFetcherState._set_global_rate_limit Z.add 1000%Z 900%Z fresh_fetcher)
  = TweetFetcherState._user_id_cache fresh_fetcher ∧
  TweetFetcherState._rate_limit_until
    (TweetFetcherState._set_global_rate_limit Z.add 1000%Z 900%Z fresh_fetcher)
  = (1000 + 900)%Z ∧
  (∃ response,
     lookup_limited (TweetFetcher.base_url +:+ "/users/by/username/" +:+ "a")%string
     = Some response ∧ UserResponse.status response = 429%Z) ∧
  ∀ time_checked' current_time' time_set' session_get' other,
    TweetFetcherState._user_id_cache fresh_fetcher !! other = None →
    (time_checked' <? 1000 + 900)%Z = true →
    TweetFetcherState.get_user_id Z.ltb Z.add time_checked' current_time' time_set'
      session_get'
      (TweetFetcherState._set_global_rate_limit Z.add 1000%Z 900%Z fresh_fetcher) other
    = (None, TweetFetcherState._set_global_rate_limit Z.add 1000%Z 900%Z fresh_fetcher,
       [TweetFetcherState.Sleep 1200]).
Proof.
  apply (get_user_id_cooldown Z Z.ltb Z.add 1000%Z 1000%Z 1000%Z lookup_limited fresh_fetcher "a"
           None (TweetFetcherState._set_global_rate_limit Z.add 1000%Z 900%Z fresh_fetcher)
           [TweetFetcherState.Get
              (TweetFetcher.base_url +:+ "/users/by/username/" +:+ "a")%string;
            TweetFetcherState.SetGlobalRateLimit 900]
           900%Z).
  - reflexivity.
  - right. left.
Defined.

(** ** The main loop *)

Section MainLoop.

Import Pipeline.
Local Open Scope pipeline_scope.

Variable get_monitored_accounts : nat → Result (list string).
Variable tweet_fetcher : nat → string → option string → Z → FetchOutcome.
Variable prompt_processor : nat → Tweet.t → option Answer.t.
Variable CURRENT_TIMESTAMP : nat → Z.
Variable _check_global_rate_limit : nat → bool.

Local Abbreviation run_pipeline_round :=
  (Main.run_pipeline_round get_monitored_accounts tweet_fetcher prompt_processor
     CURRENT_TIMESTAMP _check_global_rate_limit).
Local Abbreviation run_pipeline :=
  (Main.run_pipeline get_monitored_accounts tweet_fetcher prompt_processor
     CURRENT_TIMESTAMP _check_global_rate_limit).

Lemma run_pipeline_round_spec pipeline w :
  ∃ w' events,
    run_pipeline_round pipeline w = (Ok (), w') ∧
    trace w' = trace w ++ events ++ [Sleep 1200] ∧
    grows w w' ∧
    (_check_global_rate_limit (clock w) = true →
     events = [] ∧ state_manager w' = state_manager w).
Proof.
  unfold Main.run_pipeline_round, try_except, bind at 1, tick.
  destruct (_check_global_rate_limit (clock w)) eqn:Hcheck.
  { eexists _, []. split; [reflexivity|]. split; [reflexivity|].
    split; [|done]. repeat split; cbn; try done. now apply prefix_app_r. }
  unfold bind.
  pose proof (keeps_run get_monitored_accounts tweet_fetcher prompt_processor
                CURRENT_TIMESTAMP grows grows_refl grows_trans grows_tick grows_emit
                (grows_set_index CURRENT_TIMESTAMP) (grows_log_error CURRENT_TIMESTAMP)
                (grows_save CURRENT_TIMESTAMP) (grows_update CURRENT_TIMESTAMP) pipeline
                (mkWorld (state_manager w) (S (clock w)) (trace w))) as Hrun.
  destruct (run _ _ _ _ _ _) as [r w1]. cbn [snd] in Hrun.
  destruct (Hrun) as (_ & _ & [events Htrace] & _). cbn [trace] in Htrace.
  assert (Hgrows : grows w (mkWorld (state_manager w1) (clock w1) (trace w1 ++ [Sleep 1200]))).
  { apply (grows_trans _ (mkWorld (state_manager w) (S (clock w)) (trace w)));
      [now repeat split|].
    apply (grows_trans _ w1); [exact Hrun|]. apply (grows_emit (Sleep 1200) w1). }
  destruct r as [[]|e]; (eexists _, events; split; [reflexivity|]);
    (split; [cbn [trace]; now rewrite Htrace, <- app_assoc|]);
    (split; [exact Hgrows|discriminate]).
Qed.

(** X28.  No exception ends the main loop, and no round of it is
    shorter than 20 minutes: any number of rounds returns normally, each
    round ends with a sleep of 1200 seconds, whether the run inside it
    returned, raised, or was skipped because the global rate limit was
    running, and the rounds only append to the pending queue, the errors
    and the calls made. *)
Theorem run_pipeline_keeps_going rounds pipeline w :
  ∃ w' events,
    run_pipeline rounds pipeline w = (Ok (), w') ∧
    trace w' = trace w ++ events ∧
    rounds ≤ length (filter (λ seconds, seconds = 1200%Z) (sleeps events)) ∧
    (0 < rounds → last events = Some (Sleep 1200)) ∧
    grows w w'.
Proof.
  revert w. induction rounds as [|rounds IH]; intros w.
  { exists w, []. rewrite app_nil_r.
    split; [reflexivity|]. split; [reflexivity|]. split; [apply Nat.le_0_l|].
    split; [intros H; inversion H|apply grows_refl]. }
  destruct (run_pipeline_round_spec pipeline w) as (w1 & events1 & Hround & Htrace1 & Hgrows1 & _).
  destruct (IH w1) as (w' & events & Hrounds & Htrace & Hcount & Hlast & Hgrows).
  exists w', ((events1 ++ [Sleep 1200]) ++ events).
  split; [|split; [|split; [|split]]].
  - cbn [Main.run_pipeline]. now rewrite (bind_eq _ _ _ _ _ Hround).
  - rewrite Htrace, Htrace1. now rewrite <- !app_assoc.
  - assert (Hone : length (filter (λ seconds, seconds = 1200%Z) (sleeps [Sleep 1200])) = 1)
      by reflexivity.
    unfold sleeps in *. rewrite !omap_app, !filter_app, !length_app, Hone. lia.
  - intros _. rewrite last_app. destruct rounds as [|rounds].
    + destruct events as [|ev events]; [now rewrite last_snoc|].
      cbn [Main.run_pipeline ret] in Hrounds. injection Hrounds as <-.
      apply (f_equal length) in Htrace. rewrite length_app in Htrace. cbn in Htrace. lia.
    + now rewrite Hlast by lia.
  - exact (grows_trans _ _ _ Hgrows1 Hgrows).
Qed.

End MainLoop.
